(** * etl-scrape: a map-listing scraper (extract / transform / load)

    A shallow embedding of the Python sources

      - [utils/extract.py]   ([GoogleMapsExtractor])
      - [utils/transform.py] ([DataTransformer])
      - [utils/load.py]      ([DataLoader])
      - [main.py]            ([create_config], [run_pipeline], [main])

    followed by the properties of the design document that were checked
    against it, and by further properties of the methods, of the three
    stages and of the whole pipeline.

    Conventions of the embedding.

      - Python [str] is [string], the text in UTF-8: a code point is a
        byte of ASCII, or a first byte and the continuation bytes that
        follow it.  The classes of code points that the sources depend
        on (the digits [\d] of [re], the digits and the white space of
        [float], the white space of [str.strip], the printable code
        points of [repr]) are written out for ASCII; beyond ASCII they
        are what the Unicode database of the interpreter says.  That
        database is the parameter [Unicode] of the embedding: the
        theorems hold for every database, and the concrete runs are
        made with a sample of it.
      - A Python [dict] literal is an association list in insertion order
        (pandas takes its column order from it).
      - Code that can raise lives in the monad [M S A := S -> Result A * S]:
        the state written before a [raise] stays written, as in Python.
        [exn] stands for instances of [Exception]; interrupts of the
        interpreter ([KeyboardInterrupt], [SystemExit]) are not modelled.
      - The browser (Selenium) is a collaborator outside the repository: it
        is the interface [Browser], whose primitives may raise, and the
        theorems hold for all its implementations.
      - A [float] is kept as the shortest decimal that denotes it (sign,
        digits, position of the decimal point), the form in which CPython
        reads and prints floats.  Values are not rounded to binary64 and
        do not overflow: [float_of_string] gives the decimal that the
        text denotes, which is the float of Python for a text of at most
        15 significant digits in the range of binary64.  Where a theorem
        is about every text, it speaks of what [float_of_string]
        returns and does not name its digits.
      - The file system is the part that the loader writes: its two
        files and their directories, with paths compared as they are
        written.  The log file of [setup_logging] and the files of the
        browser and its driver are not modelled.  *)

From Stdlib Require Import ZArith Lia Ascii String List Bool DecimalString.
From stdpp Require Import base gmap strings list.

Open Scope string_scope.

(** [simpl] computes a concatenation whose left side starts with a
    character, as in the Standard Library, and compares characters
    when both are known. *)
Arguments String.append !s1 s2.
Arguments Ascii.eqb : simpl nomatch.

(* ================================================================== *)
(** * Python strings *)
(* ================================================================== *)

Module PyStr.

(** An ASCII digit. *)
Definition is_digit (c : ascii) : bool :=
  match c with
  | "0" | "1" | "2" | "3" | "4" | "5" | "6" | "7" | "8" | "9" => true
  | _ => false
  end%char.

(** The white space of ASCII, as [str.isspace] has it: TAB, LF, VT, FF,
    CR, FS, GS, RS, US, SPACE. *)
Definition is_space (c : ascii) : bool :=
  let n := nat_of_ascii c in
  (((9 <=? n) && (n <=? 13)) || ((28 <=? n) && (n <=? 32)))%nat.

(** Truth value of a [str]: the empty string is falsy. *)
Definition truthy (s : string) : bool :=
  match s with EmptyString => false | String _ _ => true end.

(** ** Code points

    A [str] is kept as its text in UTF-8.  A code point of ASCII is one
    byte below 128; any other code point is a first byte from 192 on,
    which tells how many bytes follow (one to three), and these bytes,
    each from 128 to 191. *)

Definition is_continuation (c : ascii) : bool :=
  let n := nat_of_ascii c in ((128 <=? n) && (n <=? 191))%nat.

(** The number of bytes that follow the first byte [c] of a code
    point. *)
Definition tail_length (c : ascii) : nat :=
  let n := nat_of_ascii c in
  if (n <? 192)%nat then 0
  else if (n <? 224)%nat then 1
  else if (n <? 240)%nat then 2
  else 3.

(** The bytes from 128 to 191 at the start of [s], [k] of them at most,
    and what follows them. *)
Fixpoint continuation (k : nat) (s : string) : string :=
  match k, s with
  | S k', String c s' =>
      if is_continuation c then String c (continuation k' s') else EmptyString
  | _, _ => EmptyString
  end.

Fixpoint after_continuation (k : nat) (s : string) : string :=
  match k, s with
  | S k', String c s' =>
      if is_continuation c then after_continuation k' s' else s
  | _, _ => s
  end.

(** The text does not start inside a code point. *)
Definition at_boundary (s : string) : bool :=
  match s with
  | String c _ => negb (is_continuation c)
  | EmptyString => true
  end.

Fixpoint all_continuation (s : string) : bool :=
  match s with
  | EmptyString => true
  | String c s' => is_continuation c && all_continuation s'
  end.

(** The properties of the code points beyond ASCII that the sources
    depend on, as the Unicode database of the interpreter gives them
    for a code point in UTF-8: the digit that a decimal digit stands
    for ([unicodedata.decimal], the digits of [\d] and of [float]),
    whether it is white space ([str.isspace]) and whether it is
    printable ([str.isprintable]).  The database is not part of the
    sources: it is a parameter of the embedding, of which it is known
    that the digit of a decimal digit is one of the ten ASCII digits,
    and that white space is no digit. *)
Class Unicode : Type := {
  decimal_digit : string -> option ascii;
  white_space : string -> bool;
  printable : string -> bool;
  decimal_digit_is_digit :
    forall p d, decimal_digit p = Some d -> is_digit d = true;
  white_space_is_no_digit :
    forall p, white_space p = true -> decimal_digit p = None
}.

Section Text.
Context `{Unicode}.

(** The digit that the code point with the first byte [c] and the
    following bytes [t] stands for, when it is a decimal digit. *)
Definition decimal_of (c : ascii) (t : string) : option ascii :=
  match tail_length c with
  | O => if is_digit c then Some c else None
  | S _ as k =>
      if (String.length t =? k)%nat then decimal_digit (String c t) else None
  end.

(** The code point with the first byte [c] and the following bytes
    [t] is white space. *)
Definition space_of (c : ascii) (t : string) : bool :=
  match tail_length c with
  | O => is_space c
  | S _ as k => (String.length t =? k)%nat && white_space (String c t)
  end.

(** The text starts with a decimal digit: the digit. *)
Definition leading_digit (s : string) : option ascii :=
  match s with
  | EmptyString => None
  | String c s' => decimal_of c (continuation (tail_length c) s')
  end.

(** The text starts with white space. *)
Definition leading_space (s : string) : bool :=
  match s with
  | EmptyString => false
  | String c s' => space_of c (continuation (tail_length c) s')
  end.

(** [s.lstrip()]; [k] bytes of a code point of white space are still to
    be dropped. *)
Fixpoint lstrip_from (k : nat) (s : string) : string :=
  match s with
  | EmptyString => EmptyString
  | String c s' =>
      match k with
      | S k' => lstrip_from k' s'
      | O => if leading_space s then lstrip_from (tail_length c) s' else s
      end
  end.

Definition lstrip (s : string) : string := lstrip_from 0 s.

(** The text is white space from end to end. *)
Fixpoint all_space_from (k : nat) (s : string) : bool :=
  match s with
  | EmptyString => true
  | String c s' =>
      match k with
      | S k' => all_space_from k' s'
      | O => leading_space s && all_space_from (tail_length c) s'
      end
  end.

Definition all_space (s : string) : bool := all_space_from 0 s.

(** [s.rstrip()] *)
Fixpoint rstrip (s : string) : string :=
  match s with
  | EmptyString => EmptyString
  | String c s' => if all_space s then EmptyString else String c (rstrip s')
  end.

(** [s.strip()] *)
Definition strip (s : string) : string := rstrip (lstrip s).

(** The text is made of decimal digits from end to end. *)
Fixpoint digits_only_from (k : nat) (s : string) : bool :=
  match s with
  | EmptyString => true
  | String c s' =>
      match k with
      | S k' => digits_only_from k' s'
      | O =>
          match leading_digit s with
          | Some _ => digits_only_from (tail_length c) s'
          | None => false
          end
      end
  end.

Definition digits_only (s : string) : bool := digits_only_from 0 s.

(** A text in which no decimal digit stands. *)
Fixpoint no_digit (s : string) : bool :=
  match s with
  | EmptyString => true
  | String c s' =>
      match leading_digit (String c s') with
      | Some _ => false
      | None => no_digit s'
      end
  end.

End Text.

(** Stripping the bytes of the class [sp] from the two ends. *)
Fixpoint lstrip_of (sp : ascii -> bool) (s : string) : string :=
  match s with
  | EmptyString => EmptyString
  | String c s' => if sp c then lstrip_of sp s' else s
  end.

Fixpoint rstrip_of (sp : ascii -> bool) (s : string) : string :=
  match s with
  | EmptyString => EmptyString
  | String c s' =>
      let r := rstrip_of sp s' in
      if sp c && negb (truthy r) then EmptyString else String c r
  end.

Definition strip_of (sp : ascii -> bool) (s : string) : string :=
  rstrip_of sp (lstrip_of sp s).

(** [s.split(sep)] for a one-character separator: always at least one piece. *)
Fixpoint split (sep : ascii) (s : string) : list string :=
  match s with
  | EmptyString => [EmptyString]
  | String c s' =>
      if Ascii.eqb c sep then EmptyString :: split sep s'
      else match split sep s' with
           | p :: ps => String c p :: ps
           | [] => [String c EmptyString]
           end
  end.

(** [s.lower()] on ASCII. *)
Definition lower_char (c : ascii) : ascii :=
  let n := nat_of_ascii c in
  if ((65 <=? n) && (n <=? 90))%nat then ascii_of_nat (n + 32) else c.

Fixpoint lower (s : string) : string :=
  match s with
  | EmptyString => EmptyString
  | String c s' => String (lower_char c) (lower s')
  end.

Fixpoint repeat_char (c : ascii) (n : nat) : string :=
  match n with O => EmptyString | S n' => String c (repeat_char c n') end.

(** [s[:n]] and [s[n:]], by bytes. *)
Fixpoint take (n : nat) (s : string) : string :=
  match n, s with
  | S n', String c s' => String c (take n' s')
  | _, _ => EmptyString
  end.

Fixpoint drop (n : nat) (s : string) : string :=
  match n, s with
  | S n', String _ s' => drop n' s'
  | _, _ => s
  end.

(** A string made of ASCII digits only. *)
Fixpoint all_digits (s : string) : bool :=
  match s with
  | EmptyString => true
  | String c s' => is_digit c && all_digits s'
  end.

Definition starts_with_ascii_digit (s : string) : bool :=
  match s with
  | String c _ => is_digit c
  | EmptyString => false
  end.

(** [c in s] *)
Fixpoint has_char (c : ascii) (s : string) : bool :=
  match s with
  | EmptyString => false
  | String x s' => Ascii.eqb x c || has_char c s'
  end.

(** A string without the white space of ASCII. *)
Fixpoint no_space (s : string) : bool :=
  match s with
  | EmptyString => true
  | String c s' => negb (is_space c) && no_space s'
  end.

(** ** [repr(s)]

    The text between quotes, as the messages of [ValueError] show it:
    single quotes, unless the text holds a single quote and no double
    quote; the quote and the backslash are escaped, so are TAB, LF and
    CR, and every code point that is not printable is written with
    its number in hexadecimal. *)

Definition double_quote : ascii := ascii_of_nat 34.
Definition backslash : ascii := ascii_of_nat 92.

Definition hex_digit (n : N) : ascii :=
  ascii_of_N (if (n <? 10)%N then 48 + n else 87 + n).

(** The last [k] hexadecimal digits of [n]. *)
Fixpoint hex (k : nat) (n : N) : string :=
  match k with
  | O => EmptyString
  | S k' => hex k' (n / 16) ++ String (hex_digit (n mod 16)) EmptyString
  end.

(** The number of the code point with the first byte [c] and the
    following bytes [t]. *)
Definition code_point (c : ascii) (t : string) : N :=
  let lead := N_of_ascii c in
  let first :=
    match String.length t with
    | 0%nat => lead
    | 1%nat => (lead - 192)%N
    | 2%nat => (lead - 224)%N
    | _ => (lead - 240)%N
    end in
  fold_left (fun n b => n * 64 + (N_of_ascii b - 128))%N
            (list_ascii_of_string t) first.

Definition escape_code_point (n : N) : string :=
  String backslash
    (if (n <? 256)%N then "x" ++ hex 2 n
     else if (n <? 65536)%N then "u" ++ hex 4 n
     else "U" ++ hex 8 n).

(** A code point of ASCII between the quotes [q]. *)
Definition escape (q c : ascii) : string :=
  let n := nat_of_ascii c in
  if Ascii.eqb c q || Ascii.eqb c backslash then String backslash (String c "")
  else if (n =? 9)%nat then String backslash "t"
  else if (n =? 10)%nat then String backslash "n"
  else if (n =? 13)%nat then String backslash "r"
  else if ((n <? 32) || (n =? 127))%nat then escape_code_point (N.of_nat n)
  else String c "".

Section Repr.
Context `{Unicode}.

(** [k] bytes of the code point at hand are already written. *)
Fixpoint repr_from (q : ascii) (k : nat) (s : string) : string :=
  match s with
  | EmptyString => EmptyString
  | String c s' =>
      match k with
      | S k' => repr_from q k' s'
      | O =>
          let t := continuation (tail_length c) s' in
          (if (nat_of_ascii c <? 128)%nat then escape q c
           else if printable (String c t) then String c t
           else escape_code_point (code_point c t))
          ++ repr_from q (String.length t) s'
      end
  end.

Definition repr (s : string) : string :=
  let q := if has_char "'" s && negb (has_char double_quote s)
           then double_quote else "'"%char in
  String q (repr_from q 0 s ++ String q EmptyString).

End Repr.

End PyStr.

(* ================================================================== *)
(** * The regular expressions of the sources

    Every pattern of the sources is a sequence of literals and greedy digit
    runs [\d+], each run followed by a literal that is not a digit or by
    the end of the pattern.  On such patterns the backtracking matcher of
    [re] never revises a greedy choice (a shorter run would be followed by
    a digit, where the pattern wants the literal, and [-?] given up leaves
    ["-"] where [\d] is wanted), so a match at a position is the greedy
    one, and the matchers below are written as greedy scanners.
    [re.search] tries the positions from left to right.  *)
(* ================================================================== *)

Module PyRe.
Import PyStr.

Section Patterns.
Context `{Unicode}.

(** The longest prefix of decimal digits ([\d] matches the decimal
    digits of Unicode), and what follows it; [k] bytes of the digit
    at hand are still to be taken. *)
Fixpoint span_digits_from (k : nat) (s : string) : string * string :=
  match s with
  | EmptyString => (EmptyString, EmptyString)
  | String c s' =>
      match k with
      | S k' => let (d, r) := span_digits_from k' s' in (String c d, r)
      | O =>
          match leading_digit s with
          | Some _ =>
              let (d, r) := span_digits_from (tail_length c) s' in
              (String c d, r)
          | None => (EmptyString, s)
          end
      end
  end.

Definition span_digits (s : string) : string * string := span_digits_from 0 s.

(** [\d+] at the start of [s]: the run and the rest. *)
Definition digits1 (s : string) : option (string * string) :=
  match span_digits s with
  | (EmptyString, _) => None
  | (d, r) => Some (d, r)
  end.

(** A literal at the start of [s]: the rest. *)
Fixpoint lit (p s : string) : option string :=
  match p, s with
  | EmptyString, _ => Some s
  | String a p', String b s' => if Ascii.eqb a b then lit p' s' else None
  | String _ _, EmptyString => None
  end.

(** [-?] at the start of [s]: the sign taken and the rest. *)
Definition optional_minus (s : string) : string * string :=
  match lit "-" s with
  | Some s' => ("-", s')
  | None => ("", s)
  end.

(** [-?\d+\.\d+] at the start of [s]: the matched text and the rest. *)
Definition signed_decimal (s : string) : option (string * string) :=
  let (sg, s1) := optional_minus s in
  match digits1 s1 with
  | None => None
  | Some (i, s2) =>
      match lit "." s2 with
      | None => None
      | Some s3 =>
          match digits1 s3 with
          | None => None
          | Some (f, r) => Some (sg ++ i ++ "." ++ f, r)
          end
      end
  end.

(** [pre(-?\d+\.\d+)sep(-?\d+\.\d+)] at the start of [s]: the two groups. *)
Definition decimal_pair (pre sep : string) (s : string) : option (string * string) :=
  match lit pre s with
  | None => None
  | Some s1 =>
      match signed_decimal s1 with
      | None => None
      | Some (lat, s2) =>
          match lit sep s2 with
          | None => None
          | Some s3 =>
              match signed_decimal s3 with
              | None => None
              | Some (lng, _) => Some (lat, lng)
              end
          end
      end
  end.

(** [(\d+(\.\d+)?)] at the start of [s]: group 1. *)
Definition decimal_number (s : string) : option string :=
  match digits1 s with
  | None => None
  | Some (i, r) =>
      match lit "." r with
      | None => Some i
      | Some r' =>
          match digits1 r' with
          | Some (f, _) => Some (i ++ "." ++ f)
          | None => Some i
          end
      end
  end.

(** [re.search]: the match at the leftmost position that has one.  The
    positions are tried byte by byte: at a byte inside a code point (a
    byte from 128 to 191) no pattern of the sources matches, since
    none starts with such a byte and none is a digit. *)
Fixpoint search {A : Type} (m : string -> option A) (s : string) : option A :=
  match m s with
  | Some r => Some r
  | None =>
      match s with
      | EmptyString => None
      | String _ s' => search m s'
      end
  end.

(** [r'@(-?\d+\.\d+),(-?\d+\.\d+)'] *)
Definition at_pattern : string -> option (string * string) :=
  decimal_pair "@" ",".

(** [r'!3d(-?\d+\.\d+)!4d(-?\d+\.\d+)'] *)
Definition bang_pattern : string -> option (string * string) :=
  decimal_pair "!3d" "!4d".

(** The double quote, by its code. *)
Definition quote : string := String (ascii_of_nat 34) EmptyString.

(** The pattern for a [latitude] key and a [longitude] key of a JSON
    text, each a quoted name, a colon and a signed decimal, with a comma
    between the two. *)
Definition json_pattern : string -> option (string * string) :=
  decimal_pair (quote ++ "latitude" ++ quote ++ ":")
               ("," ++ quote ++ "longitude" ++ quote ++ ":").

(** [r'(\d+(\.\d+)?)'] *)
Definition rating_pattern : string -> option string := decimal_number.

End Patterns.
End PyRe.

(* ================================================================== *)
(** * Python floats, read and printed as decimals

    CPython reads a float with [float(str)] and prints it with [repr],
    both through the shortest decimal that denotes the float: the digits
    [d1 d2 .. dn] (no leading and no trailing zero) and the position [p]
    of the decimal point, for the value [0.d1d2..dn * 10^p]; zero has the
    digit ["0"] and the position [1].  A float is kept in that form.
    Reading a text gives the decimal that the text denotes: the
    rounding to binary64 (and with it overflow to infinity) is left
    out, so the digits are those of Python for texts of at most 15
    significant digits in the range of binary64.  *)
(* ================================================================== *)

Module PyFloat.
Import PyStr PyRe.

Inductive float : Type :=
| Finite (neg : bool) (digits : string) (decpt : Z)
| Infinity (neg : bool)
| NaN.

(** [bool(x)]: a float is falsy when it is zero. *)
Definition float_truthy (x : float) : bool :=
  match x with
  | Finite _ "0" _ => false
  | _ => true
  end.

Fixpoint drop_leading_zeros (s : string) : string :=
  match s with
  | String "0" s' => drop_leading_zeros s'
  | _ => s
  end.

Fixpoint drop_trailing_zeros (s : string) : string :=
  match s with
  | EmptyString => EmptyString
  | String c s' =>
      let r := drop_trailing_zeros s' in
      if Ascii.eqb c "0" && negb (truthy r) then EmptyString else String c r
  end.

(** The first digit is not a zero. *)
Definition nonzero_head (s : string) : bool :=
  match s with
  | String c _ => negb (Ascii.eqb c "0")
  | EmptyString => true
  end.

(** The digits of a float that is not zero: some digits, without a zero
    at either end. *)
Definition shortest (ds : string) : Prop :=
  all_digits ds = true /\ ds <> "" /\
  nonzero_head ds = true /\ drop_trailing_zeros ds = ds.

(** The float denoted by the digit string [ds] with the decimal point
    after its first [point] digits. *)
Definition of_decimal (neg : bool) (ds : string) (point : Z) : float :=
  let ds1 := drop_leading_zeros ds in
  match drop_trailing_zeros ds1 with
  | EmptyString => Finite neg "0" 1
  | ds2 => Finite neg ds2 (point - Z.of_nat (String.length ds - String.length ds1))
  end.

(** ** [float(s)]

    The grammar of the language reference:
      floatvalue  ::= [sign] (floatnumber | "inf" | "infinity" | "nan")
      floatnumber ::= number [exponent]
      number      ::= [digitpart] "." digitpart | digitpart ["."]
      digitpart   ::= digit (["_"] digit)*
      exponent    ::= ("e" | "E") [sign] digitpart
    between optional white space; the whole string has to be used.  *)

(** [(["_"] digit)*]: the digits read and the rest. *)
Fixpoint digitpart_tail (s : string) : string * string :=
  match s with
  | EmptyString => (EmptyString, EmptyString)
  | String c s' =>
      if is_digit c then
        let (d, r) := digitpart_tail s' in (String c d, r)
      else if Ascii.eqb c "_" then
        match s' with
        | String c2 s'' =>
            if is_digit c2 then
              let (d, r) := digitpart_tail s'' in (String c2 d, r)
            else (EmptyString, s)
        | EmptyString => (EmptyString, s)
        end
      else (EmptyString, s)
  end.

Definition digitpart (s : string) : option (string * string) :=
  match s with
  | String c s' =>
      if is_digit c then
        let (d, r) := digitpart_tail s' in Some (String c d, r)
      else None
  | EmptyString => None
  end.

Definition sign (s : string) : bool * string :=
  match s with
  | String "-" s' => (true, s')
  | String "+" s' => (false, s')
  | _ => (false, s)
  end.

(** [number]: the digits before the point, those after it, and the rest. *)
Definition number (s : string) : option (string * string * string) :=
  match digitpart s with
  | Some (i, r) =>
      match r with
      | String "." r' =>
          match digitpart r' with
          | Some (f, r'') => Some (i, f, r'')
          | None => Some (i, EmptyString, r')
          end
      | _ => Some (i, EmptyString, r)
      end
  | None =>
      match s with
      | String "." r' =>
          match digitpart r' with
          | Some (f, r'') => Some (EmptyString, f, r'')
          | None => None
          end
      | _ => None
      end
  end.

Definition digit_value (c : ascii) : Z := Z.of_nat (nat_of_ascii c) - 48.

Fixpoint digits_value (acc : Z) (s : string) : Z :=
  match s with
  | EmptyString => acc
  | String c s' => digits_value (10 * acc + digit_value c) s'
  end.

(** [[exponent]] up to the end of the string: its value, [0] when absent. *)
Definition exponent (s : string) : option Z :=
  match s with
  | EmptyString => Some 0%Z
  | String c r =>
      if Ascii.eqb c "e" || Ascii.eqb c "E" then
        let (neg, r1) := sign r in
        match digitpart r1 with
        | Some (d, EmptyString) =>
            Some (if neg then (- digits_value 0 d)%Z else digits_value 0 d)
        | _ => None
        end
      else None
  end.

(** The white space that [float] skips at the two ends of an ASCII
    string: TAB, LF, VT, FF, CR, SPACE. *)
Definition is_c_space (c : ascii) : bool :=
  let n := nat_of_ascii c in
  (((9 <=? n) && (n <=? 13)) || (n =? 32))%nat.

(** [float] of an ASCII text; [None] stands for [ValueError]. *)
Definition float_of_ascii (s : string) : option float :=
  let (neg, s1) := sign (strip_of is_c_space s) in
  let l := lower s1 in
  if String.eqb l "inf" || String.eqb l "infinity" then Some (Infinity neg)
  else if String.eqb l "nan" then Some NaN
  else
    match number s1 with
    | Some (i, f, r) =>
        match exponent r with
        | Some e => Some (of_decimal neg (i ++ f) (Z.of_nat (String.length i) + e))
        | None => None
        end
    | None => None
    end.

Section Unicode.
Context `{Unicode}.

(** What [float] makes of a text before it reads it: a code point
    beyond ASCII becomes a space when it is white space and its digit
    when it is a decimal digit; any other makes the text unreadable.
    [k] bytes of the code point at hand are still to be skipped. *)
Fixpoint to_ascii_from (k : nat) (s : string) : option string :=
  match s with
  | EmptyString => Some EmptyString
  | String c s' =>
      match k with
      | S k' => to_ascii_from k' s'
      | O =>
          if (nat_of_ascii c <? 128)%nat then
            option_map (String c) (to_ascii_from 0 s')
          else
            let t := continuation (tail_length c) s' in
            if space_of c t then
              option_map (String " ") (to_ascii_from (tail_length c) s')
            else
              match decimal_of c t with
              | Some d => option_map (String d) (to_ascii_from (tail_length c) s')
              | None => None
              end
      end
  end.

Definition to_ascii (s : string) : option string := to_ascii_from 0 s.

(** [float(s)]; [None] stands for [ValueError]. *)
Definition float_of_string (s : string) : option float :=
  match to_ascii s with
  | Some a => float_of_ascii a
  | None => None
  end.

End Unicode.

(** ** [str(x)] (the same as [repr(x)])

    [float_repr] of CPython: exponent notation when the position of the
    point is [<= -4] or [> 16], positional notation otherwise, always with
    a point or an exponent. *)

Definition string_of_nat (n : nat) : string :=
  NilZero.string_of_uint (Nat.to_uint n).

(** The exponent as [e+XX] / [e-XX], with two digits at least. *)
Definition exponent_str (e : Z) : string :=
  let a := string_of_nat (Z.to_nat (Z.abs e)) in
  "e" ++ (if (e <? 0)%Z then "-" else "+")
      ++ (if (String.length a <? 2)%nat then "0" ++ a else a).

Definition float_str (x : float) : string :=
  match x with
  | NaN => "nan"
  | Infinity neg => if neg then "-inf" else "inf"
  | Finite neg ds p =>
      (if neg then "-" else "") ++
      (if (p <=? -4)%Z || (16 <? p)%Z then
         match ds with
         | String d EmptyString => String d EmptyString ++ exponent_str (p - 1)
         | String d more => String d "." ++ more ++ exponent_str (p - 1)
         | EmptyString => EmptyString
         end
       else if (p <=? 0)%Z then
         "0." ++ repeat_char "0" (Z.to_nat (- p)) ++ ds
       else if (Z.of_nat (String.length ds) <=? p)%Z then
         ds ++ repeat_char "0" (Z.to_nat p - String.length ds) ++ ".0"
       else
         take (Z.to_nat p) ds ++ "." ++ drop (Z.to_nat p) ds)
  end.

(** Positional notation is what [str] prints for zero and for the floats
    from [1e-4] up to (not including) [1e16]. *)
Definition positional (x : float) : bool :=
  match x with
  | Finite _ _ p => (-4 <? p)%Z && (p <=? 16)%Z
  | _ => false
  end.

End PyFloat.

(* ================================================================== *)
(** * A sample of the Unicode database, for the concrete runs

    The white space beyond ASCII, four blocks of decimal digits
    (Arabic-Indic, Extended Arabic-Indic, Devanagari and Fullwidth),
    and the code points of Latin-1 that are not printable.  The runs
    below are made with it; the theorems hold for every database. *)
(* ================================================================== *)

Module SampleUnicode.
Import PyStr.

Definition codes (p : string) : list nat :=
  map nat_of_ascii (list_ascii_of_string p).

(** The digit with the value [n - base], for [n] from [base] to
    [base + 9]. *)
Definition digit_from (base n : nat) : option ascii :=
  match n - base with
  | 0 => if (base <=? n)%nat then Some "0"%char else None
  | 1 => Some "1"%char | 2 => Some "2"%char | 3 => Some "3"%char
  | 4 => Some "4"%char | 5 => Some "5"%char | 6 => Some "6"%char
  | 7 => Some "7"%char | 8 => Some "8"%char | 9 => Some "9"%char
  | _ => None
  end.

Definition decimal_digit (p : string) : option ascii :=
  match codes p with
  | [a; n] =>
      if (a =? 217)%nat then digit_from 160 n
      else if (a =? 219)%nat then digit_from 176 n
      else None
  | [a; b; n] =>
      if ((a =? 224) && (b =? 165))%nat then digit_from 166 n
      else if ((a =? 239) && (b =? 188))%nat then digit_from 144 n
      else None
  | _ => None
  end.

Definition white_space (p : string) : bool :=
  match codes p with
  | [a; n] => ((a =? 194) && ((n =? 133) || (n =? 160)))%nat
  | [a; b; n] =>
      (((a =? 225) && (b =? 154) && (n =? 128))
       || ((a =? 226) && (b =? 128)
           && (((128 <=? n) && (n <=? 138)) || (n =? 168) || (n =? 169)
               || (n =? 175)))
       || ((a =? 226) && (b =? 129) && (n =? 159))
       || ((a =? 227) && (b =? 128) && (n =? 128)))%nat
  | _ => false
  end.

Definition printable (p : string) : bool :=
  match codes p with
  | [a; n] =>
      if (a =? 194)%nat then negb ((n <=? 160)%nat || (n =? 173)%nat) else true
  | _ => negb (white_space p)
  end.

Definition database : Unicode.
Proof.
  refine {| PyStr.decimal_digit := decimal_digit;
            PyStr.white_space := white_space;
            PyStr.printable := printable |}.
  - assert (D : forall base n d, digit_from base n = Some d -> is_digit d = true).
    { intros base n d. unfold digit_from.
      destruct (n - base) as [|[|[|[|[|[|[|[|[|[|k]]]]]]]]]];
        try (intros [= <-]; reflexivity).
      destruct (base <=? n)%nat; [intros [= <-]; reflexivity | discriminate]. }
    intros p d. unfold decimal_digit.
    destruct (codes p) as [|a [|b [|c [|e l]]]]; try discriminate.
    + destruct (a =? 217)%nat; [apply D|].
      destruct (a =? 219)%nat; [apply D | discriminate].
    + destruct ((a =? 224) && (b =? 165))%nat; [apply D|].
      destruct ((a =? 239) && (b =? 188))%nat; [apply D | discriminate].
  - intros p. unfold white_space, decimal_digit.
    destruct (codes p) as [|a [|b [|c [|e l]]]]; try reflexivity.
    + intros [Ha _]%andb_true_iff. apply Nat.eqb_eq in Ha. subst a. reflexivity.
    + intros Hw.
      destruct (Nat.eqb_spec a 224) as [->|_]; [discriminate Hw|].
      destruct (Nat.eqb_spec a 239) as [->|_]; [discriminate Hw|].
      reflexivity.
Defined.

End SampleUnicode.



(* ================================================================== *)
(** * Exceptions and mutable state *)
(* ================================================================== *)

Module Py.

(** Instances of [Exception], by class, with their message. *)
Inductive exn : Type :=
| ValueError (msg : string)
| TypeError (msg : string)
| AttributeError (msg : string)
| OSError (msg : string)
| WebDriverException (msg : string)
| Exception (msg : string).

(** [str(e)] *)
Definition exn_str (e : exn) : string :=
  match e with
  | ValueError m | TypeError m | AttributeError m
  | OSError m | WebDriverException m | Exception m => m
  end.

Inductive Result (A : Type) : Type :=
| Ok (a : A)
| Raise (e : exn).
Arguments Ok {A} a.
Arguments Raise {A} e.

(** A computation over the mutable state [S] that returns or raises. *)
Definition M (S A : Type) : Type := S -> Result A * S.

Definition ret {S A} (a : A) : M S A := fun s => (Ok a, s).

Definition raise {S A} (e : exn) : M S A := fun s => (Raise e, s).

Definition bind {S A B} (m : M S A) (k : A -> M S B) : M S B :=
  fun s =>
    match m s with
    | (Ok a, s') => k a s'
    | (Raise e, s') => (Raise e, s')
    end.

Definition modify {S} (f : S -> S) : M S unit := fun s => (Ok tt, f s).

(** [try: body  except Exception as e: handler e] (and the bare
    [except:], which differs on interrupts only). *)
Definition try_except {S A} (body : M S A) (handler : exn -> M S A) : M S A :=
  fun s =>
    match body s with
    | (Ok a, s') => (Ok a, s')
    | (Raise e, s') => handler e s'
    end.

(** [try: body  finally: final]: [final] runs on every way out of
    [body], and an exception of [final] replaces the outcome of [body]. *)
Definition try_finally {S A} (body : M S A) (final : M S unit) : M S A :=
  fun s =>
    match body s with
    | (r, s') =>
        match final s' with
        | (Ok _, s'') => (r, s'')
        | (Raise e, s'') => (Raise e, s'')
        end
    end.

Module Notations.
  Notation "'let*' x ':=' c 'in' k" := (bind c (fun x => k))
    (at level 10, x pattern, c at level 100, k at level 200).
  Notation "c ';;' k" := (bind c (fun _ => k))
    (at level 100, k at level 200, right associativity).
End Notations.
Import Notations.

(** [for x in xs: body x], where the body runs to its end or raises. *)
Fixpoint for_each {S X} (xs : list X) (body : X -> M S unit) : M S unit :=
  match xs with
  | [] => ret tt
  | x :: rest => body x ;; for_each rest body
  end.

(** [for x in xs: body x], where the body may leave the enclosing
    function with [return v] ([Some v]) or go on to the next element
    ([None]); [None] at the end when no element returned. *)
Fixpoint for_return {S X A} (xs : list X) (body : X -> M S (option A))
  : M S (option A) :=
  match xs with
  | [] => ret None
  | x :: rest =>
      let* r := body x in
      match r with
      | Some v => ret (Some v)
      | None => for_return rest body
      end
  end.

(** [for x in xs: body x], where the body may [break] ([true]). *)
Fixpoint for_break {S X} (xs : list X) (body : X -> M S bool) : M S unit :=
  match xs with
  | [] => ret tt
  | x :: rest =>
      let* b := body x in
      if b then ret tt else for_break rest body
  end.

(** [enumerate(xs)] *)
Fixpoint enumerate_from {X} (i : nat) (xs : list X) : list (nat * X) :=
  match xs with
  | [] => []
  | x :: rest => (i, x) :: enumerate_from (S i) rest
  end.

Definition enumerate {X} (xs : list X) : list (nat * X) := enumerate_from 0 xs.

(** [time.sleep(seconds)]: time itself is not modelled. *)
Definition sleep {S} (seconds : Z) : M S unit :=
  if (seconds <? 0)%Z then raise (ValueError "sleep length must be non-negative")
  else ret tt.

(** Every value that [m] returns satisfies [Q] (nothing is said of the
    runs of [m] that raise). *)
Definition returns {S A} (m : M S A) (Q : A -> Prop) : Prop :=
  forall s a s', m s = (Ok a, s') -> Q a.

(** [Q] of the value, when there is one. *)
Definition when_some {A} (Q : A -> Prop) (r : option A) : Prop :=
  match r with
  | Some v => Q v
  | None => True
  end.

(** [m] never raises: it returns from every state. *)
Definition never_raises {S A} (m : M S A) : Prop :=
  forall s, exists a s', m s = (Ok a, s').

(** A raw record: the [dict] of one listing, from field name to text,
    keys in insertion order. *)
Definition RawRecord : Type := list (string * string).

(** [d.get(k)] *)
Fixpoint assoc {V} (k : string) (l : list (string * V)) : option V :=
  match l with
  | [] => None
  | (k', v) :: rest => if String.eqb k' k then Some v else assoc k rest
  end.

(** [list(d.keys())] *)
Definition keys {V} (l : list (string * V)) : list string := map fst l.

(** The records of the [logging] module. *)
Inductive Level : Type := DEBUG | INFO | WARNING | ERROR.

Record LogRecord : Type := { level : Level; message : string }.

End Py.

(* ================================================================== *)
(** * pandas, as far as the sources use it *)
(* ================================================================== *)

Module Pandas.
Import PyStr PyFloat Py.

(** A value held in a cell of a frame. *)
Inductive cell : Type :=
| CStr (s : string)
| CFloat (x : float)
| CNone
| CTimestamp (iso : string).

(** [bool(v)] *)
Definition cell_truthy (v : cell) : bool :=
  match v with
  | CStr s => truthy s
  | CFloat x => float_truthy x
  | CNone => false
  | CTimestamp _ => true
  end.

(** [str(v)] *)
Definition cell_str (v : cell) : string :=
  match v with
  | CStr s => s
  | CFloat x => float_str x
  | CNone => "None"
  | CTimestamp iso => iso
  end.

(** [v != s] for a string literal [s]. *)
Definition cell_ne_str (v : cell) (s : string) : bool :=
  match v with
  | CStr s' => negb (String.eqb s' s)
  | _ => true
  end.

(** A frame over the index [0 .. df_index - 1]: its columns in order,
    each as long as the index. *)
Record DataFrame : Type := {
  df_index : nat;
  df_columns : list (string * list cell)
}.

(** [pd.DataFrame()] *)
Definition empty_frame : DataFrame := {| df_index := 0; df_columns := [] |}.

(** [df.empty]: no row or no column. *)
Definition df_empty (df : DataFrame) : bool :=
  (df_index df =? 0)%nat ||
  match df_columns df with [] => true | _ :: _ => false end.

Fixpoint assoc_set {V} (k : string) (v : V) (l : list (string * V))
  : list (string * V) :=
  match l with
  | [] => [(k, v)]
  | (k', v') :: rest =>
      if String.eqb k' k then (k, v) :: rest else (k', v') :: assoc_set k v rest
  end.

(** [name in df.columns] *)
Definition df_has (name : string) (df : DataFrame) : bool :=
  match assoc name (df_columns df) with Some _ => true | None => false end.

(** [df[name]], for a column that is there. *)
Definition df_col (name : string) (df : DataFrame) : list cell :=
  match assoc name (df_columns df) with Some c => c | None => [] end.

(** [df[name] = v] for a scalar [v]: the column is made (or replaced),
    [v] in every row. *)
Definition df_set_scalar (name : string) (v : cell) (df : DataFrame) : DataFrame :=
  {| df_index := df_index df;
     df_columns := assoc_set name (repeat v (df_index df)) (df_columns df) |}.

(** [df[name] = series], for a series over the same index. *)
Definition df_set_column (name : string) (c : list cell) (df : DataFrame) : DataFrame :=
  {| df_index := df_index df;
     df_columns := assoc_set name c (df_columns df) |}.

(** [df.at[idx, name] = v], for a label [idx] of the index and a column
    that is there (the sources write nowhere else). *)
Definition df_at_set (idx : nat) (name : string) (v : cell) (df : DataFrame) : DataFrame :=
  match assoc name (df_columns df) with
  | Some c => df_set_column name (<[idx := v]> c) df
  | None => df
  end.

(** The keys of the records, each once, in the order they first appear. *)
Fixpoint first_seen (seen keys : list string) : list string :=
  match keys with
  | [] => []
  | k :: rest =>
      if existsb (String.eqb k) seen then first_seen seen rest
      else k :: first_seen (k :: seen) rest
  end.

(** [pd.DataFrame(records)] for a list of [dict]s: one row per record,
    one column per key, [NaN] where a record lacks the key. *)
Definition DataFrame_of (records : list RawRecord) : DataFrame :=
  {| df_index := List.length records;
     df_columns :=
       map (fun k =>
              (k, map (fun r => match assoc k r with
                                | Some v => CStr v
                                | None => CFloat NaN
                                end) records))
           (first_seen [] (concat (map keys records))) |}.

(** [df.drop(name, axis=1)] *)
Definition df_drop (name : string) (df : DataFrame) : DataFrame :=
  {| df_index := df_index df;
     df_columns :=
       List.filter (fun kv => negb (String.eqb (fst kv) name)) (df_columns df) |}.

Section Text.
Context `{Unicode}.

(** [series.str.strip()] on one value: a string is stripped, anything
    else becomes [NaN]. *)
Definition str_strip (v : cell) : cell :=
  match v with
  | CStr s => CStr (strip s)
  | _ => CFloat NaN
  end.

(** [pd.to_numeric(series, errors='coerce')] on one value: a float stays,
    a string that reads as a float becomes it, anything else is [NaN]. *)
Definition to_numeric_coerce (v : cell) : cell :=
  match v with
  | CFloat x => CFloat x
  | CStr s =>
      match float_of_string s with
      | Some x => CFloat x
      | None => CFloat NaN
      end
  | CNone | CTimestamp _ => CFloat NaN
  end.

End Text.

End Pandas.

(* ================================================================== *)
(** * [utils/transform.py] *)
(* ================================================================== *)

Module DataTransformer.
Import PyStr PyRe PyFloat Py Py.Notations Pandas.

Section Text.
Context `{Unicode}.

(** The frame a method works on is a Python object that the method
    changes in place; [logger] is the logger of the module. *)
Record State : Type := {
  frame : DataFrame;
  log : list LogRecord
}.

Definition get_frame : M State DataFrame :=
  fun st => (Ok (frame st), st).

Definition update_frame (f : DataFrame -> DataFrame) : M State unit :=
  modify (fun st => {| frame := f (frame st); log := log st |}).

Definition logger (lv : Level) (msg : string) : M State unit :=
  modify (fun st => {| frame := frame st;
                       log := log st ++ [{| level := lv; message := msg |}] |}).

(** [float(s)] *)
Definition float_ (s : string) : M State float :=
  match float_of_string s with
  | Some x => ret x
  | None => raise (ValueError ("could not convert string to float: " ++ repr s))
  end.

(** [v.split(',')]: a method of [str] only. *)
Definition split_comma (v : cell) : M State (list string) :=
  match v with
  | CStr s => ret (split "," s)
  | CFloat _ => raise (AttributeError "'float' object has no attribute 'split'")
  | CNone => raise (AttributeError "'NoneType' object has no attribute 'split'")
  | CTimestamp _ => raise (AttributeError "'Timestamp' object has no attribute 'split'")
  end.

(** [a, b = parts] *)
Definition unpack2 (parts : list string) : M State (string * string) :=
  match parts with
  | [a; b] => ret (a, b)
  | [] | [_] =>
      raise (ValueError ("not enough values to unpack (expected 2, got "
                         ++ string_of_nat (List.length parts) ++ ")"))
  | _ => raise (ValueError "too many values to unpack (expected 2)")
  end.

(** The body of the loop of [_extract_numeric_rating]. *)
Definition rating_step (idx : nat) (rating : cell) : M State unit :=
  if cell_truthy rating && cell_ne_str rating "No rating" then
    match search rating_pattern (cell_str rating) with
    | Some group1 =>
        let* x := float_ group1 in
        update_frame (df_at_set idx "rating_numeric" (CFloat x))
    | None => ret tt
    end
  else ret tt.

Definition _extract_numeric_rating : M State unit :=
  let* df := get_frame in
  if df_has "rating" df then
    update_frame (df_set_scalar "rating_numeric" CNone) ;;
    let* df := get_frame in
    for_each (enumerate (df_col "rating" df))
             (fun '(idx, rating) => rating_step idx rating) ;;
    update_frame (fun df =>
      df_set_column "rating_numeric"
        (map to_numeric_coerce (df_col "rating_numeric" df)) df)
  else ret tt.

(** The body of the loop of [_split_coordinates]. *)
Definition coordinates_step (idx : nat) (coord : cell) : M State unit :=
  if cell_truthy coord && cell_ne_str coord "No coordinates" then
    try_except
      (let* parts := split_comma coord in
       let* (lat, lng) := unpack2 parts in
       let* x := float_ lat in
       update_frame (df_at_set idx "latitude" (CFloat x)) ;;
       let* y := float_ lng in
       update_frame (df_at_set idx "longitude" (CFloat y)))
      (fun e =>
         logger WARNING ("Failed to parse coordinates '" ++ cell_str coord
                         ++ "': " ++ exn_str e))
  else ret tt.

Definition _split_coordinates : M State unit :=
  let* df := get_frame in
  if df_has "coordinates" df then
    update_frame (df_set_scalar "latitude" CNone) ;;
    update_frame (df_set_scalar "longitude" CNone) ;;
    let* df := get_frame in
    for_each (enumerate (df_col "coordinates" df))
             (fun '(idx, coord) => coordinates_step idx coord) ;;
    update_frame (fun df =>
      df_set_column "latitude"
        (map to_numeric_coerce (df_col "latitude" df)) df) ;;
    update_frame (fun df =>
      df_set_column "longitude"
        (map to_numeric_coerce (df_col "longitude" df)) df)
  else ret tt.

(** What the loop of [_extract_numeric_rating] leaves in the row of
    [rating]: the float it wrote, or the [None] the column started with. *)
Definition rating_written (rating : cell) : cell :=
  if cell_truthy rating && cell_ne_str rating "No rating" then
    match search rating_pattern (cell_str rating) with
    | Some group1 =>
        match float_of_string group1 with
        | Some x => CFloat x
        | None => CNone
        end
    | None => CNone
    end
  else CNone.

(** The value that [_extract_numeric_rating] leaves in the row of
    [rating]: what the loop writes, after [pd.to_numeric]. *)
Definition numeric_rating (rating : cell) : float :=
  if cell_truthy rating && cell_ne_str rating "No rating" then
    match search rating_pattern (cell_str rating) with
    | Some group1 =>
        match float_of_string group1 with
        | Some x => x
        | None => NaN
        end
    | None => NaN
    end
  else NaN.

Section CleanAndTransform.
(** Two values come from outside the repository: what
    [series.replace(to_replace, None)] puts in the place of
    [to_replace] (pandas changed it between versions: the value of the
    row above, or [None]), and the clock. *)
Variable replace_with_None : string -> list cell -> list cell.
Variable now : string.

Definition _clean_names : M State unit :=
  let* df := get_frame in
  if df_has "name" df then
    update_frame (fun df =>
      df_set_column "name" (map str_strip (df_col "name" df)) df) ;;
    update_frame (fun df =>
      df_set_column "name" (replace_with_None "No name" (df_col "name" df)) df)
  else ret tt.

Definition clean_and_transform (raw_data : list RawRecord) : M State DataFrame :=
  match raw_data with
  | [] =>
      logger WARNING "No data to transform" ;;
      ret empty_frame
  | _ :: _ =>
      logger INFO ("Transforming " ++ string_of_nat (List.length raw_data)
                   ++ " records") ;;
      update_frame (fun _ => DataFrame_of raw_data) ;;
      let* df := get_frame in
      (if df_has "raw_html" df then update_frame (df_drop "raw_html")
       else ret tt) ;;
      _clean_names ;;
      _extract_numeric_rating ;;
      _split_coordinates ;;
      update_frame (df_set_scalar "extraction_timestamp" (CTimestamp now)) ;;
      let* df := get_frame in
      logger INFO ("Transformation complete, resulting in "
                   ++ string_of_nat (df_index df) ++ " records") ;;
      ret df
  end.
End CleanAndTransform.

(** The run of a method on the frame [df], with an empty log. *)
Definition run {A} (m : M State A) (df : DataFrame) : Result A * State :=
  m {| frame := df; log := [] |}.

(** The [rating_numeric] column that [_extract_numeric_rating] makes of
    the rating strings [ratings], one record each. *)
Definition rating_numeric_column (ratings : list string) : list cell :=
  df_col "rating_numeric"
    (frame (snd (run _extract_numeric_rating
                   (DataFrame_of (map (fun r => [("rating", r)]) ratings))))).


(** What a computation that does not look at the frame returns or
    raises. *)
Definition outcome {A} (m : M State A) : Result A :=
  fst (m {| frame := empty_frame; log := [] |}).

(** What one turn of the loop of [_split_coordinates] leaves in the row
    of [coord]: the latitude and the longitude (the float it wrote, or
    the [None] the column started with), and what the [try] raised. *)
Definition coordinates_written (coord : cell) : cell * cell * option exn :=
  if cell_truthy coord && cell_ne_str coord "No coordinates" then
    match outcome (split_comma coord) with
    | Raise e => (CNone, CNone, Some e)
    | Ok parts =>
        match outcome (unpack2 parts) with
        | Raise e => (CNone, CNone, Some e)
        | Ok (lat, lng) =>
            match outcome (float_ lat) with
            | Raise e => (CNone, CNone, Some e)
            | Ok x =>
                match outcome (float_ lng) with
                | Raise e => (CFloat x, CNone, Some e)
                | Ok y => (CFloat x, CFloat y, None)
                end
            end
        end
    end
  else (CNone, CNone, None).

(** The warning that the [except] branch logs for the row of [coord],
    if the [try] raised. *)
Definition warning_of (coord : cell) : list LogRecord :=
  match coordinates_written coord with
  | (_, _, Some e) =>
      [{| level := WARNING;
          message := "Failed to parse coordinates '" ++ cell_str coord
                     ++ "': " ++ exn_str e |}]
  | (_, _, None) => []
  end.

(** The latitude and the longitude that [_split_coordinates] leaves in
    the row of [coord], after [pd.to_numeric]. *)
Definition latitude_of (coord : cell) : cell :=
  to_numeric_coerce (fst (fst (coordinates_written coord))).

Definition longitude_of (coord : cell) : cell :=
  to_numeric_coerce (snd (fst (coordinates_written coord))).

(** The [latitude] and the [longitude] column that [_split_coordinates]
    makes of the coordinate strings [coordinates], one record each. *)
Definition coordinates_columns (coordinates : list string) : list cell * list cell :=
  let df := frame (snd (run _split_coordinates
                          (DataFrame_of (map (fun c => [("coordinates", c)])
                                             coordinates)))) in
  (df_col "latitude" df, df_col "longitude" df).

End Text.

End DataTransformer.

(* ================================================================== *)
(** * The frame that each step of the transformation leaves

    The methods of [DataTransformer] change the frame in place; these
    are the frames they leave, as functions of the frame they find. *)
(* ================================================================== *)

Module Transformed.
Import PyStr PyFloat Py Pandas DataTransformer.

(** The frame [df] with the columns [latitude] and [longitude]. *)
Abbreviation two_columns lats lngs df :=
  (df_set_column "longitude" lngs (df_set_column "latitude" lats df)).

Section Text.
Context `{Unicode}.

Definition raw_html_dropped (df : DataFrame) : DataFrame :=
  if df_has "raw_html" df then df_drop "raw_html" df else df.

Definition rating_numeric_added (df : DataFrame) : DataFrame :=
  if df_has "rating" df then
    df_set_column "rating_numeric"
      (map (fun r => CFloat (numeric_rating r)) (df_col "rating" df)) df
  else df.

Definition coordinates_split (df : DataFrame) : DataFrame :=
  if df_has "coordinates" df then
    two_columns (map latitude_of (df_col "coordinates" df))
                (map longitude_of (df_col "coordinates" df)) df
  else df.

Definition split_warnings (df : DataFrame) : list LogRecord :=
  if df_has "coordinates" df then flat_map warning_of (df_col "coordinates" df)
  else [].

(** The column [k], when the frame has it, is as long as the index. *)
Definition full_column (k : string) (df : DataFrame) : Prop :=
  forall c, assoc k (df_columns df) = Some c -> List.length c = df_index df.

Section CleanAndTransform.
Variable replace_with_None : string -> list cell -> list cell.
Variable now : string.

Definition names_cleaned (df : DataFrame) : DataFrame :=
  if df_has "name" df then
    df_set_column "name"
      (replace_with_None "No name" (map str_strip (df_col "name" df))) df
  else df.

(** The frame that [clean_and_transform] makes of records. *)
Definition transformed (raw_data : list RawRecord) : DataFrame :=
  df_set_scalar "extraction_timestamp" (CTimestamp now)
    (coordinates_split
       (rating_numeric_added
          (names_cleaned (raw_html_dropped (DataFrame_of raw_data))))).
End CleanAndTransform.

End Text.

End Transformed.


(* ================================================================== *)
(** * [utils/load.py] *)
(* ================================================================== *)

Module DataLoader.
Import PyStr Py Py.Notations Pandas.

(** What [to_csv] and [to_json(orient='records', lines=True)] write: the
    frame in one of the two formats (the text itself is not modelled). *)
Inductive Content : Type :=
| CsvOf (df : DataFrame)
| JsonLinesOf (df : DataFrame).

(** The file system: the files, the directories, and the paths that the
    process may not create or write ([denied], which stands for every
    reason a write can fail).  A path is the string that the loader
    passes: two spellings of one file are two paths here.  [denied] is
    fixed during a run, so a write that fails because of what the run
    itself has made (a file where a directory is wanted) is outside
    the model. *)
Record FileSystem : Type := {
  files : gmap string Content;
  dirs : gset string;
  denied : gset string
}.

Record State : Type := {
  fs : FileSystem;
  log : list LogRecord
}.

Definition logger (lv : Level) (msg : string) : M State unit :=
  modify (fun st => {| fs := fs st;
                       log := log st ++ [{| level := lv; message := msg |}] |}).

(** [p[:p.rfind('/') + 1]] *)
Fixpoint head_of (p : string) : string :=
  match p with
  | EmptyString => EmptyString
  | String c p' =>
      let h := head_of p' in
      if Ascii.eqb c "/" then String c h
      else match h with EmptyString => EmptyString | _ => String c h end
  end.

Fixpoint all_slashes (p : string) : bool :=
  match p with
  | EmptyString => true
  | String c p' => Ascii.eqb c "/" && all_slashes p'
  end.

Fixpoint rstrip_slashes (p : string) : string :=
  match p with
  | EmptyString => EmptyString
  | String c p' =>
      let r := rstrip_slashes p' in
      if Ascii.eqb c "/" && negb (truthy r) then EmptyString else String c r
  end.

(** [os.path.dirname(p)] *)
Definition dirname (p : string) : string :=
  let head := head_of p in
  if all_slashes head then head else rstrip_slashes head.

(** The directory [d] and the directories above it ([n] bounds their
    number; the length of [d] is enough). *)
Fixpoint ancestors (n : nat) (d : string) : list string :=
  match n with
  | O => [d]
  | S n' =>
      let up := dirname d in
      if String.eqb up "" || String.eqb up d then [d]
      else d :: ancestors n' up
  end.

(** [os.makedirs(d, exist_ok=True)] *)
Definition makedirs (d : string) : M State unit :=
  fun st =>
    if decide (d ∈ denied (fs st)) then
      (Raise (OSError ("[Errno 13] Permission denied: '" ++ d ++ "'")), st)
    else
      (Ok tt, {| fs := {| files := files (fs st);
                          dirs := dirs (fs st)
                                  ∪ list_to_set (ancestors (String.length d) d);
                          denied := denied (fs st) |};
                 log := log st |}).

(** Writing [c] to the file [path]. *)
Definition write_file (path : string) (c : Content) : M State unit :=
  fun st =>
    if decide (path ∈ denied (fs st)) then
      (Raise (OSError ("[Errno 13] Permission denied: '" ++ path ++ "'")), st)
    else
      (Ok tt, {| fs := {| files := <[ path := c ]> (files (fs st));
                          dirs := dirs (fs st);
                          denied := denied (fs st) |};
                 log := log st |}).

(** [os.path.dirname(output_file) or '.'] *)
Definition dirname_or_dot (output_file : string) : string :=
  match dirname output_file with
  | EmptyString => "."
  | d => d
  end.

Definition save_to_csv (data : DataFrame) (output_file : string) : M State bool :=
  try_except
    (makedirs (dirname_or_dot output_file) ;;
     write_file output_file (CsvOf data) ;;
     logger INFO ("Data successfully saved to " ++ output_file) ;;
     ret true)
    (fun e =>
       logger ERROR ("Failed to save data to CSV: " ++ exn_str e) ;;
       ret false).

Definition save_to_json (data : DataFrame) (output_file : string) : M State bool :=
  try_except
    (makedirs (dirname_or_dot output_file) ;;
     write_file output_file (JsonLinesOf data) ;;
     logger INFO ("Data successfully saved to " ++ output_file) ;;
     ret true)
    (fun e =>
       logger ERROR ("Failed to save data to JSON: " ++ exn_str e) ;;
       ret false).

Definition load (data : DataFrame) (output_csv output_json : string) : M State bool :=
  if df_empty data then
    logger WARNING "No data to load" ;;
    ret false
  else
    let* csv_success := save_to_csv data output_csv in
    let* json_success := save_to_json data output_json in
    ret (csv_success && json_success).


(** The process may make the directory of [path] and write [path]. *)
Definition writable (path : string) (fs : FileSystem) : Prop :=
  (dirname_or_dot path ∉ denied fs) /\ (path ∉ denied fs).

(** What a save of the content [c] to [path] does, from the state [st]
    to the state [st'] with the value [b]: it returns [True] exactly when
    the directory and the file may be written, and then the file holds
    [c]; it makes directories and removes none; it logs one record. *)
Definition saved (c : Content) (path : string) (st : State)
    (b : bool) (st' : State) : Prop :=
  (b = true <-> writable path (fs st)) /\
  denied (fs st') = denied (fs st) /\
  files (fs st') = (if b then <[ path := c ]> (files (fs st)) else files (fs st)) /\
  dirs (fs st) ⊆ dirs (fs st') /\
  (b = true -> dirname_or_dot path ∈ dirs (fs st')) /\
  exists r, log st' = (log st ++ [r])%list /\
            level r = (if b then INFO else ERROR).

End DataLoader.

(* ================================================================== *)
(** * [utils/config.py] *)
(* ================================================================== *)

Module Config.

Record GoogleMapsConfig : Type := {
  search_query : string;
  location : string;
  headless : bool;
  scroll_iterations : Z;
  scroll_delay : Z;
  wait_time : Z;
  detail_wait_time : Z;
  result_delay : Z;
  max_retries : Z;
  recovery_wait : Z;
  use_alternative_selectors : bool;
  debug_screenshots : bool;
  debug_dir : string
}.

(** [GoogleMapsConfig(search_query, location)] with the defaults of the
    dataclass. *)
Definition default_google_maps (query loc : string) : GoogleMapsConfig :=
  {| search_query := query; location := loc; headless := false;
     scroll_iterations := 20; scroll_delay := 2; wait_time := 5;
     detail_wait_time := 3; result_delay := 2; max_retries := 3;
     recovery_wait := 5; use_alternative_selectors := true;
     debug_screenshots := false; debug_dir := "debug_screenshots" |}.

Record Config : Type := {
  google_maps : GoogleMapsConfig;
  output_file : string
}.

End Config.

(* ================================================================== *)
(** * [main.py] *)
(* ================================================================== *)

Module Main.
Import PyStr Py Py.Notations Pandas Config.

(** What a Python function hands back when its annotation says [bool]
    and some of its paths end without a [return]. *)
Inductive PyBool : Type :=
| PyNone
| PyTrue
| PyFalse.

(** [bool(v)] *)
Definition py_truthy (v : PyBool) : bool :=
  match v with PyTrue => true | PyNone | PyFalse => false end.

Section Pipeline.
(** The three stages are those of [GoogleMapsExtractor], [DataTransformer]
    and [DataLoader]; the pipeline only sequences them, over whatever
    state [S] they share.  [logger] cannot raise. *)
Context {S : Type}.
Variable extract : GoogleMapsConfig -> M S (list RawRecord).
Variable clean_and_transform : list RawRecord -> M S DataFrame.
Variable load : DataFrame -> string -> string -> M S bool.
Variable logger : Level -> string -> S -> S.

(** The body of the [try] of [run_pipeline]. *)
Definition stages (config : Config) : M S unit :=
  modify (logger INFO "Starting extraction phase") ;;
  let* raw_data := extract (google_maps config) in
  modify (logger INFO ("Extraction complete: "
                       ++ PyFloat.string_of_nat (List.length raw_data)
                       ++ " records extracted")) ;;
  modify (logger INFO "Starting transformation phase") ;;
  let* transformed_data := clean_and_transform raw_data in
  modify (logger INFO ("Transformation complete: "
                       ++ PyFloat.string_of_nat (df_index transformed_data)
                       ++ " records transformed")) ;;
  let* _ := load transformed_data "output/semarang_coffee_shops.csv"
                 "output/semarang_coffee_shops.json" in
  ret tt.

(** [run_pipeline]: the [try] ends without a [return], so the function
    hands back [None] there. *)
Definition run_pipeline (config : Config) : M S PyBool :=
  modify (logger INFO "Starting Google Maps ETL pipeline") ;;
  try_except
    (stages config ;;
     ret PyNone)
    (fun e =>
       modify (logger ERROR ("ETL pipeline failed: " ++ exn_str e)) ;;
       ret PyFalse).

(** [main], from the configuration on (after [parse_arguments],
    [setup_logging] and [create_config]): the argument of [sys.exit].
    The two calls before it can end the process themselves
    ([parse_arguments] on a command line it refuses, [setup_logging]
    when it cannot open its log file); [main] as modelled is the
    process that got past them. *)
Definition main (config : Config) : M S Z :=
  let* success := run_pipeline config in
  ret (if py_truthy success then 0%Z else 1%Z).
End Pipeline.


(** The [dict] that [parse_arguments] returns: the values of the
    command line, under the names of the options. *)
Record Args : Type := {
  arg_search_query : string;
  arg_location : string;
  arg_output_file : string;
  arg_log_level : string;
  arg_headless : bool;
  arg_scroll_iterations : Z;
  arg_scroll_delay : Z
}.

Definition create_config (args : Args) : Config :=
  {| google_maps :=
       {| search_query := arg_search_query args;
          location := arg_location args;
          headless := arg_headless args;
          scroll_iterations := arg_scroll_iterations args;
          scroll_delay := arg_scroll_delay args;
          wait_time := 5; detail_wait_time := 3; result_delay := 2;
          max_retries := 3; recovery_wait := 5;
          use_alternative_selectors := true;
          debug_screenshots := false; debug_dir := "debug_screenshots" |};
     output_file := arg_output_file args |}.

End Main.

(* ================================================================== *)
(** * Selenium: the browser the extractor drives *)
(* ================================================================== *)

Module Selenium.
Import Py.

Inductive By : Type := ID | CSS_SELECTOR | XPATH | TAG_NAME.

Definition Locator : Type := By * string.

(** A [WebElement] is a handle: the session that found it and its id in
    the page of that session. *)
Record WebElement : Type := {
  parent : nat;
  element_id : nat
}.

(** The primitives of the driver the sources call, over the state [W] of
    the world outside the process.  A driver is the number of its
    session.  [wait_presence d t loc] is
    [WebDriverWait(d, t).until(EC.presence_of_element_located(loc))],
    [wait_clickable] the same with [EC.element_to_be_clickable], and
    [send_escape d] is
    [webdriver.ActionChains(d).send_keys(Keys.ESCAPE).perform()].
    Every primitive may raise but [driver_quit]: the [quit] of the Chrome
    driver catches what the shutdown of its session raises and then
    stops the driver process. *)
Class Browser (W : Type) : Type := {
  Chrome : bool -> M W nat;
  driver_get : nat -> string -> M W unit;
  driver_current_url : nat -> M W string;
  driver_find_element : nat -> Locator -> M W WebElement;
  driver_find_elements : nat -> Locator -> M W (list WebElement);
  driver_execute_script : nat -> string -> WebElement -> M W unit;
  driver_back : nat -> M W unit;
  driver_quit : nat -> W -> W;
  wait_presence : nat -> Z -> Locator -> M W WebElement;
  wait_clickable : nat -> Z -> Locator -> M W WebElement;
  send_escape : nat -> M W unit;
  element_click : WebElement -> M W unit;
  element_clear : WebElement -> M W unit;
  element_send_keys : WebElement -> string -> M W unit;
  element_text : WebElement -> M W string;
  element_get_attribute : WebElement -> string -> M W (option string)
}.

(** [Keys.ENTER], the code point U+E007 in UTF-8. *)
Definition Keys_ENTER : string :=
  String (ascii_of_nat 238) (String (ascii_of_nat 128)
    (String (ascii_of_nat 135) EmptyString)).

End Selenium.

(* ================================================================== *)
(** * [utils/extract.py]

    The calls of the logger are left out of this module: they change
    neither a value nor the control flow of the extractor. *)
(* ================================================================== *)

Module GoogleMapsExtractor.
Import PyStr PyRe Py Py.Notations Config Selenium.

(** The attributes of the extractor object. *)
Record Extractor : Type := {
  config : GoogleMapsConfig;
  driver : option nat;
  results : list RawRecord
}.

(** [GoogleMapsExtractor(config)] *)
Definition __init__ (cfg : GoogleMapsConfig) : Extractor :=
  {| config := cfg; driver := None; results := [] |}.

(** The state a method runs in: the extractor object and the world. *)
Record State (W : Type) : Type := {
  self : Extractor;
  world : W
}.
Arguments self {W} _.
Arguments world {W} _.

Section Methods.
Context {W : Type} `{Browser W} `{Unicode}.

Local Abbreviation St := (State W).

(** A primitive of the browser, run on the world. *)
Definition lift {A} (m : M W A) : M St A :=
  fun st =>
    match m (world st) with
    | (r, w') => (r, {| self := self st; world := w' |})
    end.

(** [self.driver.<primitive>(...)]; on [None] the attribute access
    raises [AttributeError].  Its message ends with the name of the
    attribute, which differs from call to call (and, behind
    [WebDriverWait] and [ActionChains], with the version of Selenium):
    the message is kept up to that name. *)
Definition with_driver {A} (f : nat -> M W A) : M St A :=
  fun st =>
    match driver (self st) with
    | Some d => lift (f d) st
    | None =>
        (Raise (AttributeError "'NoneType' object has no attribute"), st)
    end.

Definition self_config : M St GoogleMapsConfig :=
  fun st => (Ok (config (self st)), st).

Definition self_results : M St (list RawRecord) :=
  fun st => (Ok (results (self st)), st).

Definition set_driver (d : nat) : M St unit :=
  modify (fun st =>
    {| self := {| config := config (self st); driver := Some d;
                  results := results (self st) |};
       world := world st |}).

(** [self.results.append(place_data)] *)
Definition results_append (place_data : RawRecord) : M St unit :=
  modify (fun st =>
    {| self := {| config := config (self st); driver := driver (self st);
                  results := results (self st) ++ [place_data] |};
       world := world st |}).

Definition setup_driver : M St unit :=
  let* cfg := self_config in
  let* d := lift (Chrome (headless cfg)) in
  set_driver d.

Definition navigate_to_google_maps : M St unit :=
  with_driver (fun d => driver_get d "https://www.google.com/maps") ;;
  try_except
    (let* continue_button :=
       with_driver (fun d =>
         wait_clickable d 5 (XPATH, "//button[contains(text(), 'Continue')]")) in
     lift (element_click continue_button) ;;
     sleep 2%Z)
    (fun _ => ret tt).

Definition search_box_selectors : list Locator :=
  [ (ID, "searchboxinput");
    (CSS_SELECTOR, "input[name='q']");
    (CSS_SELECTOR, "input.searchboxinput");
    (XPATH, "//input[@id='searchboxinput']") ].

Definition _find_search_box : M St (option WebElement) :=
  let* cfg := self_config in
  for_return search_box_selectors (fun loc =>
    try_except
      (let* search_box :=
         with_driver (fun d => wait_presence d (wait_time cfg) loc) in
       ret (Some search_box))
      (fun _ => ret None)).

Definition search_for_places : M St unit :=
  let* search_box := _find_search_box in
  match search_box with
  | None => raise (Exception "Could not find search box with any selector")
  | Some search_box =>
      let* cfg := self_config in
      let search_query := search_query cfg ++ " in " ++ location cfg in
      lift (element_clear search_box) ;;
      lift (element_send_keys search_box search_query) ;;
      lift (element_send_keys search_box Keys_ENTER) ;;
      sleep 10%Z
  end.

Definition scroll_results : M St unit :=
  try_except
    (let* cfg := self_config in
     let* results_list :=
       with_driver (fun d => wait_presence d 15 (CSS_SELECTOR, "div[role='feed']")) in
     for_each (seq 0 (Z.to_nat (scroll_iterations cfg))) (fun _ =>
       with_driver (fun d =>
         driver_execute_script d
           "arguments[0].scrollTop = arguments[0].scrollHeight" results_list) ;;
       sleep (scroll_delay cfg)))
    (fun e => raise e).

Definition back_button_selectors : list Locator :=
  [ (CSS_SELECTOR, "button[jsaction='pane.place.backToList']");
    (CSS_SELECTOR, "button[aria-label='Back']");
    (CSS_SELECTOR, "button.VfPpkd-icon-LgbsSe");
    (XPATH, "//button[contains(@jsaction, 'backToList')]");
    (XPATH, "//button[contains(@aria-label, 'Back')]") ].

Definition _go_back_to_list : M St bool :=
  let* cfg := self_config in
  let* clicked :=
    for_return back_button_selectors (fun loc =>
      try_except
        (let* button := with_driver (fun d => driver_find_element d loc) in
         lift (element_click button) ;;
         sleep (result_delay cfg) ;;
         ret (Some true))
        (fun _ => ret None)) in
  match clicked with
  | Some b => ret b
  | None =>
      try_except
        (with_driver driver_back ;;
         sleep (result_delay cfg) ;;
         ret true)
        (fun _ => ret false)
  end.

Definition _restart_browser_and_search : M St unit :=
  try_except (with_driver (fun d => modify (driver_quit d))) (fun _ => ret tt) ;;
  setup_driver ;;
  navigate_to_google_maps ;;
  search_for_places ;;
  scroll_results.

(** The loop shared by [_extract_name], [_extract_address] and
    [_extract_rating]: the stripped text of the first locator that
    finds an element with some, or the sentinel. *)
Definition first_text (find : Locator -> M St WebElement)
    (selectors : list Locator) (sentinel : string) : M St string :=
  let* found :=
    for_return selectors (fun loc =>
      try_except
        (let* element := find loc in
         let* text := lift (element_text element) in
         let text := strip text in
         if truthy text then ret (Some text) else ret None)
        (fun _ => ret None)) in
  match found with
  | Some text => ret text
  | None => ret sentinel
  end.

Definition name_selectors : list Locator :=
  [ (CSS_SELECTOR, "h1.DUwDvf");
    (CSS_SELECTOR, "h1.fontHeadlineLarge");
    (XPATH, "//h1[contains(@class, 'fontHeadline')]") ].

Definition _extract_name : M St string :=
  let* cfg := self_config in
  first_text
    (fun loc => with_driver (fun d => wait_presence d (wait_time cfg) loc))
    name_selectors "No name".

Definition address_selectors : list Locator :=
  [ (CSS_SELECTOR, "button[data-item-id='address']");
    (CSS_SELECTOR, "div.QSFF4-text.gm2-body-2");
    (CSS_SELECTOR, "div.W4Efsd span");
    (XPATH, "//button[contains(@data-item-id, 'address')]");
    (XPATH, "//div[contains(@class, 'rogA2c')]");
    (XPATH, "//div[contains(text(), 'Address: ')]/../following-sibling::div") ].

Definition _extract_address : M St string :=
  first_text (fun loc => with_driver (fun d => driver_find_element d loc))
    address_selectors "No address".

Definition rating_selectors : list Locator :=
  [ (CSS_SELECTOR, "div.F7nice span span span");
    (CSS_SELECTOR, "span[aria-label*='stars']");
    (CSS_SELECTOR, "span.MW4etd");
    (XPATH, "//div[contains(@class, 'F7nice')]//span");
    (XPATH, "//span[contains(@aria-label, 'stars')]") ].

Definition _extract_rating : M St string :=
  first_text (fun loc => with_driver (fun d => driver_find_element d loc))
    rating_selectors "No rating".

Definition share_button_selectors : list Locator :=
  [ (XPATH, "//button[contains(@jsaction, 'share')]");
    (XPATH, "//button[contains(@aria-label, 'Share')]");
    (CSS_SELECTOR, "button[jsaction*='share']");
    (CSS_SELECTOR, "button[aria-label*='Share']");
    (CSS_SELECTOR, "button[data-value='Share']") ].

Definition share_link_selectors : list Locator :=
  [ (CSS_SELECTOR, "input[aria-label*='Share']");
    (CSS_SELECTOR, "input.Gou1Yb");
    (XPATH, "//input[contains(@aria-label, 'link')]");
    (CSS_SELECTOR, "input[readonly]") ].

(** [re.search(pattern, text)] on the value of an attribute, which may
    be [None]. *)
Definition re_search {A} (pattern : string -> option A) (text : option string)
  : M St (option A) :=
  match text with
  | Some s => ret (search pattern s)
  | None => raise (TypeError "expected string or bytes-like object")
  end.

(** [f"{lat},{lng}"] *)
Definition coordinates_of (lat lng : string) : string := lat ++ "," ++ lng.

(** Method 2 of [_extract_coordinates]: the share dialog. *)
Definition coordinates_from_share_link : M St (option string) :=
  try_except
    (for_break share_button_selectors (fun loc =>
       try_except
         (let* share_button := with_driver (fun d => wait_clickable d 3 loc) in
          lift (element_click share_button) ;;
          sleep 1%Z ;;
          ret true)
         (fun _ => ret false)) ;;
     let* found :=
       for_return share_link_selectors (fun loc =>
         try_except
           (let* share_input := with_driver (fun d => wait_presence d 3 loc) in
            let* share_url := lift (element_get_attribute share_input "value") in
            let* coords_match := re_search bang_pattern share_url in
            match coords_match with
            | Some (lat, lng) =>
                with_driver send_escape ;;
                ret (Some (coordinates_of lat lng))
            | None =>
                let* coords_match := re_search at_pattern share_url in
                match coords_match with
                | Some (lat, lng) =>
                    with_driver send_escape ;;
                    ret (Some (coordinates_of lat lng))
                | None =>
                    with_driver send_escape ;;
                    ret None
                end
            end)
           (fun _ => ret None)) in
     match found with
     | Some coords => ret (Some coords)
     | None =>
         try_except (with_driver send_escape) (fun _ => ret tt) ;;
         ret None
     end)
    (fun _ => ret None).

(** Method 3 of [_extract_coordinates]: the script tags. *)
Definition coordinates_from_scripts : M St (option string) :=
  try_except
    (let* script_tags :=
       with_driver (fun d => driver_find_elements d (TAG_NAME, "script")) in
     for_return script_tags (fun script =>
       try_except
         (let* script_content := lift (element_get_attribute script "innerHTML") in
          let* coords_match := re_search json_pattern script_content in
          match coords_match with
          | Some (lat, lng) => ret (Some (coordinates_of lat lng))
          | None => ret None
          end)
         (fun _ => ret None)))
    (fun _ => ret None).

(** [lat and lng], for two attribute values. *)
Definition both_truthy (lat lng : option string) : option (string * string) :=
  match lat, lng with
  | Some a, Some b => if truthy a && truthy b then Some (a, b) else None
  | _, _ => None
  end.

(** [value == s], for the value of an attribute. *)
Definition attribute_is (value : option string) (s : string) : bool :=
  match value with
  | Some v => String.eqb v s
  | None => false
  end.

(** The last method of [_extract_coordinates]: the meta tags. *)
Definition coordinates_from_meta : M St (option string) :=
  try_except
    (let* meta_tags :=
       with_driver (fun d => driver_find_elements d (TAG_NAME, "meta")) in
     for_return meta_tags (fun meta =>
       try_except
         (let* property := lift (element_get_attribute meta "property") in
          if attribute_is property "og:latitude" then
            let* lat := lift (element_get_attribute meta "content") in
            let* lng_meta :=
              with_driver (fun d =>
                driver_find_element d
                  (CSS_SELECTOR, "meta[property='og:longitude']")) in
            let* lng := lift (element_get_attribute lng_meta "content") in
            match both_truthy lat lng with
            | Some (lat, lng) => ret (Some (coordinates_of lat lng))
            | None => ret None
            end
          else ret None)
         (fun _ => ret None)))
    (fun _ => ret None).

Definition _extract_coordinates : M St string :=
  let* current_url := with_driver driver_current_url in
  match search at_pattern current_url with
  | Some (lat, lng) => ret (coordinates_of lat lng)
  | None =>
      let* shared := coordinates_from_share_link in
      match shared with
      | Some coords => ret coords
      | None =>
          let* scripted := coordinates_from_scripts in
          match scripted with
          | Some coords => ret coords
          | None =>
              let* meta := coordinates_from_meta in
              match meta with
              | Some coords => ret coords
              | None => ret "No coordinates"
              end
          end
      end
  end.



(** The first part of the [try] of [_extract_single_place]: the card is
    opened and its details are read into the record. *)
Definition place_details (card : WebElement) : M St RawRecord :=
  let* cfg := self_config in
  with_driver (fun d =>
    driver_execute_script d "arguments[0].scrollIntoView();" card) ;;
  sleep 1%Z ;;
  lift (element_click card) ;;
  sleep (detail_wait_time cfg) ;;
  let* name := _extract_name in
  let* address := _extract_address in
  let* rating := _extract_rating in
  let* coordinates := _extract_coordinates in
  ret [ ("name", name); ("address", address);
        ("rating", rating); ("coordinates", coordinates) ].

Definition _extract_single_place (idx : nat) (card : WebElement)
  : M St (option RawRecord) :=
  try_except
    (let* place_data := place_details card in
     let* success := _go_back_to_list in
     (if negb success then _restart_browser_and_search else ret tt) ;;
     ret (Some place_data))
    (fun _ =>
       try_except
         (let* success := _go_back_to_list in
          if negb success then _restart_browser_and_search else ret tt)
         (fun _ => _restart_browser_and_search) ;;
       ret None).

Definition alternative_selectors : list string :=
  [ "div.DxyBCb.kA9KIf"; "div[role='article']";
    "div.V0h1Ob-haAclf"; "div.bfdHYd" ].

(** The loop over the alternative selectors: [cards] is what the last
    selector tried has found. *)
Fixpoint find_cards (selectors : list string) : M St (list WebElement) :=
  match selectors with
  | [] => ret []
  | selector :: rest =>
      let* cards :=
        with_driver (fun d => driver_find_elements d (CSS_SELECTOR, selector)) in
      match cards with
      | [] => find_cards rest
      | _ :: _ => ret cards
      end
  end.

(** [if place_data:] a record is falsy when it is [None] or an empty
    [dict]. *)
Definition record_truthy (place_data : option RawRecord) : option RawRecord :=
  match place_data with
  | Some ((_ :: _) as r) => Some r
  | _ => None
  end.

(** The loop of [extract_place_cards] over [enumerate(cards)], from the
    index [idx] on, with the local list [results]. *)
Fixpoint card_loop (idx : nat) (cards : list WebElement)
    (results : list RawRecord) : M St (list RawRecord) :=
  match cards with
  | [] => ret results
  | card :: rest =>
      let* results :=
        try_except
          (let* place_data := _extract_single_place idx card in
           match record_truthy place_data with
           | Some place_data =>
               results_append place_data ;;
               ret (results ++ [place_data])%list
           | None => ret results
           end)
          (fun _ => ret results) in
      card_loop (S idx) rest results
  end.

Definition extract_place_cards : M St (list RawRecord) :=
  let* cards :=
    with_driver (fun d => driver_find_elements d (CSS_SELECTOR, "div.Nv2PK")) in
  let* cards :=
    match cards with
    | [] => find_cards alternative_selectors
    | _ :: _ => ret cards
    end in
  match cards with
  | [] => ret []
  | _ :: _ => card_loop 0 cards []
  end.

Definition close : M St unit :=
  fun st =>
    match driver (self st) with
    | Some d => lift (modify (driver_quit d)) st
    | None => (Ok tt, st)
    end.

(** The body of the [try] of [extract]. *)
Definition extraction : M St (list RawRecord) :=
  setup_driver ;;
  navigate_to_google_maps ;;
  search_for_places ;;
  scroll_results ;;
  extract_place_cards.

Definition extract : M St (list RawRecord) :=
  try_finally
    (try_except
       extraction
       (fun e =>
          let* collected := self_results in
          match collected with
          | _ :: _ => ret collected
          | [] => raise e
          end))
    close.

(** [GoogleMapsExtractor.load]: the class has no method [save_to_csv]
    (nor [save_to_json]), so looking it up on [self] raises. *)
Definition load (data : Pandas.DataFrame) (output_csv output_json : string) : M St bool :=
  if Pandas.df_empty data then ret false
  else
    raise (AttributeError
             "'GoogleMapsExtractor' object has no attribute 'save_to_csv'").

(** [m] leaves [self.results] as it found it, however it ends; and
    [m] does so when it raises. *)
Definition keeps_results {A} (m : M St A) : Prop :=
  forall st r st', m st = (r, st') -> results (self st') = results (self st).

Definition raising_keeps_results {A} (m : M St A) : Prop :=
  forall st e st',
    m st = (Raise e, st') -> results (self st') = results (self st).
End Methods.

End GoogleMapsExtractor.

(* ================================================================== *)
(** * A scripted browser, for concrete runs

    A site is a fixed page: its address, and its elements with the
    locators that find them, their text and their attributes.  The
    scripted browser serves that page to every session, refuses handles
    of another or a closed session (they are stale), and keeps a trace of
    what the extractor asked of it. *)
(* ================================================================== *)

Module Scripted.
Import PyStr Py Py.Notations Config Selenium GoogleMapsExtractor.

Record Element : Type := {
  found_by : list Locator;
  text : string;
  attributes : list (string * string)
}.

Record Site : Type := {
  url : string;
  dom : list Element;
  chrome_starts : bool;
  back_works : bool
}.

Inductive Event : Type :=
| Started (session : nat)
| Closed (session : nat)
| Found (session : nat) (loc : Locator) (elements : list WebElement)
| Executed (session : nat) (script : string) (element : WebElement)
| Clicked (element : WebElement)
| WentBack (session : nat).

Record World : Type := {
  site : Site;
  sessions : nat;
  live : list nat;
  trace : list Event
}.

Definition by_eqb (a b : By) : bool :=
  match a, b with
  | ID, ID | CSS_SELECTOR, CSS_SELECTOR | XPATH, XPATH | TAG_NAME, TAG_NAME => true
  | _, _ => false
  end.

Definition locator_eqb (a b : Locator) : bool :=
  by_eqb (fst a) (fst b) && String.eqb (snd a) (snd b).

Definition element_eqb (a b : WebElement) : bool :=
  Nat.eqb (parent a) (parent b) && Nat.eqb (element_id a) (element_id b).

Definition is_live (d : nat) (w : World) : bool := existsb (Nat.eqb d) (live w).

Definition record (e : Event) (w : World) : World :=
  {| site := site w; sessions := sessions w; live := live w;
     trace := trace w ++ [e] |}.

(** The handles, in the session [d], of the elements that [loc] finds. *)
Fixpoint handles (d : nat) (loc : Locator) (i : nat) (els : list Element)
  : list WebElement :=
  match els with
  | [] => []
  | el :: rest =>
      if existsb (locator_eqb loc) (found_by el)
      then {| parent := d; element_id := i |} :: handles d loc (S i) rest
      else handles d loc (S i) rest
  end.

Definition stale {A} : M World A :=
  raise (WebDriverException "stale element reference").

Definition no_session {A} : M World A :=
  raise (WebDriverException "invalid session id").

(** A primitive of the live session [d]. *)
Definition on_session {A} (d : nat) (m : M World A) : M World A :=
  fun w => if is_live d w then m w else no_session w.

(** A primitive of the element [e]: of a live session and in the page. *)
Definition on_element {A} (e : WebElement) (k : Element -> M World A) : M World A :=
  fun w =>
    if is_live (parent e) w then
      match nth_error (dom (site w)) (element_id e) with
      | Some el => k el w
      | None => stale w
      end
    else stale w.

Definition find_one (d : nat) (loc : Locator) : M World WebElement :=
  on_session d (fun w =>
    match handles d loc 0 (dom (site w)) with
    | e :: _ => (Ok e, w)
    | [] => (Raise (WebDriverException "no such element"), w)
    end).

#[export] Instance scripted_browser : Browser World := {
  Chrome _ := fun w =>
    if chrome_starts (site w) then
      (Ok (sessions w),
       record (Started (sessions w))
         {| site := site w; sessions := S (sessions w);
            live := sessions w :: live w; trace := trace w |})
    else (Raise (WebDriverException "session not created"), w);
  driver_get d _ := on_session d (ret tt);
  driver_current_url d := on_session d (fun w => (Ok (url (site w)), w));
  driver_find_element := find_one;
  driver_find_elements d loc := on_session d (fun w =>
    let found := handles d loc 0 (dom (site w)) in
    (Ok found, record (Found d loc found) w));
  driver_execute_script d script e := on_session d (fun w =>
    if Nat.eqb (parent e) d
    then (Ok tt, record (Executed d script e) w)
    else stale (record (Executed d script e) w));
  driver_back d := on_session d (fun w =>
    if back_works (site w) then (Ok tt, record (WentBack d) w)
    else (Raise (WebDriverException "cannot navigate back"), w));
  driver_quit d := fun w =>
    record (Closed d)
      {| site := site w; sessions := sessions w;
         live := List.filter (fun x => negb (Nat.eqb x d)) (live w);
         trace := trace w |};
  wait_presence d _ loc := find_one d loc;
  wait_clickable d _ loc := find_one d loc;
  send_escape d := on_session d (ret tt);
  element_click e := on_element e (fun _ w => (Ok tt, record (Clicked e) w));
  element_clear e := on_element e (fun _ => ret tt);
  element_send_keys e _ := on_element e (fun _ => ret tt);
  element_text e := on_element e (fun el => ret (text el));
  element_get_attribute e name := on_element e (fun el =>
    ret (assoc name (attributes el)))
}.

(** The world before the first session. *)
Definition fresh (s : Site) : World :=
  {| site := s; sessions := 0; live := []; trace := [] |}.

(** A new extractor in front of the site [s]. *)
Definition start (cfg : GoogleMapsConfig) (s : Site) : State World :=
  {| self := __init__ cfg; world := fresh s |}.

(** ** Sites *)

Definition cfg : GoogleMapsConfig :=
  {| search_query := "coffee shop"; location := "Semarang, Indonesia";
     headless := true; scroll_iterations := 2; scroll_delay := 0;
     wait_time := 5; detail_wait_time := 3; result_delay := 2;
     max_retries := 3; recovery_wait := 5; use_alternative_selectors := true;
     debug_screenshots := false; debug_dir := "debug_screenshots" |}.

Definition search_box : Element :=
  {| found_by := [(ID, "searchboxinput")]; text := ""; attributes := [] |}.

Definition feed : Element :=
  {| found_by := [(CSS_SELECTOR, "div[role='feed']")]; text := ""; attributes := [] |}.

Definition card : Element :=
  {| found_by := [(CSS_SELECTOR, "div.Nv2PK")]; text := ""; attributes := [] |}.

Definition heading (name : string) : Element :=
  {| found_by := [(CSS_SELECTOR, "h1.DUwDvf")]; text := name; attributes := [] |}.

Definition address_button (a : string) : Element :=
  {| found_by := [(CSS_SELECTOR, "button[data-item-id='address']")];
     text := a; attributes := [] |}.

Definition back_button : Element :=
  {| found_by := [(CSS_SELECTOR, "button[aria-label='Back']")];
     text := ""; attributes := [] |}.



(** Two cards; the address of the page carries the coordinates; there is
    no way back to the list, neither a button nor the history. *)
Definition dead_end_site : Site :=
  {| url := "https://www.google.com/maps/place/Kopi/@-6.9667,110.4167,17z";
     dom := [search_box; feed; card; card; heading "  Kopi Satu ";
             address_button "Jl. Pandanaran 1"];
     chrome_starts := true; back_works := false |}.

(** The same page with a working back button. *)
Definition plain_site : Site :=
  {| url := "https://www.google.com/maps/place/Kopi/@-6.9667,110.4167,17z";
     dom := [search_box; feed; card; card; heading "  Kopi Satu ";
             address_button "Jl. Pandanaran 1"; back_button];
     chrome_starts := true; back_works := true |}.


(** A page without a search box. *)
Definition no_search_box_site : Site :=
  {| url := "https://www.google.com/maps";
     dom := [feed; card];
     chrome_starts := true; back_works := true |}.

(** The state in which the cards of a site are looked at: the session
    is started and the search is done. *)
Definition searched (s : Site) : State World :=
  snd ((setup_driver ;; navigate_to_google_maps ;;
        search_for_places ;; scroll_results) (start cfg s)).

(** The two cards of the sites above, as the first session finds them,
    and the record that their page gives. *)
Definition first_card : WebElement := {| parent := 0; element_id := 2 |}.
Definition second_card : WebElement := {| parent := 0; element_id := 3 |}.

Definition kopi : RawRecord :=
  [ ("name", "Kopi Satu"); ("address", "Jl. Pandanaran 1");
    ("rating", "No rating"); ("coordinates", "-6.9667,110.4167") ].

(** A record of an earlier call. *)
Definition earlier : RawRecord :=
  [ ("name", "Warung"); ("address", "No address");
    ("rating", "4.5"); ("coordinates", "No coordinates") ].

(** The cards that were scrolled into view, in the order of the trace,
    each with the session that was asked to. *)
Fixpoint opened (t : list Event) : list (nat * WebElement) :=
  match t with
  | [] => []
  | Executed d "arguments[0].scrollIntoView();" e :: rest => (d, e) :: opened rest
  | _ :: rest => opened rest
  end.

(** The lists of cards that were fetched, each with its session. *)
Fixpoint fetched_lists (t : list Event) : list (nat * list WebElement) :=
  match t with
  | [] => []
  | Found d (CSS_SELECTOR, _) es :: rest => (d, es) :: fetched_lists rest
  | _ :: rest => fetched_lists rest
  end.

(** The sessions that were started. *)
Fixpoint started (t : list Event) : list nat :=
  match t with
  | [] => []
  | Started d :: rest => d :: started rest
  | _ :: rest => started rest
  end.

(** Every card that is opened was found by the session that opens it
    since that session started: after a restart, the cards are those of
    a list fetched anew. [fetched] are the handles found since the last
    start. *)
Fixpoint refetched (fetched : list WebElement) (t : list Event) : bool :=
  match t with
  | [] => true
  | Started _ :: rest => refetched [] rest
  | Found _ _ es :: rest => refetched (fetched ++ es) rest
  | Executed _ "arguments[0].scrollIntoView();" e :: rest =>
      existsb (element_eqb e) fetched && refetched fetched rest
  | _ :: rest => refetched fetched rest
  end.


(** ** More sites and states *)


(** A page whose search gives no listing. *)
Definition no_cards_site : Site :=
  {| url := "https://www.google.com/maps/search/coffee";
     dom := [search_box; feed];
     chrome_starts := true; back_works := true |}.

(** A listing without its feed and without a way back: a search can be
    made, but the results cannot be scrolled. *)
Definition no_feed_site : Site :=
  {| url := "https://www.google.com/maps/place/Kopi/@-6.9667,110.4167,17z";
     dom := [search_box; card; heading "Kopi Satu"];
     chrome_starts := true; back_works := false |}.


(** The configuration [cfg] with a negative delay between scrolls. *)
Definition hasty_cfg : GoogleMapsConfig :=
  {| search_query := "coffee shop"; location := "Semarang, Indonesia";
     headless := true; scroll_iterations := 2; scroll_delay := -1;
     wait_time := 5; detail_wait_time := 3; result_delay := 2;
     max_retries := 3; recovery_wait := 5; use_alternative_selectors := true;
     debug_screenshots := false; debug_dir := "debug_screenshots" |}.

(** The state in which the results are scrolled: the session is started
    and the search is done. *)
Definition searching (c : GoogleMapsConfig) (s : Site) : State World :=
  snd ((setup_driver ;; navigate_to_google_maps ;; search_for_places) (start c s)).

(** The list of results of the sites, as the first session finds it. *)
Definition results_list : WebElement := {| parent := 0; element_id := 1 |}.

End Scripted.

(* ================================================================== *)
(** * A journal of the browser sessions

    Any browser, with a journal of the sessions it opened
    ([webdriver.Chrome(...)] returned) and of those that were quit. *)
(* ================================================================== *)

Module Journal.
Import Py Py.Notations Selenium GoogleMapsExtractor.

Inductive SessionEvent : Type :=
| SessionOpened (session : nat)
| SessionQuit (session : nat).

(** The sessions that are open after the events [events], when [open]
    were open before: opened, and not quit since. *)
Definition after_event (open : list nat) (e : SessionEvent) : list nat :=
  match e with
  | SessionOpened d => d :: open
  | SessionQuit d => List.filter (fun x => negb (Nat.eqb x d)) open
  end.

Definition open_sessions (events : list SessionEvent) : list nat :=
  fold_left after_event events [].

Section Journaling.
Context {W : Type} `{Browser W}.

(** A primitive that opens and quits no session: the journal stays. *)
Definition unrecorded {A} (m : M W A) : M (W * list SessionEvent) A :=
  fun wj =>
    match m (fst wj) with
    | (r, w') => (r, (w', snd wj))
    end.

#[export] Instance journaling : Browser (W * list SessionEvent) := {
  Chrome headless := fun wj =>
    match Chrome headless (fst wj) with
    | (Ok d, w') => (Ok d, (w', (snd wj ++ [SessionOpened d])%list))
    | (Raise e, w') => (Raise e, (w', snd wj))
    end;
  driver_get d url := unrecorded (driver_get d url);
  driver_current_url d := unrecorded (driver_current_url d);
  driver_find_element d loc := unrecorded (driver_find_element d loc);
  driver_find_elements d loc := unrecorded (driver_find_elements d loc);
  driver_execute_script d script e := unrecorded (driver_execute_script d script e);
  driver_back d := unrecorded (driver_back d);
  driver_quit d := fun wj => (driver_quit d (fst wj), (snd wj ++ [SessionQuit d])%list);
  wait_presence d t loc := unrecorded (wait_presence d t loc);
  wait_clickable d t loc := unrecorded (wait_clickable d t loc);
  send_escape d := unrecorded (send_escape d);
  element_click e := unrecorded (element_click e);
  element_clear e := unrecorded (element_clear e);
  element_send_keys e keys := unrecorded (element_send_keys e keys);
  element_text e := unrecorded (element_text e);
  element_get_attribute e name := unrecorded (element_get_attribute e name)
}.

(** The journal in the state of a method. *)
Definition journal (st : State (W * list SessionEvent)) : list SessionEvent :=
  snd (world st).

(** Every open session is the one that [self.driver] holds. *)
Definition driver_holds_open (st : State (W * list SessionEvent)) : Prop :=
  forall d, In d (open_sessions (journal st)) -> driver (self st) = Some d.

(** [m] opens and quits no session and leaves [self.driver] alone. *)
Definition quiet {A} (m : M (State (W * list SessionEvent)) A) : Prop :=
  forall st r st',
    m st = (r, st') ->
    journal st' = journal st /\ driver (self st') = driver (self st).

(** No session is open. *)
Definition all_quit (st : State (W * list SessionEvent)) : Prop :=
  open_sessions (journal st) = [].

(** [m] keeps every open session in [self.driver]. *)
Definition tidy {A} (m : M (State (W * list SessionEvent)) A) : Prop :=
  forall st r st',
    driver_holds_open st -> m st = (r, st') -> driver_holds_open st'.

End Journaling.
End Journal.


(* ================================================================== *)
(** * A whole process, for concrete runs

    The three stages on one state: the scripted browser, the file
    system and the log.  Each stage runs on its part of the state, with
    a new extractor object as [run_pipeline] makes one.

    The process is taken from the call of [run_pipeline] on:
    [parse_arguments] and [setup_logging] have run.  [log] holds the
    records that [run_pipeline], the transformer and the loader hand to
    their loggers (the extractor's are left out, and which records are
    printed is the choice of [setup_logging]).  [disk] holds what the
    loader writes and nothing else: the extractor is given no access to
    it, so what the browser and its driver put on the disk, and the
    log file, are outside the model. *)
(* ================================================================== *)

Module Process.
Import PyStr Py Py.Notations Pandas Config.

Section Text.
Context `{Unicode}.

Record State : Type := {
  web : Scripted.World;
  disk : DataLoader.FileSystem;
  log : list LogRecord
}.

Definition logger (lv : Level) (msg : string) (p : State) : State :=
  {| web := web p; disk := disk p;
     log := (log p ++ [{| level := lv; message := msg |}])%list |}.

(** [GoogleMapsExtractor(config).extract()] *)
Definition extract (cfg : GoogleMapsConfig) : M State (list RawRecord) :=
  fun p =>
    match GoogleMapsExtractor.extract (H := Scripted.scripted_browser)
            {| GoogleMapsExtractor.self := GoogleMapsExtractor.__init__ cfg;
               GoogleMapsExtractor.world := web p |} with
    | (r, st) =>
        (r, {| web := GoogleMapsExtractor.world st; disk := disk p; log := log p |})
    end.

(** [series.replace(to_replace, None)] as pandas 2 does it. *)
Definition replace_with_None (to_replace : string) (column : list cell) : list cell :=
  map (fun v => match v with
                | CStr s => if String.eqb s to_replace then CNone else v
                | _ => v
                end) column.

(** [DataTransformer().clean_and_transform(raw_data)], at the time
    [now]. *)
Definition clean_and_transform (now : string) (raw_data : list RawRecord)
  : M State DataFrame :=
  fun p =>
    match DataTransformer.clean_and_transform replace_with_None now raw_data
            {| DataTransformer.frame := empty_frame;
               DataTransformer.log := log p |} with
    | (r, st) =>
        (r, {| web := web p; disk := disk p; log := DataTransformer.log st |})
    end.

(** [DataLoader().load(data, output_csv, output_json)] *)
Definition load (data : DataFrame) (output_csv output_json : string)
  : M State bool :=
  fun p =>
    match DataLoader.load data output_csv output_json
            {| DataLoader.fs := disk p; DataLoader.log := log p |} with
    | (r, st) =>
        (r, {| web := web p; disk := DataLoader.fs st; log := DataLoader.log st |})
    end.

(** [main] of the process. *)
Definition main (now : string) (config : Config.Config) : M State Z :=
  Main.main extract (clean_and_transform now) load logger config.

(** The process in front of the site [s], with an empty disk. *)
Definition boot (s : Scripted.Site) : State :=
  {| web := Scripted.fresh s;
     disk := {| DataLoader.files := ∅; DataLoader.dirs := ∅;
                DataLoader.denied := ∅ |};
     log := [] |}.

Definition config : Config.Config :=
  {| google_maps := Scripted.cfg; output_file := "coffee_shops_data.csv" |}.

End Text.

End Process.

(* ================================================================== *)
(** * The words of the design document *)
(* ================================================================== *)

Module Design.
Import PyStr PyRe PyFloat Py.

Section Text.
Context `{Unicode}.

Definition starts_with_digit (s : string) : bool :=
  match leading_digit s with
  | Some _ => true
  | None => false
  end.

(** A point followed by a digit. *)
Definition starts_with_fraction (s : string) : bool :=
  match s with
  | String "." s' => starts_with_digit s'
  | _ => false
  end.

(** "The first decimal number in the rating string": [m] stands in [s]
    after a text without digits, it is the digits [i] alone or [i], a
    point and the digits [f], and it is as long as it can be. *)
Definition first_decimal_number (s m i f : string) : Prop :=
  exists pre post,
    s = pre ++ m ++ post /\ no_digit pre = true /\
    digits_only i = true /\ i <> "" /\ digits_only f = true /\
    starts_with_digit post = false /\
    ((f = "" /\ m = i /\ starts_with_fraction post = false) \/
     (f <> "" /\ m = i ++ "." ++ f)).

(** "<float>": a decimal number with a point, as the patterns of the
    extractor read it, [-?\d+\.\d+] from end to end. *)
Definition is_decimal (s : string) : bool :=
  match signed_decimal s with
  | Some (_, EmptyString) => true
  | _ => false
  end.

(** "<float>,<float>" *)
Definition is_decimal_pair (s : string) : bool :=
  match split "," s with
  | [lat; lng] => is_decimal lat && is_decimal lng
  | _ => false
  end.

(** "[coordinates] is either the sentinel or matches <float>,<float>" *)
Definition well_formed_coordinates (s : string) : bool :=
  String.eqb s "No coordinates" || is_decimal_pair s.

End Text.

(** The float that the ASCII digits [i.f] denote. *)
Definition decimal_value (i f : string) : float :=
  of_decimal false (i ++ f) (Z.of_nat (String.length i)).

(** What the meta tags give: two texts, neither empty, joined by a
    comma. *)
Definition joined_texts (c : string) : Prop :=
  exists lat lng,
    truthy lat = true /\ truthy lng = true /\ c = lat ++ "," ++ lng.

(** "Extracted text or that field's sentinel": the sentinel, or a text
    that is not empty. *)
Definition text_or_sentinel (sentinel v : string) : Prop :=
  v = sentinel \/ truthy v = true.

(** "Every RawRecord carries all four raw fields": these keys and no
    other, each with a text or its sentinel. *)
Definition carries_all_fields (r : RawRecord) : Prop :=
  keys r = ["name"; "address"; "rating"; "coordinates"] /\
  (exists v, assoc "name" r = Some v /\ text_or_sentinel "No name" v) /\
  (exists v, assoc "address" r = Some v /\ text_or_sentinel "No address" v) /\
  (exists v, assoc "rating" r = Some v /\ text_or_sentinel "No rating" v) /\
  (exists v, assoc "coordinates" r = Some v /\ text_or_sentinel "No coordinates" v).

(** ** A state for the transformer *)

(** The transformer before its first call. *)
Definition at_start : DataTransformer.State :=
  {| DataTransformer.frame := Pandas.empty_frame;
     DataTransformer.log := [] |}.

End Design.

(* ================================================================== *)
(** * Facts about strings, patterns and floats *)
(* ================================================================== *)

Module StringFacts.
Import PyStr PyRe PyFloat Design.


Lemma append_empty_r (s : string) : s ++ "" = s.
Proof. induction s as [|c s IH]; simpl; [reflexivity | now rewrite IH]. Qed.

Lemma append_assoc (a b c : string) : (a ++ b) ++ c = a ++ b ++ c.
Proof. induction a as [|x a IH]; simpl; [reflexivity | now rewrite IH]. Qed.

Lemma length_append (a b : string) :
  String.length (a ++ b) = (String.length a + String.length b)%nat.
Proof. induction a as [|x a IH]; simpl; [reflexivity | now rewrite IH]. Qed.

(** ** Code points *)

(** A text that does not go on with a byte from 128 to 191: a code
    point ends where it starts. *)
Lemma continuation_split (k : nat) (s : string) :
  continuation k s ++ after_continuation k s = s.
Proof.
  revert s. induction k as [|k IH]; intros [|c s]; simpl; try reflexivity.
  destruct (is_continuation c); simpl; [now rewrite IH | reflexivity].
Qed.

Lemma length_continuation (k : nat) (s : string) :
  (String.length (continuation k s) <= k)%nat.
Proof.
  revert s. induction k as [|k IH]; intros [|c s]; simpl; try lia.
  destruct (is_continuation c); simpl; [specialize (IH s) |]; lia.
Qed.

Lemma continuation_all (k : nat) (s : string) :
  all_continuation (continuation k s) = true.
Proof.
  revert s. induction k as [|k IH]; intros [|c s]; simpl; try reflexivity.
  destruct (is_continuation c) eqn:E; simpl; [now rewrite E, IH | reflexivity].
Qed.

Lemma length_after_continuation (k : nat) (s : string) :
  (String.length (after_continuation k s) <= String.length s)%nat.
Proof.
  revert s. induction k as [|k IH]; intros [|c s]; simpl; try lia.
  destruct (is_continuation c); simpl; [specialize (IH s) |]; lia.
Qed.

(** The bytes [t] that follow the first byte of a whole code point are
    found again whatever comes after them. *)
Lemma continuation_app (t x : string) :
  all_continuation t = true ->
  continuation (String.length t) (t ++ x) = t /\
  after_continuation (String.length t) (t ++ x) = x.
Proof.
  induction t as [|c t IH]; simpl; intros Ht.
  - destruct x; auto.
  - apply andb_true_iff in Ht as [Hc Ht]. rewrite Hc.
    destruct (IH Ht) as [-> ->]. auto.
Qed.

(** What comes after a text at a boundary does not change its first
    code point. *)
Lemma continuation_boundary (k : nat) (a s : string) :
  at_boundary s = true ->
  continuation k (a ++ s) = continuation k a.
Proof.
  intros Hs. revert a. induction k as [|k IH]; intros a.
  - destruct (a ++ s), a; reflexivity.
  - destruct a as [|c a]; cbn [String.append continuation].
    + destruct s as [|x s]; [reflexivity|]. cbn in Hs.
      apply negb_true_iff in Hs. now rewrite Hs.
    + destruct (is_continuation c); [now rewrite IH | reflexivity].
Qed.

(** Induction over a text, code point by code point. *)
Lemma text_ind (P : string -> Prop) :
  P "" ->
  (forall c s, P (after_continuation (tail_length c) s) -> P (String c s)) ->
  forall s, P s.
Proof.
  intros Hnil Hcons s.
  remember (String.length s) as n eqn:Hn.
  revert s Hn. induction n as [n IH] using lt_wf_ind. intros [|c s] Hn.
  - exact Hnil.
  - apply Hcons. apply (IH (String.length (after_continuation (tail_length c) s)));
      [|reflexivity].
    pose proof (length_after_continuation (tail_length c) s). simpl in Hn. lia.
Qed.


Lemma all_digits_app (a b : string) :
  all_digits (a ++ b) = all_digits a && all_digits b.
Proof.
  induction a as [|x a IH]; simpl; [reflexivity|].
  rewrite IH. now rewrite andb_assoc.
Qed.

Lemma digit_not_space (c : ascii) : is_digit c = true -> is_space c = false.
Proof.
  destruct c as [[] [] [] [] [] [] [] []]; simpl; intros E;
    try discriminate E; reflexivity.
Qed.

Lemma digit_not_underscore (c : ascii) : is_digit c = true -> Ascii.eqb c "_" = false.
Proof.
  destruct c as [[] [] [] [] [] [] [] []]; simpl; intros E;
    try discriminate E; reflexivity.
Qed.

Lemma digit_lower (c : ascii) : is_digit c = true -> lower_char c = c.
Proof.
  destruct c as [[] [] [] [] [] [] [] []]; simpl; intros E;
    try discriminate E; reflexivity.
Qed.

Lemma digit_is_ascii (c : ascii) :
  is_digit c = true -> (nat_of_ascii c <? 128)%nat = true /\ tail_length c = 0%nat.
Proof.
  destruct c as [[] [] [] [] [] [] [] []]; simpl; intros E;
    try discriminate E; split; reflexivity.
Qed.

(** ** [float] of a decimal number *)

Lemma no_space_app (a b : string) : no_space (a ++ b) = no_space a && no_space b.
Proof.
  induction a as [|x a IH]; simpl; [reflexivity|].
  rewrite IH. now rewrite andb_assoc.
Qed.

Lemma digits_no_space (d : string) : all_digits d = true -> no_space d = true.
Proof.
  induction d as [|c d IH]; simpl; [reflexivity|].
  intros [Hc Hd]%andb_true_iff. now rewrite (digit_not_space c Hc), IH.
Qed.

Lemma c_space_is_space (c : ascii) : is_space c = false -> is_c_space c = false.
Proof.
  destruct c as [[] [] [] [] [] [] [] []]; simpl; intros E;
    try discriminate E; reflexivity.
Qed.

Lemma rstrip_no_space (s : string) :
  no_space s = true -> rstrip_of is_c_space s = s.
Proof.
  induction s as [|c s IH]; simpl; [reflexivity|].
  intros [Hc Hs]%andb_true_iff. rewrite IH by assumption.
  apply negb_true_iff, c_space_is_space in Hc. now rewrite Hc.
Qed.

Lemma strip_no_space (s : string) :
  no_space s = true -> strip_of is_c_space s = s.
Proof.
  intros Hs. unfold strip_of.
  destruct s as [|c s]; [reflexivity|].
  pose proof Hs as Hs'. simpl in Hs'.
  apply andb_true_iff in Hs' as [Hc _].
  apply negb_true_iff, c_space_is_space in Hc.
  cbn [lstrip_of]. rewrite Hc. now apply rstrip_no_space.
Qed.

Lemma digitpart_tail_app (d r : string) :
  all_digits d = true ->
  starts_with_ascii_digit r = false ->
  match r with String "_" _ => False | _ => True end ->
  digitpart_tail (d ++ r) = (d, r).
Proof.
  induction d as [|c d IH]; simpl; intros Hd Hr Hu.
  - destruct r as [|x r]; [reflexivity|]. simpl in *. rewrite Hr.
    destruct (Ascii.eqb_spec x "_") as [->|Hx]; [contradiction | reflexivity].
  - apply andb_true_iff in Hd as [Hc Hd]. rewrite Hc, IH; auto.
Qed.

Lemma digitpart_app (d r : string) :
  all_digits d = true -> d <> "" ->
  starts_with_ascii_digit r = false ->
  match r with String "_" _ => False | _ => True end ->
  digitpart (d ++ r) = Some (d, r).
Proof.
  intros Hd Hne Hr Hu. destruct d as [|c d]; [congruence|].
  simpl in *. apply andb_true_iff in Hd as [Hc Hd].
  rewrite Hc, digitpart_tail_app; auto.
Qed.

Lemma digitpart_digits (d : string) :
  all_digits d = true -> d <> "" -> digitpart d = Some (d, "").
Proof.
  intros Hd Hne. rewrite <- (append_empty_r d) at 1.
  now apply digitpart_app.
Qed.

Lemma sign_digit (s : string) :
  starts_with_ascii_digit s = true -> sign s = (false, s).
Proof.
  destruct s as [|c s]; [discriminate|]. simpl.
  destruct c as [[] [] [] [] [] [] [] []]; simpl; intros E;
    try discriminate E; reflexivity.
Qed.

Lemma not_a_keyword (s : string) :
  starts_with_ascii_digit s = true ->
  String.eqb (lower s) "inf" || String.eqb (lower s) "infinity" = false /\
  String.eqb (lower s) "nan" = false.
Proof.
  destruct s as [|c s]; [discriminate|]. simpl. intros Hc.
  rewrite (digit_lower c Hc).
  destruct c as [[] [] [] [] [] [] [] []]; try discriminate Hc; split; reflexivity.
Qed.

(** The ASCII text [i] or [i.f] reads as the float it denotes. *)
Lemma float_of_ascii_decimal (i f : string) :
  all_digits i = true -> i <> "" -> all_digits f = true ->
  float_of_ascii (if truthy f then i ++ "." ++ f else i) = Some (decimal_value i f).
Proof.
  intros Hi Hne Hf. unfold float_of_ascii, decimal_value.
  set (m := if truthy f then i ++ "." ++ f else i).
  assert (Hsp : no_space m = true).
  { subst m. destruct (truthy f).
    - rewrite !no_space_app, (digits_no_space i Hi), (digits_no_space f Hf).
      reflexivity.
    - now apply digits_no_space. }
  assert (Hst : starts_with_ascii_digit m = true).
  { subst m. destruct i as [|c i]; [congruence|].
    simpl in Hi. apply andb_true_iff in Hi as [Hc _].
    destruct (truthy f); simpl; exact Hc. }
  rewrite strip_no_space, sign_digit by assumption.
  destruct (not_a_keyword m Hst) as [-> ->].
  assert (Hn : number m = Some (i, f, "")).
  { subst m. unfold number. destruct f as [|c f]; simpl truthy; cbv iota.
    - now rewrite digitpart_digits.
    - change (i ++ "." ++ String c f) with (i ++ String "." (String c f)).
      rewrite digitpart_app by (simpl; auto).
      now rewrite digitpart_digits. }
  rewrite Hn. simpl. now rewrite Z.add_0_r.
Qed.

(** The same with a sign in front. *)
Lemma float_of_ascii_signed (neg : bool) (i f : string) :
  all_digits i = true -> i <> "" -> all_digits f = true -> f <> "" ->
  float_of_ascii ((if neg then "-" else "") ++ i ++ "." ++ f)
  = Some (of_decimal neg (i ++ f) (Z.of_nat (String.length i))).
Proof.
  intros Hi Hne Hf Hfne.
  destruct neg; [|pose proof (float_of_ascii_decimal i f Hi Hne Hf) as E;
                  destruct f; [congruence | exact E]].
  unfold float_of_ascii.
  set (m := i ++ "." ++ f).
  assert (Hsp : no_space ("-" ++ m) = true).
  { subst m. cbn. rewrite !no_space_app, (digits_no_space i Hi). cbn.
    now rewrite (digits_no_space f Hf). }
  assert (Hst : starts_with_ascii_digit m = true).
  { subst m. destruct i as [|c i]; [congruence|].
    simpl in Hi. apply andb_true_iff in Hi as [Hc _]. exact Hc. }
  rewrite strip_no_space by assumption. cbn [String.append sign].
  destruct (not_a_keyword m Hst) as [-> ->].
  assert (Hn : number m = Some (i, f, "")).
  { subst m. unfold number.
    destruct f as [|c f]; [congruence|].
    change (i ++ "." ++ String c f) with (i ++ String "." (String c f)).
    rewrite digitpart_app by (simpl; auto).
    now rewrite digitpart_digits. }
  rewrite Hn. cbn [exponent]. now rewrite Z.add_0_r.
Qed.

Section Text.
Context `{Unicode}.

(** A decimal digit is a whole code point. *)
Lemma decimal_of_whole (c : ascii) (t : string) (d : ascii) :
  decimal_of c t = Some d ->
  is_digit d = true /\ is_continuation c = false /\
  (t = continuation (tail_length c) t -> String.length t = tail_length c).
Proof.
  unfold decimal_of.
  destruct (tail_length c) as [|k] eqn:Ek.
  - destruct (is_digit c) eqn:Ed; [|discriminate]. intros [= <-].
    split; [exact Ed|]. split.
    + destruct c as [[] [] [] [] [] [] [] []]; try discriminate Ed; reflexivity.
    + intros ->. reflexivity.
  - destruct (Nat.eqb_spec (String.length t) (S k)) as [El|]; [|discriminate].
    intros Hd. split; [exact (decimal_digit_is_digit _ _ Hd)|]. split; [|auto].
    unfold tail_length, is_continuation in *.
    destruct (Nat.ltb_spec (nat_of_ascii c) 192); [discriminate|].
    destruct (Nat.leb_spec (nat_of_ascii c) 191); [lia|]. apply andb_false_r.
Qed.

Lemma leading_digit_whole (c : ascii) (s : string) (d : ascii) :
  leading_digit (String c s) = Some d ->
  is_digit d = true /\ is_continuation c = false /\
  String.length (continuation (tail_length c) s) = tail_length c.
Proof.
  cbn [leading_digit]. intros Hd.
  destruct (decimal_of_whole _ _ _ Hd) as (H1 & H2 & H3).
  split; [exact H1|]. split; [exact H2|].
  unfold decimal_of in Hd. destruct (tail_length c) as [|k] eqn:Ek.
  - destruct s; reflexivity.
  - destruct (Nat.eqb_spec (String.length (continuation (S k) s)) (S k));
      [assumption | discriminate].
Qed.

(** The first code point of a text is found again whatever comes after
    it. *)
Lemma leading_digit_app (c : ascii) (s x : string) (d : ascii) :
  leading_digit (String c s) = Some d ->
  let t := continuation (tail_length c) s in
  leading_digit (String c (t ++ x)) = Some d /\
  continuation (tail_length c) (t ++ x) = t /\
  after_continuation (tail_length c) (t ++ x) = x.
Proof.
  intros Hd t.
  destruct (leading_digit_whole c s d Hd) as (_ & _ & Hlen).
  destruct (continuation_app t x (continuation_all _ _)) as [E1 E2].
  fold t in Hlen. rewrite Hlen in E1, E2.
  cbn [leading_digit]. rewrite E1. auto.
Qed.

Lemma leading_digit_boundary (a s : string) :
  a <> "" -> at_boundary s = true ->
  leading_digit (a ++ s) = leading_digit a.
Proof.
  destruct a as [|c a]; [congruence|]. intros _ Hs.
  cbn [String.append leading_digit]. now rewrite continuation_boundary.
Qed.



(** ** Digit runs *)

Lemma span_digits_skip (t s : string) :
  span_digits_from (String.length t) (t ++ s)
  = (t ++ fst (span_digits s), snd (span_digits s)).
Proof.
  induction t as [|c t IH]; cbn [String.length String.append].
  - unfold span_digits. now destruct (span_digits_from 0 s).
  - cbn [span_digits_from]. rewrite IH. reflexivity.
Qed.

(** The run, code point by code point. *)
Lemma span_digits_cons (c : ascii) (s : string) :
  span_digits (String c s)
  = match leading_digit (String c s) with
    | Some _ =>
        (String c (continuation (tail_length c) s
                   ++ fst (span_digits (after_continuation (tail_length c) s))),
         snd (span_digits (after_continuation (tail_length c) s)))
    | None => ("", String c s)
    end.
Proof.
  unfold span_digits at 1. cbn [span_digits_from].
  destruct (leading_digit (String c s)) as [d|] eqn:Hd; [|reflexivity].
  destruct (leading_digit_whole c s d Hd) as (_ & _ & Hlen).
  rewrite <- (continuation_split (tail_length c) s) at 1.
  rewrite <- Hlen at 1. rewrite span_digits_skip. reflexivity.
Qed.

Lemma digits_only_skip (t s : string) :
  digits_only_from (String.length t) (t ++ s) = digits_only s.
Proof.
  induction t as [|c t IH]; cbn [String.length String.append]; [reflexivity|].
  cbn [digits_only_from]. exact IH.
Qed.

Lemma digits_only_cons (c : ascii) (s : string) :
  digits_only (String c s)
  = match leading_digit (String c s) with
    | Some _ => digits_only (after_continuation (tail_length c) s)
    | None => false
    end.
Proof.
  unfold digits_only at 1. cbn [digits_only_from].
  destruct (leading_digit (String c s)) as [d|] eqn:Hd; [|reflexivity].
  destruct (leading_digit_whole c s d Hd) as (_ & _ & Hlen).
  rewrite <- (continuation_split (tail_length c) s) at 1.
  rewrite <- Hlen at 1. apply digits_only_skip.
Qed.

Lemma starts_with_digit_nil : starts_with_digit "" = false.
Proof. reflexivity. Qed.

Lemma span_digits_split (s : string) :
  s = fst (span_digits s) ++ snd (span_digits s) /\
  digits_only (fst (span_digits s)) = true /\
  starts_with_digit (snd (span_digits s)) = false.
Proof.
  induction s as [|c s IH] using text_ind; [auto|].
  rewrite span_digits_cons. unfold starts_with_digit at 1.
  destruct (leading_digit (String c s)) as [d|] eqn:Hd; cbn [fst snd].
  - destruct IH as (Hs & Hrun & Hrest).
    set (t := continuation (tail_length c) s) in *.
    set (a := after_continuation (tail_length c) s) in *.
    destruct (leading_digit_app c s (fst (span_digits a)) d Hd) as (E1 & E2 & E3).
    fold t in E1, E2, E3.
    split; [|split; [|exact Hrest]].
    + cbn [String.append]. rewrite append_assoc, <- Hs.
      unfold t, a. now rewrite continuation_split.
    + rewrite digits_only_cons, E1, E3. exact Hrun.
  - cbn [String.append]. unfold starts_with_digit. rewrite Hd. auto.
Qed.

Lemma span_digits_app (d r : string) :
  digits_only d = true -> starts_with_digit r = false ->
  span_digits (d ++ r) = (d, r).
Proof.
  intros Hd Hr. induction d as [|c d IH] using text_ind.
  - cbn [String.append]. destruct r as [|x r]; [reflexivity|].
    rewrite span_digits_cons. unfold starts_with_digit in Hr.
    now destruct (leading_digit (String x r)).
  - rewrite digits_only_cons in Hd.
    destruct (leading_digit (String c d)) as [v|] eqn:Hv; [|discriminate].
    specialize (IH Hd).
    set (t := continuation (tail_length c) d) in *.
    set (a := after_continuation (tail_length c) d) in *.
    assert (Ed : d = t ++ a) by (unfold t, a; now rewrite continuation_split).
    destruct (leading_digit_app c d (a ++ r) v Hv) as (E1 & E2 & E3).
    fold t in E1, E2, E3.
    cbn [String.append]. rewrite Ed at 1. rewrite append_assoc.
    rewrite span_digits_cons, E1, E2, E3, IH. cbn [fst snd].
    now rewrite <- Ed.
Qed.

Lemma digits1_app (d r : string) :
  digits_only d = true -> d <> "" -> starts_with_digit r = false ->
  digits1 (d ++ r) = Some (d, r).
Proof.
  intros Hd Hne Hr. unfold digits1. rewrite span_digits_app by assumption.
  destruct d; [congruence | reflexivity].
Qed.

Lemma digits1_none (s : string) :
  starts_with_digit s = false -> digits1 s = None.
Proof.
  destruct s as [|c s]; [reflexivity|]. unfold starts_with_digit. intros E.
  unfold digits1. rewrite span_digits_cons.
  now destruct (leading_digit (String c s)).
Qed.

Lemma digits1_some (s d r : string) :
  digits1 s = Some (d, r) ->
  s = d ++ r /\ digits_only d = true /\ d <> "" /\ starts_with_digit r = false.
Proof.
  unfold digits1. intros E.
  destruct (span_digits_split s) as (Hs & Hd & Hr).
  destruct (span_digits s) as [d' r']; simpl in *.
  destruct d' as [|c d']; [discriminate|].
  injection E as <- <-. repeat split; auto.
Qed.

(** A digit starts at a boundary. *)
Lemma digit_at_boundary (s : string) :
  starts_with_digit s = true -> at_boundary s = true.
Proof.
  destruct s as [|c s]; [reflexivity|]. unfold starts_with_digit.
  destruct (leading_digit (String c s)) as [d|] eqn:Hd; [|discriminate].
  destruct (leading_digit_whole c s d Hd) as (_ & Hc & _).
  intros _. cbn. now rewrite Hc.
Qed.

Lemma starts_with_digit_boundary (a s : string) :
  a <> "" -> at_boundary s = true ->
  starts_with_digit (a ++ s) = starts_with_digit a.
Proof.
  intros Ha Hs. unfold starts_with_digit.
  now rewrite leading_digit_boundary.
Qed.

Lemma no_digit_cons (c : ascii) (s : string) :
  no_digit (String c s) = negb (starts_with_digit (String c s)) && no_digit s.
Proof.
  cbn [no_digit]. unfold starts_with_digit.
  now destruct (leading_digit (String c s)).
Qed.

(** ** The rating pattern *)

Lemma decimal_number_none (s : string) :
  starts_with_digit s = false -> decimal_number s = None.
Proof. intros E. unfold decimal_number. now rewrite digits1_none. Qed.

Lemma search_skip {A} (m : string -> option A) (pre s : string) :
  (forall t, starts_with_digit t = false -> m t = None) ->
  no_digit pre = true -> at_boundary s = true ->
  search m (pre ++ s) = search m s.
Proof.
  intros Hm Hp Hs. induction pre as [|c pre IH]; [reflexivity|].
  rewrite no_digit_cons in Hp. apply andb_true_iff in Hp as [Hc Hp].
  apply negb_true_iff in Hc.
  cbn [String.append search].
  rewrite (Hm (String c (pre ++ s))).
  - now apply IH.
  - change (String c (pre ++ s)) with (String c pre ++ s).
    now rewrite starts_with_digit_boundary.
Qed.

Lemma search_here {A} (m : string -> option A) (s : string) (r : A) :
  m s = Some r -> search m s = Some r.
Proof. intros E. destruct s; simpl; now rewrite E. Qed.

Lemma search_no_digit {A} (m : string -> option A) (s : string) :
  (forall t, starts_with_digit t = false -> m t = None) ->
  no_digit s = true -> search m s = None.
Proof.
  intros Hm. induction s as [|c s IH]; intros Hs.
  - cbn. now rewrite Hm.
  - rewrite no_digit_cons in Hs. apply andb_true_iff in Hs as [Hc Hs].
    apply negb_true_iff in Hc. cbn [search].
    rewrite Hm by exact Hc. now apply IH.
Qed.

Lemma decimal_number_whole (i post : string) :
  digits_only i = true -> i <> "" -> starts_with_digit post = false ->
  starts_with_fraction post = false ->
  decimal_number (i ++ post) = Some i.
Proof.
  intros Hi Hne Hp Hf. unfold decimal_number.
  rewrite digits1_app by assumption.
  destruct post as [|c post]; [reflexivity|]. simpl lit.
  destruct (Ascii.eqb_spec "." c) as [<-|Hc]; [|reflexivity].
  simpl in Hf. now rewrite digits1_none.
Qed.

Lemma point_not_digit (s : string) : starts_with_digit (String "." s) = false.
Proof. reflexivity. Qed.

Lemma decimal_number_fraction (i f post : string) :
  digits_only i = true -> i <> "" -> digits_only f = true -> f <> "" ->
  starts_with_digit post = false ->
  decimal_number (i ++ "." ++ f ++ post) = Some (i ++ "." ++ f).
Proof.
  intros Hi Hne Hf Hfne Hp. unfold decimal_number.
  rewrite digits1_app by (auto using point_not_digit).
  simpl. now rewrite digits1_app.
Qed.

Lemma digits_start (i r : string) :
  digits_only i = true -> i <> "" -> starts_with_digit (i ++ r) = true.
Proof.
  destruct i as [|c i]; [congruence|]. intros Hi _.
  rewrite digits_only_cons in Hi. unfold starts_with_digit.
  cbn [String.append].
  destruct (leading_digit (String c i)) as [d|] eqn:Hd; [|discriminate].
  destruct (leading_digit_app c i (after_continuation (tail_length c) i ++ r) d Hd)
    as (E & _).
  rewrite <- append_assoc, continuation_split in E. now rewrite E.
Qed.

(** The leftmost match of the rating pattern is the first decimal
    number of the string. *)
Lemma search_rating_first (s m i f : string) :
  first_decimal_number s m i f -> search rating_pattern s = Some m.
Proof.
  intros (pre & post & -> & Hpre & Hi & Hne & Hf & Hp & Hcase).
  assert (Hm : at_boundary (m ++ post) = true).
  { apply digit_at_boundary.
    destruct Hcase as [(_ & -> & _) | (_ & ->)];
      [|rewrite append_assoc]; now apply digits_start. }
  rewrite (search_skip rating_pattern pre) by (auto using decimal_number_none).
  apply search_here. unfold rating_pattern.
  destruct Hcase as [(-> & -> & Hfr) | (Hfne & ->)].
  - now apply decimal_number_whole.
  - rewrite !append_assoc. now apply decimal_number_fraction.
Qed.

Lemma no_digit_false_split (s : string) :
  no_digit s = false ->
  exists pre t, s = pre ++ t /\ no_digit pre = true /\ starts_with_digit t = true.
Proof.
  induction s as [|c s IH]; [discriminate|].
  rewrite no_digit_cons.
  destruct (starts_with_digit (String c s)) eqn:E; cbn [negb andb]; intros Hs.
  - exists "", (String c s). auto.
  - destruct (IH Hs) as (pre & t & -> & Hp & Ht).
    exists (String c pre), t. split; [reflexivity|]. split; [|exact Ht].
    rewrite no_digit_cons, Hp.
    change (String c (pre ++ t)) with (String c pre ++ t) in E.
    rewrite starts_with_digit_boundary in E
      by (try discriminate; now apply digit_at_boundary).
    now rewrite E.
Qed.

(** A string with a digit has a first decimal number. *)
Lemma first_decimal_number_exists (s : string) :
  no_digit s = false -> exists m i f, first_decimal_number s m i f.
Proof.
  intros Hs. destruct (no_digit_false_split s Hs) as (pre & t & -> & Hp & Ht).
  destruct (span_digits_split t) as (Hsplit & Hd & Hr).
  remember (fst (span_digits t)) as i.
  remember (snd (span_digits t)) as post.
  assert (Hne : i <> "").
  { intros ->. cbn [String.append] in Hsplit. subst post. congruence. }
  destruct (starts_with_fraction post) eqn:Hfr.
  - destruct post as [|p post']; [discriminate|].
    destruct (Ascii.eqb_spec p ".") as [->|Hneq];
      [|destruct p as [[] [] [] [] [] [] [] []]; try discriminate; congruence].
    simpl in Hfr.
    destruct (span_digits_split post') as (Hs' & Hd' & Hr').
    remember (fst (span_digits post')) as f.
    remember (snd (span_digits post')) as post''.
    exists (i ++ "." ++ f), i, f, pre, post''.
    split; [|repeat split; auto].
    + rewrite Hsplit, !append_assoc. simpl. now rewrite <- Hs'.
    + right. split; [|reflexivity].
      intros ->. cbn [String.append] in Hs'. subst post''. congruence.
  - exists i, i, "", pre, post. repeat split; auto.
    rewrite Hsplit. reflexivity.
Qed.


(** ** What [float] reads of a text beyond ASCII *)

Lemma to_ascii_skip (t s : string) :
  to_ascii_from (String.length t) (t ++ s) = to_ascii s.
Proof.
  induction t as [|c t IH]; cbn [String.length String.append]; [reflexivity|].
  cbn [to_ascii_from]. exact IH.
Qed.

Lemma to_ascii_ascii (c : ascii) (s : string) :
  (nat_of_ascii c <? 128)%nat = true ->
  to_ascii (String c s) = option_map (String c) (to_ascii s).
Proof. intros Hc. unfold to_ascii at 1. cbn [to_ascii_from]. now rewrite Hc. Qed.

(** A decimal digit reads as its digit. *)
Lemma to_ascii_digit (c : ascii) (s : string) (d : ascii) :
  leading_digit (String c s) = Some d ->
  to_ascii (String c s)
  = option_map (String d) (to_ascii (after_continuation (tail_length c) s)).
Proof.
  intros Hd. destruct (leading_digit_whole c s d Hd) as (Hdig & _ & Hlen).
  cbn [leading_digit] in Hd.
  unfold to_ascii at 1. cbn [to_ascii_from].
  assert (Hskip : to_ascii_from (tail_length c) s
                  = to_ascii (after_continuation (tail_length c) s)).
  { rewrite <- (continuation_split (tail_length c) s) at 1.
    rewrite <- Hlen at 1. apply to_ascii_skip. }
  destruct (Nat.ltb_spec (nat_of_ascii c) 128) as [Hlt|Hge].
  - assert (Et : tail_length c = 0%nat).
    { unfold tail_length. destruct (Nat.ltb_spec (nat_of_ascii c) 192); [reflexivity | lia]. }
    unfold decimal_of in Hd. rewrite Et in Hd |- *.
    destruct (is_digit c); [|discriminate]. injection Hd as <-.
    destruct s; reflexivity.
  - assert (Hsp : space_of c (continuation (tail_length c) s) = false).
    { unfold space_of, decimal_of in *.
      destruct (tail_length c) as [|k].
      - destruct (is_digit c) eqn:Ed; [|discriminate].
        now apply digit_not_space.
      - destruct (String.length _ =? S k)%nat; [|reflexivity].
        destruct (white_space _) eqn:Ew; [|reflexivity].
        apply white_space_is_no_digit in Ew. congruence. }
    rewrite Hsp, Hd, Hskip. reflexivity.
Qed.

(** A run of digits reads as a run of ASCII digits, as long as it has
    code points. *)
Lemma to_ascii_digits (d r : string) :
  digits_only d = true ->
  exists a,
    all_digits a = true /\ (d <> "" -> a <> "") /\ (d = "" -> a = "") /\
    to_ascii (d ++ r) = option_map (String.append a) (to_ascii r).
Proof.
  induction d as [|c d IH] using text_ind; intros Hd.
  - exists "". cbn [String.append]. repeat split; auto.
    now destruct (to_ascii r).
  - rewrite digits_only_cons in Hd.
    destruct (leading_digit (String c d)) as [v|] eqn:Hv; [|discriminate].
    destruct (IH Hd) as (a & Ha & _ & _ & Hto).
    destruct (leading_digit_whole c d v Hv) as (Hdig & _ & _).
    exists (String v a). split; [cbn; now rewrite Hdig, Ha|].
    split; [discriminate|]. split; [discriminate|].
    set (t := continuation (tail_length c) d) in *.
    set (x := after_continuation (tail_length c) d) in *.
    assert (Ed : d = t ++ x) by (unfold t, x; now rewrite continuation_split).
    destruct (leading_digit_app c d (x ++ r) v Hv) as (E1 & _ & E3).
    fold t in E1, E3.
    cbn [String.append]. rewrite Ed at 1. rewrite append_assoc.
    rewrite (to_ascii_digit _ _ v E1), E3, Hto.
    now destruct (to_ascii r).
Qed.

(** ASCII digits are digits, and read as themselves. *)
Lemma ascii_digits_only (d : string) :
  all_digits d = true -> digits_only d = true.
Proof.
  induction d as [|c d IH]; [reflexivity|]. cbn [all_digits].
  intros [Hc Hd]%andb_true_iff.
  destruct (digit_is_ascii c Hc) as [_ Et].
  rewrite digits_only_cons. cbn [leading_digit]. unfold decimal_of.
  rewrite Et, Hc. cbn [after_continuation]. destruct d; auto.
Qed.

Lemma to_ascii_ascii_digits (d r : string) :
  all_digits d = true ->
  to_ascii (d ++ r) = option_map (String.append d) (to_ascii r).
Proof.
  induction d as [|c d IH]; cbn [String.append all_digits].
  - intros _. now destruct (to_ascii r).
  - intros [Hc Hd]%andb_true_iff.
    destruct (digit_is_ascii c Hc) as [Hlt _].
    rewrite to_ascii_ascii, IH by assumption. now destruct (to_ascii r).
Qed.

Lemma to_ascii_nil : to_ascii "" = Some "".
Proof. reflexivity. Qed.

(** The decimal number [i] or [i.f] reads as the float that its digits
    denote. *)
Lemma float_of_decimal_number (i f : string) :
  digits_only i = true -> i <> "" -> digits_only f = true ->
  exists ai af,
    all_digits ai = true /\ ai <> "" /\ all_digits af = true /\
    float_of_string (if truthy f then i ++ "." ++ f else i)
    = Some (decimal_value ai af).
Proof.
  intros Hi Hne Hf.
  destruct f as [|c f].
  - destruct (to_ascii_digits i "" Hi) as (ai & Hai & Hane & _ & Hto).
    exists ai, "". repeat split; auto.
    cbn [truthy]. unfold float_of_string.
    rewrite append_empty_r in Hto. rewrite Hto, to_ascii_nil. cbn [option_map].
    rewrite append_empty_r.
    exact (float_of_ascii_decimal ai "" Hai (Hane Hne) eq_refl).
  - destruct (to_ascii_digits (String c f) "" Hf) as (af & Haf & Hafne & _ & Hto').
    rewrite append_empty_r, to_ascii_nil in Hto'. cbn [option_map] in Hto'.
    rewrite append_empty_r in Hto'.
    destruct (to_ascii_digits i ("." ++ String c f) Hi) as (ai & Hai & Hane & _ & Hto).
    exists ai, af. repeat split; auto.
    cbn [truthy]. unfold float_of_string. rewrite Hto.
    change ("." ++ String c f) with (String "." (String c f)).
    rewrite to_ascii_ascii by reflexivity. rewrite Hto'. cbn [option_map].
    pose proof (float_of_ascii_decimal ai af Hai (Hane Hne) Haf) as E.
    destruct af as [|x af]; [now specialize (Hafne ltac:(discriminate))|].
    exact E.
Qed.

(** A decimal with a fraction reads as ASCII digits around the
    point. *)
Lemma to_ascii_decimal (i f : string) :
  digits_only i = true -> i <> "" -> digits_only f = true -> f <> "" ->
  exists ai af,
    all_digits ai = true /\ ai <> "" /\ all_digits af = true /\ af <> "" /\
    to_ascii (i ++ "." ++ f) = Some (ai ++ "." ++ af).
Proof.
  intros Hi Hne Hf Hfne.
  destruct (to_ascii_digits f "" Hf) as (af & Haf & Hafne & _ & Hto').
  rewrite append_empty_r, to_ascii_nil in Hto'. cbn [option_map] in Hto'.
  rewrite append_empty_r in Hto'.
  destruct (to_ascii_digits i ("." ++ f) Hi) as (ai & Hai & Hane & _ & Hto).
  exists ai, af. repeat split; auto.
  rewrite Hto. change ("." ++ f) with (String "." f).
  rewrite to_ascii_ascii by reflexivity. rewrite Hto'. reflexivity.
Qed.

(** Of ASCII digits it is the float of these digits. *)
Lemma float_of_ascii_decimal_number (i f : string) :
  all_digits i = true -> i <> "" -> all_digits f = true ->
  float_of_string (if truthy f then i ++ "." ++ f else i)
  = Some (decimal_value i f).
Proof.
  intros Hi Hne Hf. unfold float_of_string.
  destruct f as [|c f]; cbn [truthy].
  - rewrite <- (append_empty_r i) at 1.
    rewrite (to_ascii_ascii_digits i "" Hi), to_ascii_nil. cbn [option_map].
    rewrite append_empty_r.
    exact (float_of_ascii_decimal i "" Hi Hne eq_refl).
  - rewrite (to_ascii_ascii_digits i _ Hi).
    change ("." ++ String c f) with (String "." (String c f)).
    rewrite to_ascii_ascii by reflexivity.
    rewrite <- (append_empty_r (String c f)).
    rewrite (to_ascii_ascii_digits (String c f) "" Hf), to_ascii_nil.
    cbn [option_map]. rewrite append_empty_r.
    exact (float_of_ascii_decimal i (String c f) Hi Hne Hf).
Qed.



(** ** [strip] *)

Lemma leading_space_whole (c : ascii) (s : string) :
  leading_space (String c s) = true ->
  is_continuation c = false /\
  String.length (continuation (tail_length c) s) = tail_length c.
Proof.
  cbn [leading_space]. unfold space_of.
  destruct (tail_length c) as [|k] eqn:Ek.
  - intros Hc. split; [|destruct s; reflexivity].
    destruct c as [[] [] [] [] [] [] [] []]; try discriminate Hc; reflexivity.
  - intros [Hl _]%andb_true_iff. apply Nat.eqb_eq in Hl. split; [|exact Hl].
    unfold tail_length, is_continuation in *.
    destruct (Nat.ltb_spec (nat_of_ascii c) 192); [discriminate|].
    destruct (Nat.leb_spec (nat_of_ascii c) 191); [lia|]. apply andb_false_r.
Qed.

Lemma leading_space_app (c : ascii) (s x : string) :
  leading_space (String c s) = true ->
  let t := continuation (tail_length c) s in
  leading_space (String c (t ++ x)) = true /\
  after_continuation (tail_length c) (t ++ x) = x.
Proof.
  intros Hs t.
  destruct (leading_space_whole c s Hs) as (_ & Hlen).
  destruct (continuation_app t x (continuation_all _ _)) as [E1 E2].
  fold t in Hlen. rewrite Hlen in E1, E2.
  cbn [leading_space] in *. rewrite E1. auto.
Qed.

Lemma leading_space_boundary (a s : string) :
  a <> "" -> at_boundary s = true ->
  leading_space (a ++ s) = leading_space a.
Proof.
  destruct a as [|c a]; [congruence|]. intros _ Hs.
  cbn [String.append leading_space]. now rewrite continuation_boundary.
Qed.

Lemma space_at_boundary (s : string) :
  leading_space s = true -> at_boundary s = true.
Proof.
  destruct s as [|c s]; [reflexivity|]. intros Hs.
  destruct (leading_space_whole c s Hs) as (Hc & _). cbn. now rewrite Hc.
Qed.

Lemma lstrip_skip (t s : string) :
  lstrip_from (String.length t) (t ++ s) = lstrip s.
Proof.
  induction t as [|c t IH]; cbn [String.length String.append]; [reflexivity|].
  cbn [lstrip_from]. exact IH.
Qed.

Lemma lstrip_cons (c : ascii) (s : string) :
  lstrip (String c s)
  = if leading_space (String c s)
    then lstrip (after_continuation (tail_length c) s)
    else String c s.
Proof.
  unfold lstrip at 1. cbn [lstrip_from].
  destruct (leading_space (String c s)) eqn:Hs; [|reflexivity].
  destruct (leading_space_whole c s Hs) as (_ & Hlen).
  rewrite <- (continuation_split (tail_length c) s) at 1.
  rewrite <- Hlen at 1. apply lstrip_skip.
Qed.

Lemma all_space_skip (t s : string) :
  all_space_from (String.length t) (t ++ s) = all_space s.
Proof.
  induction t as [|c t IH]; cbn [String.length String.append]; [reflexivity|].
  cbn [all_space_from]. exact IH.
Qed.

Lemma all_space_cons (c : ascii) (s : string) :
  all_space (String c s)
  = leading_space (String c s)
    && all_space (after_continuation (tail_length c) s).
Proof.
  unfold all_space at 1. cbn [all_space_from].
  destruct (leading_space (String c s)) eqn:Hs; [|reflexivity].
  destruct (leading_space_whole c s Hs) as (_ & Hlen).
  rewrite <- (continuation_split (tail_length c) s) at 1.
  rewrite <- Hlen at 1. apply all_space_skip.
Qed.

Lemma lstrip_head (s : string) : leading_space (lstrip s) = false.
Proof.
  induction s as [|c s IH] using text_ind; [reflexivity|].
  rewrite lstrip_cons.
  destruct (leading_space (String c s)) eqn:Hs; [exact IH | exact Hs].
Qed.

Lemma lstrip_fix (s : string) : leading_space s = false -> lstrip s = s.
Proof.
  destruct s as [|c s]; [reflexivity|]. intros Hs.
  now rewrite lstrip_cons, Hs.
Qed.

Lemma all_space_boundary (s : string) : all_space s = true -> at_boundary s = true.
Proof.
  destruct s as [|c s]; [reflexivity|]. rewrite all_space_cons.
  intros [Hs _]%andb_true_iff. now apply space_at_boundary.
Qed.

Lemma all_space_app (a w : string) :
  all_space a = true -> all_space w = true -> all_space (a ++ w) = true.
Proof.
  intros Ha Hw. induction a as [|c a IH] using text_ind; [exact Hw|].
  rewrite all_space_cons in Ha. apply andb_true_iff in Ha as [Hc Ha].
  specialize (IH Ha).
  set (t := continuation (tail_length c) a) in *.
  set (x := after_continuation (tail_length c) a) in *.
  assert (Ea : a = t ++ x) by (unfold t, x; now rewrite continuation_split).
  destruct (leading_space_app c a (x ++ w) Hc) as (E1 & E3).
  fold t in E1, E3.
  cbn [String.append]. rewrite Ea at 1. rewrite append_assoc.
  rewrite all_space_cons, E1, E3. exact IH.
Qed.

(** What [rstrip] drops is white space, and what it keeps is the text
    before it. *)
Lemma rstrip_split (s : string) :
  exists w, s = rstrip s ++ w /\ all_space w = true.
Proof.
  induction s as [|c s IH]; [exists ""; auto|].
  cbn [rstrip]. destruct (all_space (String c s)) eqn:E.
  - exists (String c s). auto.
  - destruct IH as (w & Hs & Hw). exists w. split; [|exact Hw].
    cbn [String.append]. now rewrite <- Hs.
Qed.

Lemma rstrip_idem (s : string) : rstrip (rstrip s) = rstrip s.
Proof.
  induction s as [|c s IH]; [reflexivity|].
  cbn [rstrip]. destruct (all_space (String c s)) eqn:E; [reflexivity|].
  cbn [rstrip]. rewrite IH.
  destruct (all_space (String c (rstrip s))) eqn:E'; [|reflexivity].
  destruct (rstrip_split s) as (w & Hs & Hw).
  pose proof (all_space_app _ _ E' Hw) as Hall.
  cbn [String.append] in Hall. rewrite <- Hs in Hall. congruence.
Qed.

Lemma rstrip_head (s : string) :
  leading_space s = false -> leading_space (rstrip s) = false.
Proof.
  destruct s as [|c s]; [reflexivity|]. intros Hs.
  cbn [rstrip]. destruct (all_space (String c s)); [reflexivity|].
  destruct (rstrip_split s) as (w & Es & Hw).
  rewrite Es in Hs.
  change (String c (rstrip s ++ w)) with (String c (rstrip s) ++ w) in Hs.
  rewrite leading_space_boundary in Hs
    by (try discriminate; now apply all_space_boundary).
  exact Hs.
Qed.

Lemma strip_idem (s : string) : strip (strip s) = strip s.
Proof.
  unfold strip.
  rewrite (lstrip_fix (rstrip (lstrip s))) by apply rstrip_head, lstrip_head.
  apply rstrip_idem.
Qed.

(** A text without white space at either end is left as it is. *)
Lemma strip_fix (s : string) :
  leading_space s = false -> rstrip s = s -> strip s = s.
Proof. intros Hl Hr. unfold strip. now rewrite lstrip_fix. Qed.

End Text.

(** ** Leading and trailing zeros *)

Lemma drop_leading_zeros_cons (c : ascii) (s : string) :
  drop_leading_zeros (String c s) =
  if Ascii.eqb c "0" then drop_leading_zeros s else String c s.
Proof. destruct c as [[] [] [] [] [] [] [] []]; reflexivity. Qed.

Lemma drop_leading_zeros_head (s : string) :
  nonzero_head (drop_leading_zeros s) = true.
Proof.
  induction s as [|c s IH]; [reflexivity|].
  rewrite drop_leading_zeros_cons.
  destruct (Ascii.eqb c "0") eqn:E; [exact IH | simpl; now rewrite E].
Qed.

Lemma drop_leading_zeros_fix (s : string) :
  nonzero_head s = true -> drop_leading_zeros s = s.
Proof.
  destruct s as [|c s]; [reflexivity|]. simpl nonzero_head.
  intros E%negb_true_iff. now rewrite drop_leading_zeros_cons, E.
Qed.

Lemma drop_leading_zeros_digits (s : string) :
  all_digits s = true -> all_digits (drop_leading_zeros s) = true.
Proof.
  induction s as [|c s IH]; [reflexivity|].
  rewrite drop_leading_zeros_cons. simpl.
  intros [Hc Hs]%andb_true_iff.
  destruct (Ascii.eqb c "0"); [auto | simpl; now rewrite Hc, Hs].
Qed.

Lemma drop_leading_zeros_repeat (k : nat) (s : string) :
  drop_leading_zeros (repeat_char "0" k ++ s) = drop_leading_zeros s.
Proof. induction k as [|k IH]; [reflexivity | exact IH]. Qed.

Lemma length_repeat_char (c : ascii) (k : nat) :
  String.length (repeat_char c k) = k.
Proof. induction k as [|k IH]; simpl; [reflexivity | now rewrite IH]. Qed.

Lemma all_digits_repeat_zero (k : nat) : all_digits (repeat_char "0" k) = true.
Proof. induction k as [|k IH]; simpl; [reflexivity | exact IH]. Qed.

Lemma drop_trailing_zeros_idem (s : string) :
  drop_trailing_zeros (drop_trailing_zeros s) = drop_trailing_zeros s.
Proof.
  induction s as [|c s IH]; simpl; [reflexivity|].
  destruct (Ascii.eqb c "0" && negb (truthy (drop_trailing_zeros s))) eqn:E;
    [reflexivity|].
  simpl. now rewrite IH, E.
Qed.

Lemma drop_trailing_zeros_head (s : string) :
  nonzero_head s = true -> nonzero_head (drop_trailing_zeros s) = true.
Proof.
  destruct s as [|c s]; [reflexivity|]. simpl.
  intros E%negb_true_iff. now rewrite E; simpl; rewrite E.
Qed.

Lemma drop_trailing_zeros_digits (s : string) :
  all_digits s = true -> all_digits (drop_trailing_zeros s) = true.
Proof.
  induction s as [|c s IH]; simpl; [reflexivity|].
  intros [Hc Hs]%andb_true_iff.
  destruct (Ascii.eqb c "0" && negb (truthy (drop_trailing_zeros s)));
    [reflexivity | simpl; now rewrite Hc, IH].
Qed.

Lemma drop_trailing_zeros_repeat (k : nat) :
  drop_trailing_zeros (repeat_char "0" k) = "".
Proof. induction k as [|k IH]; simpl; [reflexivity | now rewrite IH]. Qed.

Lemma drop_trailing_zeros_app (s : string) (k : nat) :
  drop_trailing_zeros (s ++ repeat_char "0" k) = drop_trailing_zeros s.
Proof.
  induction s as [|c s IH]; simpl.
  - apply drop_trailing_zeros_repeat.
  - now rewrite IH.
Qed.

Lemma take_drop (n : nat) (s : string) : take n s ++ drop n s = s.
Proof.
  revert s. induction n as [|n IH]; intros [|c s]; simpl; try reflexivity.
  now rewrite IH.
Qed.

Lemma length_take (n : nat) (s : string) :
  (n <= String.length s)%nat -> String.length (take n s) = n.
Proof.
  revert s. induction n as [|n IH]; intros [|c s]; simpl; intros Hn;
    try reflexivity; try lia.
  rewrite IH; [reflexivity | lia].
Qed.

(** What [of_decimal] builds is zero or has the shortest digits. *)
Lemma of_decimal_shape (neg : bool) (ds : string) (point : Z) :
  all_digits ds = true ->
  of_decimal neg ds point = Finite neg "0" 1 \/
  exists ds' p, of_decimal neg ds point = Finite neg ds' p /\ shortest ds'.
Proof.
  intros Hd. unfold of_decimal.
  destruct (drop_trailing_zeros (drop_leading_zeros ds)) as [|c r] eqn:E;
    [now left | right].
  eexists _, _. split; [reflexivity|]. rewrite <- E.
  repeat split.
  - auto using drop_trailing_zeros_digits, drop_leading_zeros_digits.
  - rewrite E. discriminate.
  - apply drop_trailing_zeros_head, drop_leading_zeros_head.
  - apply drop_trailing_zeros_idem.
Qed.

(** Digits that are the shortest already denote themselves. *)
Lemma of_decimal_shortest (neg : bool) (ds : string) (point : Z) :
  shortest ds -> of_decimal neg ds point = Finite neg ds point.
Proof.
  intros (Hd & Hne & Hh & Ht). unfold of_decimal.
  rewrite drop_leading_zeros_fix, Ht by assumption.
  destruct ds as [|c ds]; [congruence|].
  f_equal. lia.
Qed.

(** ** Positional notation reads back *)

Lemma repeat_char_snoc (c : ascii) (k : nat) :
  repeat_char c k ++ String c "" = repeat_char c (S k).
Proof. induction k as [|k IH]; simpl; [reflexivity | now rewrite IH]. Qed.

Lemma nonzero_head_app (a b : string) :
  a <> "" -> nonzero_head (a ++ b) = nonzero_head a.
Proof. destruct a; [congruence | reflexivity]. Qed.

Lemma length_drop (n : nat) (s : string) :
  String.length (drop n s) = (String.length s - n)%nat.
Proof.
  revert s. induction n as [|n IH]; intros [|c s]; simpl; try reflexivity.
  apply IH.
Qed.

(** The positional text of a float that is not zero is a decimal number
    [i.f], and that number denotes the float. *)
Lemma float_str_positional (ds : string) (p : Z) :
  shortest ds -> (-4 < p <= 16)%Z ->
  exists i f,
    float_str (Finite false ds p) = i ++ "." ++ f /\
    all_digits i = true /\ i <> "" /\ all_digits f = true /\ f <> "" /\
    decimal_value i f = Finite false ds p.
Proof.
  intros Hs Hp. pose proof Hs as (Hd & Hne & Hh & Ht).
  unfold float_str, decimal_value.
  replace ((p <=? -4)%Z || (16 <? p)%Z) with false
    by (symmetry; apply orb_false_iff; split; lia).
  destruct (Z.leb_spec p 0) as [Hle|Hgt].
  - (* 0.000ds *)
    set (k := Z.to_nat (- p)).
    exists "0", (repeat_char "0" k ++ ds).
    split; [reflexivity|]. split; [reflexivity|]. split; [discriminate|].
    split; [now rewrite all_digits_app, all_digits_repeat_zero|].
    split.
    { intros E. apply (f_equal String.length) in E.
      rewrite length_append in E. simpl in E.
      destruct ds; [congruence | simpl in E; lia]. }
    unfold of_decimal.
    change ("0" ++ repeat_char "0" k ++ ds) with (repeat_char "0" (S k) ++ ds).
    rewrite drop_leading_zeros_repeat, drop_leading_zeros_fix, Ht by assumption.
    destruct ds as [|c ds]; [congruence|].
    f_equal. rewrite length_append, length_repeat_char. simpl String.length. lia.
  - destruct (Z.leb_spec (Z.of_nat (String.length ds)) p) as [Hlen|Hlen].
    + (* ds000.0 *)
      set (k := (Z.to_nat p - String.length ds)%nat).
      exists (ds ++ repeat_char "0" k), "0".
      split; [now rewrite append_assoc|].
      split; [now rewrite all_digits_app, all_digits_repeat_zero, Hd|].
      split; [destruct ds; [congruence | discriminate]|].
      split; [reflexivity|]. split; [discriminate|].
      unfold of_decimal.
      rewrite append_assoc, repeat_char_snoc.
      rewrite drop_leading_zeros_fix
        by (rewrite nonzero_head_app; assumption).
      rewrite drop_trailing_zeros_app, Ht.
      destruct ds as [|c ds]; [congruence|].
      f_equal. rewrite !length_append, !length_repeat_char. lia.
    + (* d.s *)
      set (n := Z.to_nat p).
      assert (Hn : (0 < n < String.length ds)%nat) by lia.
      pose proof (take_drop n ds) as Htd.
      assert (Hall : all_digits (take n ds) && all_digits (drop n ds) = true)
        by (now rewrite <- all_digits_app, Htd).
      apply andb_true_iff in Hall as [Hi Hf].
      exists (take n ds), (drop n ds).
      split; [reflexivity|]. split; [exact Hi|].
      split.
      { intros E. apply (f_equal String.length) in E.
        rewrite length_take in E by lia. simpl in E. lia. }
      split; [exact Hf|].
      split.
      { intros E. apply (f_equal String.length) in E.
        rewrite length_drop in E. simpl in E. lia. }
      rewrite Htd, of_decimal_shortest by assumption.
      f_equal. rewrite length_take by lia. lia.
Qed.

End StringFacts.

(* ================================================================== *)
(** * Facts about frames *)
(* ================================================================== *)

Module FrameFacts.
Import PyStr PyRe PyFloat Py Pandas.
#[local] Open Scope list_scope.

Lemma assoc_set_same {V} (k : string) (v : V) (l : list (string * V)) :
  assoc k (assoc_set k v l) = Some v.
Proof.
  induction l as [|[k' v'] l IH]; simpl.
  - now rewrite String.eqb_refl.
  - destruct (String.eqb k' k) eqn:E; simpl.
    + now rewrite String.eqb_refl.
    + now rewrite E.
Qed.

Lemma assoc_set_other {V} (k k' : string) (v : V) (l : list (string * V)) :
  k <> k' -> assoc k' (assoc_set k v l) = assoc k' l.
Proof.
  intros Hne. induction l as [|[k0 v0] l IH]; simpl.
  - apply String.eqb_neq in Hne. now rewrite Hne.
  - destruct (String.eqb_spec k0 k) as [->|Hk]; simpl.
    + apply String.eqb_neq in Hne. now rewrite Hne.
    + now rewrite IH.
Qed.

Lemma assoc_set_twice {V} (k : string) (v v' : V) (l : list (string * V)) :
  assoc_set k v (assoc_set k v' l) = assoc_set k v l.
Proof.
  induction l as [|[k0 v0] l IH]; simpl.
  - now rewrite String.eqb_refl.
  - destruct (String.eqb k0 k) eqn:E; simpl.
    + now rewrite String.eqb_refl.
    + now rewrite E, IH.
Qed.

Lemma assoc_in_keys {V} (k : string) (v : V) (l : list (string * V)) :
  assoc k l = Some v -> In k (keys l).
Proof.
  induction l as [|[k' v'] l IH]; simpl; [discriminate|].
  destruct (String.eqb_spec k' k) as [->|Hk]; auto.
Qed.

Lemma assoc_map_key {V} (g : string -> V) (k : string) (ks : list string) :
  In k ks -> assoc k (map (fun x => (x, g x)) ks) = Some (g k).
Proof.
  induction ks as [|k' ks IH]; simpl; [contradiction|].
  destruct (String.eqb_spec k' k) as [->|Hk]; [reflexivity|].
  intros [E|Hin]; [congruence | auto].
Qed.

Lemma existsb_eqb_In (k : string) (ks : list string) :
  existsb (String.eqb k) ks = true <-> In k ks.
Proof.
  rewrite existsb_exists. split.
  - intros (x & Hin & E). apply String.eqb_eq in E. now subst.
  - intros Hin. exists k. split; [assumption | apply String.eqb_refl].
Qed.

Lemma first_seen_complete (k : string) (ks seen : list string) :
  In k ks -> In k seen \/ In k (first_seen seen ks).
Proof.
  revert seen. induction ks as [|k' ks IH]; simpl; [contradiction|].
  intros seen [->|Hin].
  - destruct (existsb (String.eqb k) seen) eqn:E.
    + left. now apply existsb_eqb_In.
    + right. now left.
  - destruct (existsb (String.eqb k') seen) eqn:E.
    + apply IH, Hin.
    + destruct (IH (k' :: seen) Hin) as [[->|Hs]|Hf]; simpl; auto.
Qed.

(** The column of a key that some record has: the value of each record,
    in the order of the records. *)
Lemma DataFrame_of_column (records : list RawRecord) (k : string) :
  (exists r, In r records /\ In k (keys r)) ->
  assoc k (df_columns (DataFrame_of records)) =
  Some (map (fun r => match assoc k r with
                      | Some v => CStr v
                      | None => CFloat NaN
                      end) records).
Proof.
  intros (r & Hr & Hk). unfold DataFrame_of. simpl.
  apply (assoc_map_key (fun k => map _ records)).
  destruct (first_seen_complete k (concat (map keys records)) []) as [[]|H];
    [|exact H].
  apply in_concat. exists (keys r). split; [|exact Hk].
  now apply in_map.
Qed.

Lemma df_col_set_column (name : string) (c : list cell) (df : DataFrame) :
  df_col name (df_set_column name c df) = c.
Proof. unfold df_col, df_set_column. simpl. now rewrite assoc_set_same. Qed.

Lemma df_set_column_twice (name : string) (c c' : list cell) (df : DataFrame) :
  df_set_column name c (df_set_column name c' df) = df_set_column name c df.
Proof. unfold df_set_column. simpl. now rewrite assoc_set_twice. Qed.

Lemma df_at_set_column (idx : nat) (name : string) (v : cell) (c : list cell)
    (df : DataFrame) :
  df_at_set idx name v (df_set_column name c df)
  = df_set_column name (<[idx := v]> c) df.
Proof.
  unfold df_at_set. simpl. rewrite assoc_set_same.
  apply df_set_column_twice.
Qed.

Lemma df_col_other (name name' : string) (c : list cell) (df : DataFrame) :
  name <> name' -> df_col name' (df_set_column name c df) = df_col name' df.
Proof.
  intros Hne. unfold df_col, df_set_column. simpl.
  now rewrite assoc_set_other.
Qed.

Lemma insert_at_end (done : list cell) (v w : cell) (rest : list cell) :
  <[List.length done := v]> (done ++ w :: rest) = done ++ v :: rest.
Proof.
  induction done as [|x done IH]; simpl; [reflexivity | now rewrite IH].
Qed.

End FrameFacts.

(* ================================================================== *)
(** * Facts about the transformer *)
(* ================================================================== *)

Module TransformFacts.
Import PyStr PyRe PyFloat Py Py.Notations Pandas DataTransformer.
Import Design StringFacts FrameFacts.

Section Text.
Context `{unicode : Unicode}.

Lemma search_some {A} (m : string -> option A) (s : string) (r : A) :
  search m s = Some r -> exists t, m t = Some r.
Proof.
  induction s as [|c s IH]; simpl.
  - destruct (m "") eqn:E; [|discriminate]. intros [= <-]. eauto.
  - destruct (m (String c s)) eqn:E; [intros [= <-]; eauto | exact IH].
Qed.

(** Group 1 of the rating pattern is a decimal number. *)
Lemma decimal_number_shape (t g : string) :
  decimal_number t = Some g ->
  exists i f, digits_only i = true /\ i <> "" /\ digits_only f = true /\
              g = if truthy f then (i ++ "." ++ f)%string else i.
Proof.
  unfold decimal_number. destruct (digits1 t) as [[i r]|] eqn:E; [|discriminate].
  apply digits1_some in E as (_ & Hi & Hne & _).
  assert (Hplain : Some i = Some g ->
                   exists i f, digits_only i = true /\ i <> "" /\
                     digits_only f = true /\
                     g = if truthy f then (i ++ "." ++ f)%string else i).
  { intros [= <-]. exists i, "". auto. }
  destruct (lit "." r) as [r0|]; [|exact Hplain].
  destruct (digits1 r0) as [[f r']|] eqn:E'; [|exact Hplain].
  apply digits1_some in E' as (_ & Hf & Hfne & _).
  intros [= <-]. exists i, f. repeat split; auto.
  destruct f; [congruence | reflexivity].
Qed.

(** [float] of group 1 does not raise. *)
Lemma rating_group_reads (s g : string) :
  search rating_pattern s = Some g -> exists x, float_of_string g = Some x.
Proof.
  intros [t Ht]%search_some.
  apply decimal_number_shape in Ht as (i & f & Hi & Hne & Hf & ->).
  destruct (float_of_decimal_number i f Hi Hne Hf) as (ai & af & _ & _ & _ & E).
  eauto.
Qed.

Lemma to_numeric_written (rating : cell) :
  to_numeric_coerce (rating_written rating) = CFloat (numeric_rating rating).
Proof.
  unfold rating_written, numeric_rating.
  destruct (cell_truthy rating && cell_ne_str rating "No rating"); [|reflexivity].
  destruct (search rating_pattern (cell_str rating)) as [g|]; [|reflexivity].
  now destruct (float_of_string g).
Qed.

(** One turn of the loop of [_extract_numeric_rating], in the row after
    the rows [done]. *)
Lemma rating_step_column (rating : cell) (done rest : list cell)
    (df0 : DataFrame) (l : list LogRecord) :
  rating_step (List.length done) rating
    {| frame := df_set_column "rating_numeric" (done ++ CNone :: rest)%list df0;
       log := l |}
  = (Ok tt,
     {| frame := df_set_column "rating_numeric"
                   (done ++ rating_written rating :: rest)%list df0;
        log := l |}).
Proof.
  unfold rating_step, rating_written.
  destruct (cell_truthy rating && cell_ne_str rating "No rating"); [|reflexivity].
  destruct (search rating_pattern (cell_str rating)) as [g|] eqn:E; [|reflexivity].
  destruct (rating_group_reads _ _ E) as [x Hx].
  unfold bind, float_, update_frame, modify. rewrite Hx. simpl.
  now rewrite df_at_set_column, insert_at_end.
Qed.

Lemma rating_loop (xs : list cell) :
  forall (done : list cell) (df0 : DataFrame) (l : list LogRecord),
    for_each (enumerate_from (List.length done) xs)
             (fun '(idx, rating) => rating_step idx rating)
      {| frame := df_set_column "rating_numeric"
                    (done ++ repeat CNone (List.length xs))%list df0;
         log := l |}
    = (Ok tt,
       {| frame := df_set_column "rating_numeric"
                     (done ++ map rating_written xs)%list df0;
          log := l |}).
Proof.
  induction xs as [|x xs IH]; intros done df0 l; [reflexivity|].
  simpl. unfold bind at 1. rewrite rating_step_column.
  specialize (IH (done ++ [rating_written x])%list df0 l).
  rewrite length_app, Nat.add_1_r, <- !app_assoc in IH. exact IH.
Qed.

(** [_extract_numeric_rating] on a frame whose [rating] column is as long
    as its index: it returns, and the new column holds, row by row, the
    [numeric_rating] of the [rating]. *)
Lemma extract_numeric_rating_run (df : DataFrame) (l : list LogRecord) :
  df_has "rating" df = true ->
  List.length (df_col "rating" df) = df_index df ->
  _extract_numeric_rating {| frame := df; log := l |}
  = (Ok tt,
     {| frame := df_set_column "rating_numeric"
                   (map (fun r => CFloat (numeric_rating r)) (df_col "rating" df)) df;
        log := l |}).
Proof.
  intros Hhas Hlen. unfold _extract_numeric_rating, bind at 1, get_frame.
  simpl. rewrite Hhas.
  unfold bind at 1, update_frame at 1, modify at 1. simpl.
  unfold bind at 1, get_frame. simpl.
  unfold df_set_scalar at 1 2.
  change {| df_index := df_index df;
            df_columns := assoc_set "rating_numeric"
                            (repeat CNone (df_index df)) (df_columns df) |}
    with (df_set_column "rating_numeric" (repeat CNone (df_index df)) df).
  rewrite df_col_other by discriminate.
  unfold bind at 1, enumerate. rewrite <- Hlen.
  pose proof (rating_loop (df_col "rating" df) [] df l) as Hloop.
  simpl in Hloop. rewrite Hloop. simpl.
  unfold update_frame, modify. simpl.
  rewrite df_col_set_column, df_set_column_twice, map_map.
  do 3 f_equal. apply map_ext. intros r. apply to_numeric_written.
Qed.

Lemma lookup_In {X} (l : list X) (n : nat) (x : X) : l !! n = Some x -> In x l.
Proof.
  revert n. induction l as [|y l IH]; intros [|n]; simpl; try discriminate.
  - intros [= ->]. now left.
  - intros H. right. eauto.
Qed.

Lemma lookup_map {X Y} (g : X -> Y) (l : list X) (n : nat) (x : X) :
  l !! n = Some x -> map g l !! n = Some (g x).
Proof.
  revert n. induction l as [|y l IH]; intros [|n]; simpl; try discriminate.
  - now intros [= ->].
  - apply IH.
Qed.

(** A text in which a digit starts holds a digit. *)
Lemma no_digit_before (pre t : string) :
  starts_with_digit t = true -> no_digit (pre ++ t)%string = false.
Proof.
  intros Ht. induction pre as [|c pre IH]; cbn [String.append].
  - destruct t as [|c t]; [discriminate|]. now rewrite no_digit_cons, Ht.
  - now rewrite no_digit_cons, IH, andb_false_r.
Qed.

Lemma first_decimal_number_has_digit (s m i f : string) :
  first_decimal_number s m i f -> no_digit s = false.
Proof.
  intros (pre & post & -> & _ & Hi & Hne & _ & _ & Hcase).
  apply no_digit_before.
  destruct Hcase as [(_ & -> & _) | (_ & ->)];
    [|rewrite append_assoc]; now apply digits_start.
Qed.

Lemma numeric_rating_no_digit (rating : string) :
  no_digit rating = true -> numeric_rating (CStr rating) = NaN.
Proof.
  intros H0. unfold numeric_rating. simpl cell_str.
  rewrite (search_no_digit rating_pattern) by auto using decimal_number_none.
  now destruct (_ && _).
Qed.

(** The rating of a string with a first decimal number is what
    [float] reads of that number. *)
Lemma numeric_rating_search (rating m i f : string) :
  first_decimal_number rating m i f ->
  numeric_rating (CStr rating)
  = match float_of_string m with Some x => x | None => NaN end.
Proof.
  intros Hfirst. pose proof (first_decimal_number_has_digit _ _ _ _ Hfirst) as Hd.
  unfold numeric_rating. simpl.
  assert (Ht : truthy rating = true) by (destruct rating; [discriminate | reflexivity]).
  assert (Hn : String.eqb rating "No rating" = false).
  { apply String.eqb_neq. intros ->. discriminate Hd. }
  now rewrite Ht, Hn, (search_rating_first _ _ _ _ Hfirst).
Qed.

Lemma first_decimal_number_text (rating m i f : string) :
  first_decimal_number rating m i f ->
  m = if truthy f then (i ++ "." ++ f)%string else i.
Proof.
  intros (pre & post & _ & _ & _ & _ & _ & _ & [(-> & -> & _) | (Hfne & ->)]);
    [reflexivity|].
  destruct f; [congruence | reflexivity].
Qed.

(** [float] reads the first decimal number [i] or [i.f] as the float
    that the digits of [i.f] denote, and that is the rating. *)
Lemma numeric_rating_first (rating m i f : string) :
  first_decimal_number rating m i f ->
  exists ai af,
    all_digits ai = true /\ ai <> "" /\ all_digits af = true /\
    float_of_string m = Some (decimal_value ai af) /\
    numeric_rating (CStr rating) = decimal_value ai af.
Proof.
  intros Hfirst. rewrite (numeric_rating_search _ _ _ _ Hfirst).
  rewrite (first_decimal_number_text _ _ _ _ Hfirst).
  destruct Hfirst as (pre & post & _ & _ & Hi & Hne & Hf & _).
  destruct (float_of_decimal_number i f Hi Hne Hf)
    as (ai & af & Hai & Hane & Haf & Hfloat).
  exists ai, af. rewrite Hfloat. auto.
Qed.

Lemma decimal_value_is_a_number (i f : string) : decimal_value i f <> NaN.
Proof.
  unfold decimal_value, of_decimal.
  destruct (drop_trailing_zeros _); discriminate.
Qed.

(** C6. For every record, [_extract_numeric_rating] returns and sets
    [rating_numeric] to the first decimal number of the [rating] string
    (digits, with a fraction when a point and digits follow): to the
    number that [float] reads of it.  It leaves [rating_numeric] absent
    ([NaN]) when the string is the sentinel ["No rating"] or holds no
    digit; a string with a digit has a first decimal number.  The
    digits are the decimal digits of Unicode, as [\d] and [float] have
    them. *)
Theorem rating_numeric_first_decimal
    (records : list RawRecord) (n : nat) (record : RawRecord) (rating : string) :
  records !! n = Some record ->
  assoc "rating" record = Some rating ->
  let out := run _extract_numeric_rating (DataFrame_of records) in
  fst out = Ok tt /\
  exists x,
    df_col "rating_numeric" (frame (snd out)) !! n = Some (CFloat x) /\
    (rating = "No rating" \/ no_digit rating = true -> x = NaN) /\
    (forall m i f, first_decimal_number rating m i f ->
       float_of_string m = Some x /\ x <> NaN) /\
    (no_digit rating = false -> exists m i f, first_decimal_number rating m i f).
Proof using Type.
  intros Hn Hrating.
  pose proof (DataFrame_of_column records "rating") as Hcol.
  assert (Hin : exists r, In r records /\ In "rating" (keys r))
    by (exists record; eauto using lookup_In, assoc_in_keys).
  specialize (Hcol Hin).
  assert (Hhas : df_has "rating" (DataFrame_of records) = true)
    by (unfold df_has; now rewrite Hcol).
  assert (Hlen : List.length (df_col "rating" (DataFrame_of records))
                 = df_index (DataFrame_of records))
    by (unfold df_col; rewrite Hcol; apply length_map).
  unfold run. rewrite (extract_numeric_rating_run _ _ Hhas Hlen).
  cbn [fst snd frame].
  split; [reflexivity|].
  exists (numeric_rating (CStr rating)). split; [|split; [|split]].
  - rewrite df_col_set_column. unfold df_col. rewrite Hcol.
    apply (lookup_map (fun r => CFloat (numeric_rating r))).
    erewrite lookup_map by exact Hn. now rewrite Hrating.
  - intros [-> | Hnone]; [reflexivity | now apply numeric_rating_no_digit].
  - intros m i f Hfirst.
    destruct (numeric_rating_first _ _ _ _ Hfirst)
      as (ai & af & _ & _ & _ & Hfloat & ->).
    split; [exact Hfloat | apply decimal_value_is_a_number].
  - apply first_decimal_number_exists.
Qed.

(** ** Parsing the text of a parsed rating again *)

(** A parsed rating is absent or the value of a decimal number. *)
Lemma numeric_rating_shape (rating : string) :
  numeric_rating (CStr rating) = NaN \/
  exists i f, all_digits i = true /\ all_digits f = true /\
              numeric_rating (CStr rating) = decimal_value i f.
Proof.
  unfold numeric_rating. simpl cell_str.
  destruct (_ && _); [|now left].
  destruct (search rating_pattern rating) as [g|] eqn:E; [|now left].
  apply search_some in E as [t Ht].
  apply decimal_number_shape in Ht as (i & f & Hi & Hne & Hf & ->).
  destruct (float_of_decimal_number i f Hi Hne Hf) as (ai & af & Hai & _ & Haf & E).
  rewrite E. right. exists ai, af. auto.
Qed.

(** The text [i.f] parses to the value of [i.f]. *)
Lemma numeric_rating_decimal_text (i f : string) :
  all_digits i = true -> i <> "" -> all_digits f = true -> f <> "" ->
  numeric_rating (CStr (i ++ "." ++ f)%string) = decimal_value i f.
Proof.
  intros Hi Hne Hf Hfne.
  assert (Hfirst : first_decimal_number (i ++ "." ++ f) (i ++ "." ++ f) i f).
  { exists ""%string, ""%string.
    split; [simpl; now rewrite append_empty_r|].
    repeat split; auto using ascii_digits_only. }
  rewrite (numeric_rating_search _ _ _ _ Hfirst).
  pose proof (float_of_ascii_decimal_number i f Hi Hne Hf) as E.
  destruct f as [|c f]; [congruence|]. cbn [truthy] in E. now rewrite E.
Qed.

(** The column that the method makes holds the [numeric_rating] of each
    string. *)
Lemma rating_numeric_column_map (ratings : list string) :
  rating_numeric_column ratings
  = map (fun r => CFloat (numeric_rating (CStr r))) ratings.
Proof.
  destruct ratings as [|r0 rest]; [reflexivity|].
  unfold rating_numeric_column.
  set (records := map (fun r => [("rating", r)]) (r0 :: rest)).
  pose proof (DataFrame_of_column records "rating") as Hcol.
  assert (Hin : exists r, In r records /\ In "rating" (keys r)).
  { exists [("rating", r0)]. split; [now left | now left]. }
  specialize (Hcol Hin).
  assert (Hhas : df_has "rating" (DataFrame_of records) = true)
    by (unfold df_has; now rewrite Hcol).
  assert (Hrating : df_col "rating" (DataFrame_of records) = map CStr (r0 :: rest)).
  { unfold df_col. rewrite Hcol. unfold records. rewrite map_map.
    apply map_ext. reflexivity. }
  assert (Hlen : List.length (df_col "rating" (DataFrame_of records))
                 = df_index (DataFrame_of records)).
  { rewrite Hrating. unfold records. cbn [df_index DataFrame_of].
    now rewrite !length_map. }
  unfold run. rewrite (extract_numeric_rating_run _ _ Hhas Hlen).
  cbn [snd frame]. rewrite df_col_set_column, Hrating, map_map. reflexivity.
Qed.

(** C9, as amended. Parsing is idempotent on the floats that [str]
    prints in positional notation: when [_extract_numeric_rating] makes
    the float [x] of the rating string [rating], and [x] is zero or lies
    from [1e-4] up to [1e16] (so that [str(x)] has no exponent), then it
    makes [x] again of the string [str(x)]. *)
Theorem numeric_rating_reparse (rating : string) (x : float) :
  rating_numeric_column [rating] = [CFloat x] ->
  positional x = true ->
  rating_numeric_column [float_str x] = [CFloat x].
Proof.
  rewrite !rating_numeric_column_map. cbn [map].
  intros [= Hx] Hpos. f_equal. f_equal.
  destruct (numeric_rating_shape rating) as [E | (i & f & Hi & Hf & E)];
    rewrite E in Hx; subst x; [discriminate Hpos|].
  unfold decimal_value in *.
  assert (Hd : all_digits (i ++ f)%string = true)
    by now rewrite all_digits_app, Hi, Hf.
  destruct (of_decimal_shape false (i ++ f)%string
              (Z.of_nat (String.length i)) Hd) as [E' | (ds & p & E' & Hs)];
    rewrite E' in *; [reflexivity|].
  simpl in Hpos. apply andb_true_iff in Hpos as [Hlo Hhi].
  destruct (float_str_positional ds p Hs) as (i' & f' & -> & Hi' & Hne' & Hf' & Hfne' & <-);
    [lia|].
  now apply numeric_rating_decimal_text.
Qed.

(** ** [_split_coordinates] on a string with one bad component *)

(** C5, at the input ["110.4,abc"]: the latitude is written before the
    longitude is read, so the row keeps the latitude 110.4 while the
    longitude is absent; the failure is logged and nothing is raised.
    The examples of the design behave as it says: both numbers for
    ["-6.9667,110.4167"], both absent for ["abc,110.4"] and for the
    sentinel. *)
Theorem split_coordinates_keeps_latitude :
  let out := run _split_coordinates
               (DataFrame_of [ [("coordinates", "110.4,abc")];
                               [("coordinates", "-6.9667,110.4167")];
                               [("coordinates", "abc,110.4")];
                               [("coordinates", "No coordinates")] ]) in
  fst out = Ok tt /\
  df_col "latitude" (frame (snd out))
  = [ CFloat (Finite false "1104" 3); CFloat (Finite true "69667" 1);
      CFloat NaN; CFloat NaN ] /\
  df_col "longitude" (frame (snd out))
  = [ CFloat NaN; CFloat (Finite false "1104167" 3);
      CFloat NaN; CFloat NaN ] /\
  map level (log (snd out)) = [WARNING; WARNING] /\
  map message (log (snd out))
  = [ "Failed to parse coordinates '110.4,abc': could not convert string to float: 'abc'";
      "Failed to parse coordinates 'abc,110.4': could not convert string to float: 'abc'" ].
Proof.
  cbv zeta. split; [reflexivity|].
  split; [vm_compute; reflexivity|].
  split; [vm_compute; reflexivity|].
  split; vm_compute; reflexivity.
Qed.

End Text.

(** ** Runs *)

#[local] Existing Instance SampleUnicode.database.

(** The examples of the design: ["4.5 stars"] gives 4.5, and the
    sentinel gives no number. *)
Lemma rating_numeric_examples :
  (let out := run _extract_numeric_rating
                (DataFrame_of [[("rating", "4.5 stars")]; [("rating", "No rating")]]) in
   fst out = Ok tt /\
   exists x y,
     df_col "rating_numeric" (frame (snd out)) !! 0%nat = Some (CFloat x) /\
     x = Finite false "45" 1 /\
     df_col "rating_numeric" (frame (snd out)) !! 1%nat = Some (CFloat y) /\
     y = NaN).
Proof.
  pose proof (rating_numeric_first_decimal
                [[("rating", "4.5 stars")]; [("rating", "No rating")]]
                0 [("rating", "4.5 stars")] "4.5 stars" eq_refl eq_refl)
    as (Hok & x & Hx & _ & Hfirst & _).
  pose proof (rating_numeric_first_decimal
                [[("rating", "4.5 stars")]; [("rating", "No rating")]]
                1 [("rating", "No rating")] "No rating" eq_refl eq_refl)
    as (_ & y & Hy & Hnone & _).
  split; [exact Hok|]. exists x, y.
  split; [exact Hx|]. split; [|split; [exact Hy | auto]].
  destruct (Hfirst "4.5" "4" "5") as [E _].
  - exists "", " stars".
    repeat split; try reflexivity; try discriminate.
    right. split; [discriminate | reflexivity].
  - vm_compute in E. now injection E.
Defined.

(** Rating strings with a small and with a large number: the float is
    printed with an exponent, and of that text the method makes the
    float of its first digits only. *)
Lemma numeric_rating_reparse_exponent :
  rating_numeric_column ["0.00001"] = [CFloat (Finite false "1" (-4))] /\
  float_str (Finite false "1" (-4)) = "1e-05" /\
  rating_numeric_column ["1e-05"] = [CFloat (Finite false "1" 1)] /\
  rating_numeric_column ["25000000000000000 views"]
  = [CFloat (Finite false "25" 17)] /\
  float_str (Finite false "25" 17) = "2.5e+16" /\
  rating_numeric_column ["2.5e+16"] = [CFloat (Finite false "25" 1)].
Proof. repeat split; vm_compute; reflexivity. Qed.

(** Digits beyond ASCII: the Arabic-Indic ["٤.٥"] is a decimal number
    for [\d] and for [float], and the rating is 4.5. *)
Lemma rating_numeric_beyond_ascii :
  rating_numeric_column ["٤.٥ نجوم"] = [CFloat (Finite false "45" 1)] /\
  float_of_string "٤.٥" = Some (Finite false "45" 1) /\
  no_digit "٤.٥ نجوم" = false.
Proof. repeat split; vm_compute; reflexivity. Qed.

Lemma numeric_rating_reparse_example :
  rating_numeric_column [float_str (Finite false "45" 1)]
  = [CFloat (Finite false "45" 1)].
Proof.
  apply (numeric_rating_reparse "4.5 stars"); vm_compute; reflexivity.
Defined.

End TransformFacts.

(* ================================================================== *)
(** * Facts about the loader and the pipeline *)
(* ================================================================== *)

Module LoadFacts.
Import PyStr Py Py.Notations Pandas DataLoader.

#[local] Existing Instance SampleUnicode.database.

(** C8. [load] on an empty frame returns [False]: it does not raise, it
    logs a warning, and it leaves the file system as it was, no file
    and no directory made or written. *)
Theorem load_empty_is_noop (data : DataFrame) (output_csv output_json : string)
    (st : State) :
  df_empty data = true ->
  load data output_csv output_json st
  = (Ok false,
     {| fs := fs st;
        log := (log st ++ [{| level := WARNING; message := "No data to load" |}])%list |}).
Proof.
  intros Hempty. unfold load. rewrite Hempty.
  unfold bind, logger, modify, ret. reflexivity.
Qed.

(** No records: the transformer hands over the empty frame, and the
    loader refuses it without touching the disk. *)
Lemma load_nothing :
  let st := {| fs := {| files := ∅; dirs := ∅; denied := ∅ |}; log := [] |} in
  fst (DataTransformer.run
         (DataTransformer.clean_and_transform Process.replace_with_None "now" [])
         empty_frame) = Ok empty_frame /\
  load empty_frame "output/semarang_coffee_shops.csv"
       "output/semarang_coffee_shops.json" st
  = (Ok false,
     {| fs := fs st;
        log := [{| level := WARNING; message := "No data to load" |}] |}).
Proof.
  split; [reflexivity|].
  apply (load_empty_is_noop empty_frame). reflexivity.
Defined.

End LoadFacts.

Module MainFacts.
Import PyStr Py Py.Notations Pandas Config Main.

Section Pipeline.
Context {S : Type}.
Variable extract : GoogleMapsConfig -> M S (list RawRecord).
Variable clean_and_transform : list RawRecord -> M S DataFrame.
Variable load : DataFrame -> string -> string -> M S bool.
Variable logger : Level -> string -> S -> S.

(** [run_pipeline] never returns [True]. *)
Lemma run_pipeline_not_true (config : Config.Config) (s : S) :
  exists v s', run_pipeline extract clean_and_transform load logger config s
               = (Ok v, s') /\ py_truthy v = false.
Proof using Type.
  unfold run_pipeline, bind at 1, modify at 1, try_except.
  set (s0 := logger INFO "Starting Google Maps ETL pipeline" s).
  unfold bind at 1.
  destruct (stages extract clean_and_transform load logger config s0)
    as [[[]|e] s1].
  - exists PyNone, s1. split; reflexivity.
  - eexists PyFalse, _. split; reflexivity.
Qed.

(** C1, on the code: whatever the stages do, [main] hands [1] to
    [sys.exit]; in particular when extract, transform and load all
    complete without raising, for [run_pipeline] then ends without a
    [return] and its [None] counts as failure. *)
Theorem main_always_exits_1 (config : Config.Config) (s : S) :
  fst (main extract clean_and_transform load logger config s) = Ok 1%Z /\
  (forall s1,
     stages extract clean_and_transform load logger config
            (logger INFO "Starting Google Maps ETL pipeline" s) = (Ok tt, s1) ->
     main extract clean_and_transform load logger config s = (Ok 1%Z, s1)).
Proof using Type.
  split.
  - destruct (run_pipeline_not_true config s) as (v & s' & Hrun & Hv).
    unfold main, bind. rewrite Hrun. simpl. now rewrite Hv.
  - intros s1 Hstages.
    unfold main, run_pipeline, bind, modify, try_except, ret.
    simpl. unfold bind in Hstages. now rewrite Hstages.
Qed.
End Pipeline.

End MainFacts.

(* ================================================================== *)
(** * Reasoning about what a computation returns *)
(* ================================================================== *)

Module Hoare.
Import Py Py.Notations.

Section Rules.
Context {S : Type}.

Lemma returns_ret {A} (a : A) (Q : A -> Prop) : Q a -> returns (S := S) (ret a) Q.
Proof. intros HQ s a' s' [= <- _]. exact HQ. Qed.

Lemma returns_raise {A} (e : exn) (Q : A -> Prop) : returns (S := S) (raise e) Q.
Proof. intros s a s' [=]. Qed.

Lemma returns_bind_run {A B} (m : M S A) (k : A -> M S B) (Q : B -> Prop) :
  (forall s a s', m s = (Ok a, s') -> returns (k a) Q) ->
  returns (bind m k) Q.
Proof.
  intros Hk s b s'. unfold bind.
  destruct (m s) as [[a|e] s1] eqn:E; [|discriminate].
  apply (Hk s a s1 E).
Qed.

Lemma returns_bind {A B} (m : M S A) (k : A -> M S B)
    (P : A -> Prop) (Q : B -> Prop) :
  returns m P -> (forall a, P a -> returns (k a) Q) -> returns (bind m k) Q.
Proof.
  intros Hm Hk. apply returns_bind_run. intros s a s' E.
  apply Hk, (Hm s a s' E).
Qed.

Lemma returns_bind_any {A B} (m : M S A) (k : A -> M S B) (Q : B -> Prop) :
  (forall a, returns (k a) Q) -> returns (bind m k) Q.
Proof. intros Hk. apply returns_bind_run. intros s a s' _. apply Hk. Qed.

Lemma returns_try_except {A} (body : M S A) (handler : exn -> M S A)
    (Q : A -> Prop) :
  returns body Q -> (forall e, returns (handler e) Q) ->
  returns (try_except body handler) Q.
Proof.
  intros Hb Hh s a s'. unfold try_except.
  destruct (body s) as [[a'|e] s1] eqn:E.
  - intros [= <- _]. apply (Hb s a' s1 E).
  - apply Hh.
Qed.

Lemma returns_for_return {X A} (xs : list X) (body : X -> M S (option A))
    (Q : A -> Prop) :
  (forall x, returns (body x) (when_some Q)) ->
  returns (for_return xs body) (when_some Q).
Proof.
  intros Hb. induction xs as [|x xs IH]; simpl.
  - now apply returns_ret.
  - apply (returns_bind _ _ (when_some Q)); [apply Hb|].
    intros [v|] Hv; [now apply returns_ret | exact IH].
Qed.

Lemma returns_weaken {A} (m : M S A) (P Q : A -> Prop) :
  returns m P -> (forall a, P a -> Q a) -> returns m Q.
Proof. intros Hm HPQ s a s' E. apply HPQ, (Hm s a s' E). Qed.
End Rules.

(** One step through the shape of the computation. *)
Ltac returns_step :=
  lazymatch goal with
  | |- returns (ret _) _ => apply returns_ret
  | |- returns (raise _) _ => apply returns_raise
  | |- returns (try_except _ _) _ => apply returns_try_except; [|intros ?]
  | |- returns (for_return _ _) (when_some _) => apply returns_for_return; intros ?
  | |- returns (bind _ _) _ => apply returns_bind_any; intros ?
  | |- returns (match ?x with _ => _ end) _ => destruct x eqn:?
  end.

End Hoare.

(* ================================================================== *)
(** * Facts about the coordinate patterns *)
(* ================================================================== *)

Module PatternFacts.
Import PyStr PyRe PyFloat Py Design StringFacts.

Section Text.
Context `{unicode : Unicode}.

Lemma has_char_app (c : ascii) (a b : string) :
  has_char c (a ++ b) = has_char c a || has_char c b.
Proof.
  induction a as [|x a IH]; simpl; [reflexivity|].
  rewrite IH. now rewrite orb_assoc.
Qed.

Lemma digit_not_comma (c : ascii) : is_digit c = true -> Ascii.eqb c "," = false.
Proof.
  destruct c as [[] [] [] [] [] [] [] []]; simpl; intros E;
    try discriminate E; reflexivity.
Qed.

(** The first byte of a decimal digit is an ASCII digit or the first
    byte of a longer code point. *)
Lemma leading_digit_first (c : ascii) (s : string) (d : ascii) :
  leading_digit (String c s) = Some d ->
  is_digit c = true \/ (nat_of_ascii c <? 192)%nat = false.
Proof.
  cbn [leading_digit]. unfold decimal_of, tail_length.
  destruct (nat_of_ascii c <? 192)%nat; [|now right].
  destruct (is_digit c); [now left | discriminate].
Qed.

Lemma leading_digit_not (x c : ascii) (s : string) (d : ascii) :
  is_digit x = false -> (nat_of_ascii x <? 192)%nat = true ->
  leading_digit (String c s) = Some d -> Ascii.eqb c x = false.
Proof.
  intros Hx Hlt Hd. destruct (Ascii.eqb_spec c x) as [->|]; [|reflexivity].
  destruct (leading_digit_first _ _ _ Hd); congruence.
Qed.

Lemma continuation_no_char (c : ascii) (t : string) :
  is_continuation c = false -> all_continuation t = true -> has_char c t = false.
Proof.
  intros Hc. induction t as [|x t IH]; simpl; [reflexivity|].
  intros [Hx Ht]%andb_true_iff. rewrite IH by assumption.
  destruct (Ascii.eqb_spec x c) as [->|]; [congruence | reflexivity].
Qed.

Lemma digits_no_comma (d : string) : digits_only d = true -> has_char "," d = false.
Proof.
  induction d as [|c d IH] using text_ind; [reflexivity|].
  rewrite digits_only_cons.
  destruct (leading_digit (String c d)) as [v|] eqn:Hv; [|discriminate].
  intros Hd. cbn [has_char].
  rewrite (leading_digit_not "," c d v eq_refl eq_refl Hv).
  rewrite <- (continuation_split (tail_length c) d), has_char_app, (IH Hd).
  now rewrite continuation_no_char by (auto using continuation_all).
Qed.

Lemma split_pair (a b : string) :
  has_char "," a = false -> has_char "," b = false ->
  split "," (a ++ "," ++ b) = [a; b].
Proof.
  intros Ha Hb.
  assert (Hsplit : split "," b = [b]).
  { clear Ha. induction b as [|x b IH]; simpl; [reflexivity|].
    simpl in Hb. apply orb_false_iff in Hb as [Hx Hb].
    now rewrite Hx, IH. }
  change (a ++ "," ++ b) with (a ++ String "," b).
  revert Ha. induction a as [|x a IH]; simpl; intros Ha.
  - now rewrite Hsplit.
  - apply orb_false_iff in Ha as [Hx Ha].
    now rewrite Hx, IH.
Qed.

Lemma lit_some (p s r : string) : lit p s = Some r -> s = p ++ r.
Proof.
  revert s. induction p as [|a p IH]; intros s; simpl.
  - now intros [= ->].
  - destruct s as [|b s]; [discriminate|].
    destruct (Ascii.eqb_spec a b) as [->|]; [|discriminate].
    intros E. now rewrite (IH s E).
Qed.

Lemma lit_minus_digit (s : string) :
  starts_with_digit s = true -> lit "-" s = None.
Proof.
  destruct s as [|c s]; [discriminate|]. unfold starts_with_digit.
  destruct (leading_digit (String c s)) as [d|] eqn:Hd; [|discriminate].
  intros _. pose proof (leading_digit_not "-" c s d eq_refl eq_refl Hd) as E.
  cbn [lit]. destruct (Ascii.eqb_spec "-" c) as [<-|]; [discriminate E | reflexivity].
Qed.

Lemma digits1_all (d : string) :
  digits_only d = true -> d <> "" -> digits1 d = Some (d, "").
Proof.
  intros Hd Hne. rewrite <- (append_empty_r d) at 1. now apply digits1_app.
Qed.

(** The text [i.f], with or without a minus, is a decimal from end to
    end. *)
Lemma signed_decimal_plain (i f : string) :
  digits_only i = true -> i <> "" -> digits_only f = true -> f <> "" ->
  signed_decimal (i ++ String "." f) = Some (i ++ String "." f, "").
Proof.
  intros Hi Hne Hf Hfne. unfold signed_decimal, optional_minus.
  rewrite lit_minus_digit by (now apply digits_start).
  rewrite digits1_app by (auto using point_not_digit).
  simpl. now rewrite digits1_all.
Qed.

Lemma signed_decimal_minus (i f : string) :
  digits_only i = true -> i <> "" -> digits_only f = true -> f <> "" ->
  signed_decimal (String "-" (i ++ String "." f))
  = Some (String "-" (i ++ String "." f), "").
Proof.
  intros Hi Hne Hf Hfne. unfold signed_decimal, optional_minus.
  simpl. rewrite digits1_app by (auto using point_not_digit).
  simpl. now rewrite digits1_all.
Qed.

(** What [-?\d+\.\d+] matches is a decimal, and holds no comma. *)
Lemma signed_decimal_text (s m r : string) :
  signed_decimal s = Some (m, r) ->
  is_decimal m = true /\ has_char "," m = false.
Proof.
  unfold signed_decimal at 1, optional_minus.
  destruct (lit "-" s) as [s'|] eqn:Es;
    (destruct (digits1 _) as [[i s2]|] eqn:Ei; [|discriminate];
     destruct (lit "." s2) as [s3|] eqn:Ep; [|discriminate];
     destruct (digits1 s3) as [[f r']|] eqn:Ef; [|discriminate];
     intros [= <- <-];
     apply digits1_some in Ei as (_ & Hi & Hne & _);
     apply digits1_some in Ef as (_ & Hf & Hfne & _);
     simpl; unfold is_decimal; split).
  - now rewrite signed_decimal_minus.
  - rewrite has_char_app. simpl.
    now rewrite (digits_no_comma i Hi), (digits_no_comma f Hf).
  - now rewrite signed_decimal_plain.
  - rewrite has_char_app. simpl.
    now rewrite (digits_no_comma i Hi), (digits_no_comma f Hf).
Qed.

(** The two groups of a coordinate pattern, joined by a comma, are
    well-formed coordinates. *)
Lemma decimal_pair_well_formed (pre sep t lat lng : string) :
  decimal_pair pre sep t = Some (lat, lng) ->
  well_formed_coordinates (lat ++ "," ++ lng) = true.
Proof.
  unfold decimal_pair.
  destruct (lit pre t) as [s1|]; [|discriminate].
  destruct (signed_decimal s1) as [[lat' s2]|] eqn:Elat; [|discriminate].
  destruct (lit sep s2) as [s3|]; [|discriminate].
  destruct (signed_decimal s3) as [[lng' r]|] eqn:Elng; [|discriminate].
  intros [= <- <-].
  apply signed_decimal_text in Elat as [Hlat Hclat].
  apply signed_decimal_text in Elng as [Hlng Hclng].
  unfold well_formed_coordinates, is_decimal_pair.
  rewrite split_pair, Hlat, Hlng by assumption.
  apply orb_true_r.
Qed.

Lemma search_pair_well_formed (pre sep s lat lng : string) :
  search (decimal_pair pre sep) s = Some (lat, lng) ->
  well_formed_coordinates (lat ++ "," ++ lng) = true.
Proof.
  intros [t Ht]%TransformFacts.search_some.
  eapply decimal_pair_well_formed, Ht.
Qed.

End Text.

End PatternFacts.

(* ================================================================== *)
(** * Facts about the extractor *)
(* ================================================================== *)

Module ExtractFacts.
Import PyStr PyRe Py Py.Notations Config Selenium GoogleMapsExtractor.
Import Design Hoare PatternFacts.

Section Browser.
Context {W : Type} `{Browser W} `{unicode : Unicode}.

Local Abbreviation St := (State W).

Lemma truthy_coordinates (lat lng : string) :
  truthy (coordinates_of lat lng) = true.
Proof. unfold coordinates_of. now destruct lat. Qed.

(** ** The text fields *)

Lemma first_text_returns (find : Locator -> M St WebElement)
    (selectors : list Locator) (sentinel : string) :
  returns (first_text find selectors sentinel) (text_or_sentinel sentinel).
Proof.
  unfold first_text.
  apply (returns_bind _ _ (when_some (fun t => truthy t = true))).
  - repeat returns_step; simpl; auto.
  - intros [t|] Ht; apply returns_ret; [right; exact Ht | now left].
Qed.

Lemma extract_name_returns :
  returns (_extract_name (W := W)) (text_or_sentinel "No name").
Proof. unfold _extract_name. returns_step. apply first_text_returns. Qed.

Lemma extract_address_returns :
  returns (_extract_address (W := W)) (text_or_sentinel "No address").
Proof. apply first_text_returns. Qed.

Lemma extract_rating_returns :
  returns (_extract_rating (W := W)) (text_or_sentinel "No rating").
Proof. apply first_text_returns. Qed.

(** ** The coordinates, method by method *)

Lemma re_search_returns (pre sep : string) (text : option string) :
  returns (S := St) (re_search (decimal_pair pre sep) text)
    (when_some (fun '(lat, lng) =>
       well_formed_coordinates (coordinates_of lat lng) = true)).
Proof.
  destruct text as [s|]; simpl; [|apply returns_raise].
  apply returns_ret.
  destruct (search (decimal_pair pre sep) s) as [[lat lng]|] eqn:E; simpl; [|exact I].
  eapply search_pair_well_formed, E.
Qed.

Lemma share_link_returns :
  returns (coordinates_from_share_link (W := W))
    (when_some (fun c => well_formed_coordinates c = true)).
Proof.
  unfold coordinates_from_share_link.
  returns_step; [|now apply returns_ret].
  returns_step.
  apply (returns_bind _ _ (when_some (fun c => well_formed_coordinates c = true))).
  - returns_step. returns_step; [|now apply returns_ret].
    returns_step. returns_step.
    eapply returns_bind; [apply re_search_returns|].
    intros [[lat lng]|] Hm; simpl in Hm.
    + returns_step. now apply returns_ret.
    + eapply returns_bind; [apply re_search_returns|].
      intros [[lat lng]|] Hm'; simpl in Hm';
        returns_step; now apply returns_ret.
  - intros [c|] Hc; [now apply returns_ret|].
    returns_step. now apply returns_ret.
Qed.

Lemma scripts_returns :
  returns (coordinates_from_scripts (W := W))
    (when_some (fun c => well_formed_coordinates c = true)).
Proof.
  unfold coordinates_from_scripts.
  returns_step; [|now apply returns_ret].
  returns_step. returns_step.
  returns_step; [|now apply returns_ret].
  returns_step.
  eapply returns_bind; [apply re_search_returns|].
  intros [[lat lng]|] Hm; simpl in Hm; now apply returns_ret.
Qed.

Lemma both_truthy_some (lat lng : option string) (a b : string) :
  both_truthy lat lng = Some (a, b) ->
  lat = Some a /\ lng = Some b /\ truthy a = true /\ truthy b = true.
Proof.
  destruct lat as [x|], lng as [y|]; simpl; try discriminate.
  destruct (truthy x) eqn:Ex, (truthy y) eqn:Ey; simpl; try discriminate.
  intros [= <- <-]. auto.
Qed.

Lemma meta_returns :
  returns (coordinates_from_meta (W := W)) (when_some joined_texts).
Proof.
  unfold coordinates_from_meta.
  returns_step; [|now apply returns_ret].
  returns_step. returns_step.
  returns_step; [|now apply returns_ret].
  returns_step.
  assert (Hnone : returns (S := St) (ret (None : option string))
                    (when_some joined_texts)) by now apply returns_ret.
  destruct (attribute_is _ _); [|exact Hnone].
  returns_step. returns_step. returns_step.
  destruct (both_truthy _ _) as [[lat lng]|] eqn:E; [|exact Hnone].
  apply both_truthy_some in E as (_ & _ & Hlat & Hlng).
  apply returns_ret. exists lat, lng. auto.
Qed.

(** Every value of [_extract_coordinates] is well-formed, unless it is
    what the meta tags gave. *)
Lemma extract_coordinates_returns :
  returns (_extract_coordinates (W := W))
    (fun c => well_formed_coordinates c = true \/
              exists st st', coordinates_from_meta st = (Ok (Some c), st')).
Proof.
  unfold _extract_coordinates. returns_step.
  destruct (search at_pattern a) as [[lat lng]|] eqn:E.
  - apply returns_ret. left. eapply search_pair_well_formed, E.
  - eapply returns_bind; [apply share_link_returns|].
    intros [c|] Hc; [apply returns_ret; now left|].
    eapply returns_bind; [apply scripts_returns|].
    intros [c|] Hc'; [apply returns_ret; now left|].
    apply returns_bind_run. intros st [c|] st' Hmeta; apply returns_ret.
    + right. eauto.
    + now left.
Qed.

Lemma extract_coordinates_text :
  returns (_extract_coordinates (W := W)) (text_or_sentinel "No coordinates").
Proof.
  eapply returns_weaken; [apply extract_coordinates_returns|].
  intros c [Hc | (st & st' & Hmeta)].
  - right. destruct c; [discriminate Hc | reflexivity].
  - right. destruct (meta_returns _ _ _ Hmeta) as (lat & lng & _ & _ & ->).
    apply truthy_coordinates.
Qed.

(** ** The record of a card *)

Lemma place_details_returns (card : WebElement) :
  returns (place_details (W := W) card) carries_all_fields.
Proof.
  unfold place_details. do 5 returns_step.
  eapply returns_bind; [apply extract_name_returns | intros name Hname].
  eapply returns_bind; [apply extract_address_returns | intros address Haddress].
  eapply returns_bind; [apply extract_rating_returns | intros rating Hrating].
  eapply returns_bind; [apply extract_coordinates_text | intros coordinates Hc].
  apply returns_ret. unfold carries_all_fields. simpl.
  repeat split; eexists; split; try reflexivity; assumption.
Qed.

Lemma extract_single_place_returns (idx : nat) (card : WebElement) :
  returns (_extract_single_place (W := W) idx card) (when_some carries_all_fields).
Proof.
  unfold _extract_single_place. returns_step.
  - eapply returns_bind; [apply place_details_returns | intros place_data Hp].
    do 2 returns_step. now apply returns_ret.
  - returns_step. now apply returns_ret.
Qed.

Lemma card_loop_returns (cards : list WebElement) :
  forall (idx : nat) (results : list RawRecord),
    Forall carries_all_fields results ->
    returns (card_loop (W := W) idx cards results) (Forall carries_all_fields).
Proof.
  induction cards as [|card cards IH]; intros idx results Hres; simpl.
  - now apply returns_ret.
  - eapply returns_bind; [|intros results' Hres'; apply IH, Hres'].
    returns_step; [|now apply returns_ret].
    eapply returns_bind; [apply extract_single_place_returns|].
    intros [[|kv r]|] Hp; simpl; try now apply returns_ret.
    returns_step. apply returns_ret.
    apply Forall_app. split; [exact Hres | now constructor].
Qed.

(** A record with its four fields is a truthy [dict]. *)
Lemma record_truthy_fields (r : RawRecord) :
  carries_all_fields r -> record_truthy (Some r) = Some r.
Proof. intros [Hk _]. destruct r; [discriminate Hk | reflexivity]. Qed.

(** ** What leaves [self.results] alone *)

Lemma keeps_ret {A} (a : A) : keeps_results (W := W) (ret a).
Proof. now intros st r st' [= _ <-]. Qed.

Lemma keeps_raise {A} (e : exn) : keeps_results (W := W) (A := A) (raise e).
Proof. now intros st r st' [= _ <-]. Qed.

Lemma keeps_bind {A B} (m : M St A) (k : A -> M St B) :
  keeps_results m -> (forall a, keeps_results (k a)) -> keeps_results (bind m k).
Proof.
  intros Hm Hk st r st'. unfold bind.
  destruct (m st) as [[a|e] s1] eqn:E.
  - intros Hka. rewrite (Hk a s1 r st' Hka). apply (Hm st _ s1 E).
  - intros [= _ <-]. apply (Hm st _ s1 E).
Qed.

Lemma keeps_try_except {A} (body : M St A) (handler : exn -> M St A) :
  keeps_results body -> (forall e, keeps_results (handler e)) ->
  keeps_results (try_except body handler).
Proof.
  intros Hb Hh st r st'. unfold try_except.
  destruct (body st) as [[a|e] s1] eqn:E.
  - intros [= _ <-]. apply (Hb st _ s1 E).
  - intros Hhe. rewrite (Hh e s1 r st' Hhe). apply (Hb st _ s1 E).
Qed.

Lemma keeps_lift {A} (m : M W A) : keeps_results (lift m).
Proof.
  intros st r st'. unfold lift. destruct (m (world st)).
  now intros [= _ <-].
Qed.

Lemma keeps_with_driver {A} (f : nat -> M W A) : keeps_results (with_driver f).
Proof.
  intros st r st'. unfold with_driver.
  destruct (driver (self st)); [apply keeps_lift | now intros [= _ <-]].
Qed.

Lemma keeps_sleep (seconds : Z) : keeps_results (W := W) (sleep seconds).
Proof. unfold sleep. destruct (_ <? _)%Z; [apply keeps_raise | apply keeps_ret]. Qed.

Lemma keeps_self_config : keeps_results (self_config (W := W)).
Proof. now intros st r st' [= _ <-]. Qed.

Lemma keeps_for_return {X A} (xs : list X) (body : X -> M St (option A)) :
  (forall x, keeps_results (body x)) -> keeps_results (for_return xs body).
Proof.
  intros Hb. induction xs as [|x xs IH]; simpl; [apply keeps_ret|].
  apply keeps_bind; [apply Hb|]. intros [v|]; [apply keeps_ret | exact IH].
Qed.

Lemma keeps_for_each {X} (xs : list X) (body : X -> M St unit) :
  (forall x, keeps_results (body x)) -> keeps_results (for_each xs body).
Proof.
  intros Hb. induction xs as [|x xs IH]; simpl; [apply keeps_ret|].
  apply keeps_bind; [apply Hb | intros _; exact IH].
Qed.

(** One step through the shape of a computation that keeps the
    results. *)
Ltac keeps_step :=
  lazymatch goal with
  | |- keeps_results (ret _) => apply keeps_ret
  | |- keeps_results (raise _) => apply keeps_raise
  | |- keeps_results (sleep _) => apply keeps_sleep
  | |- keeps_results self_config => apply keeps_self_config
  | |- keeps_results (lift _) => apply keeps_lift
  | |- keeps_results (with_driver _) => apply keeps_with_driver
  | |- keeps_results (try_except _ _) => apply keeps_try_except; [|intros ?]
  | |- keeps_results (for_return _ _) => apply keeps_for_return; intros ?
  | |- keeps_results (for_each _ _) => apply keeps_for_each; intros ?
  | |- keeps_results (bind _ _) => apply keeps_bind; [|intros ?]
  | |- keeps_results (match ?x with _ => _ end) => destruct x
  end.

Lemma keeps_setup_driver : keeps_results (setup_driver (W := W)).
Proof.
  unfold setup_driver. repeat keeps_step.
  now intros st r st' [= _ <-].
Qed.

Lemma keeps_navigate : keeps_results (navigate_to_google_maps (W := W)).
Proof. unfold navigate_to_google_maps. repeat keeps_step. Qed.

Lemma keeps_search : keeps_results (search_for_places (W := W)).
Proof. unfold search_for_places, _find_search_box. repeat keeps_step. Qed.

Lemma keeps_scroll : keeps_results (scroll_results (W := W)).
Proof. unfold scroll_results. repeat keeps_step. Qed.

Lemma keeps_find_cards (selectors : list string) :
  keeps_results (find_cards (W := W) selectors).
Proof.
  induction selectors as [|sel selectors IH]; simpl; [apply keeps_ret|].
  keeps_step; [keeps_step|]. destruct a; [exact IH | apply keeps_ret].
Qed.

(** The loop over the cards catches what a card raises. *)
Lemma card_loop_returns_always (cards : list WebElement) :
  forall (idx : nat) (acc : list RawRecord) (st : St),
    exists rs st', card_loop idx cards acc st = (Ok rs, st').
Proof.
  induction cards as [|card cards IH]; intros idx acc st; simpl.
  - eexists _, _. reflexivity.
  - unfold bind at 1, try_except.
    destruct (bind (_extract_single_place idx card) _ st) as [[rs|e] s1];
      unfold ret; apply IH.
Qed.

Lemma raising_keeps_of_keeps {A} (m : M St A) :
  keeps_results m -> raising_keeps_results m.
Proof. intros Hm st e st'. apply Hm. Qed.

Lemma raising_keeps_bind {A B} (m : M St A) (k : A -> M St B) :
  keeps_results m -> (forall a, raising_keeps_results (k a)) ->
  raising_keeps_results (bind m k).
Proof.
  intros Hm Hk st e st'. unfold bind.
  destruct (m st) as [[a|e'] s1] eqn:E.
  - intros Hka. rewrite (Hk a s1 e st' Hka). apply (Hm st _ s1 E).
  - intros [= _ <-]. apply (Hm st _ s1 E).
Qed.

(** When the body of the [try] of [extract] raises, [self.results] is
    what it was when [extract] was called: the exceptions of a card stay
    in the loop, and what raises outside the loop raises before the
    first card or while the cards are looked up. *)
Lemma extraction_raising_keeps_results :
  raising_keeps_results (extraction (W := W)).
Proof.
  unfold extraction.
  apply raising_keeps_bind; [apply keeps_setup_driver | intros _].
  apply raising_keeps_bind; [apply keeps_navigate | intros _].
  apply raising_keeps_bind; [apply keeps_search | intros _].
  apply raising_keeps_bind; [apply keeps_scroll | intros _].
  unfold extract_place_cards.
  apply raising_keeps_bind; [apply keeps_with_driver | intros cards].
  apply raising_keeps_bind.
  - destruct cards; [apply keeps_find_cards | apply keeps_ret].
  - intros [|card' cards'] st e st'; [discriminate|].
    destruct (card_loop_returns_always (card' :: cards') 0 [] st) as (rs & s1 & E).
    rewrite E. discriminate.
Qed.

(** ** The claims about the extractor *)


(** C7. Every record that [_extract_single_place] returns has the
    four keys [name], [address], [rating], [coordinates] and no other,
    each with a text that is not empty or with its sentinel; and so
    has every record of the list that [extract_place_cards] returns. *)
Theorem records_carry_all_fields (idx : nat) (card : WebElement) :
  returns (_extract_single_place (W := W) idx card)
          (when_some carries_all_fields) /\
  returns (extract_place_cards (W := W)) (Forall carries_all_fields).
Proof.
  split; [apply extract_single_place_returns|].
  unfold extract_place_cards. do 2 returns_step.
  destruct a0; [now apply returns_ret|].
  apply card_loop_returns. constructor.
Qed.

(** When a card could not be read, the return to the list failed and
    the restart completed, there is no record to append, and the loop
    goes on with the cards of the old list. *)
Lemma card_loop_after_failed_card
    (idx : nat) (card : WebElement) (rest : list WebElement)
    (results : list RawRecord) (e : exn) (st st1 st2 st3 : St) :
  place_details card st = (Raise e, st1) ->
  _go_back_to_list st1 = (Ok false, st2) ->
  _restart_browser_and_search st2 = (Ok tt, st3) ->
  card_loop idx (card :: rest) results st = card_loop (S idx) rest results st3.
Proof using Type.
  intros Hdetails Hback Hrestart.
  cbn [card_loop]. unfold bind at 1, try_except at 1, bind at 1.
  unfold _extract_single_place, try_except at 1, bind at 1.
  rewrite Hdetails. unfold bind at 1, try_except at 1, bind at 1.
  rewrite Hback. cbn [negb]. rewrite Hrestart.
  unfold ret. reflexivity.
Qed.

(** C10. When the body of the [try] of [extract] raises while
    [self.results] is empty, [extract] raises the same exception again
    after closing the driver; and however the body raises, [extract]
    does not return an empty list. *)
Theorem extract_reraises_when_empty (st st1 : St) (e : exn) :
  extraction st = (Raise e, st1) ->
  (results (self st1) = [] -> extract st = (Raise e, snd (close st1))) /\
  fst (extract st) <> Ok [].
Proof using Type.
  intros Hraise.
  assert (Hclose : forall r : Result (list RawRecord),
            try_finally (fun s => (r, s)) close st1 = (r, snd (close st1))).
  { intros r. unfold try_finally, close.
    destruct (driver (self st1)); reflexivity. }
  unfold extract, try_finally, try_except. rewrite Hraise.
  unfold bind, self_results. cbn [fst snd].
  destruct (results (self st1)) as [|first more] eqn:Hresults.
  - unfold raise. specialize (Hclose (Raise e)).
    unfold try_finally in Hclose. rewrite Hclose.
    split; [reflexivity | discriminate].
  - unfold ret. specialize (Hclose (Ok (first :: more))).
    unfold try_finally in Hclose. rewrite Hclose.
    split; [discriminate | cbn; discriminate].
Qed.
(** X1. A new extractor (no record of an earlier call in
    [self.results]) never returns partial results: when the body of the
    [try] of [extract] raises, [self.results] is still empty and
    [extract] raises the same exception.  The branch that returns the
    collected records is taken only for records that an earlier call of
    [extract] left in the object. *)
Theorem new_extractor_returns_no_partial_results (st st1 : St) (e : exn) :
  results (self st) = [] ->
  extraction st = (Raise e, st1) ->
  results (self st1) = [] /\ extract st = (Raise e, snd (close st1)).
Proof using Type.
  intros Hnew Hraise.
  pose proof (extraction_raising_keeps_results st e st1 Hraise) as Hkept.
  rewrite Hnew in Hkept. split; [exact Hkept|].
  unfold extract, try_finally, try_except. rewrite Hraise.
  unfold bind, self_results. rewrite Hkept. unfold raise.
  unfold close. destruct (driver (self st1)); reflexivity.
Qed.

End Browser.

End ExtractFacts.

(* ================================================================== *)
(** * Runs in front of the scripted browser *)
(* ================================================================== *)

Module Runs.
Import PyStr PyRe Py Py.Notations Config Selenium GoogleMapsExtractor.
Import Design Scripted ExtractFacts.

#[local] Existing Instance SampleUnicode.database.


(** A site without a way back to the list: after the first card the
    browser is restarted (session 1), and the card that is opened next,
    by session 1, is the second handle of the list that session 0 had
    fetched.  No list is fetched after the restart, the stale card gives
    no record, and the run ends with the first record alone. *)
Lemma cards_are_not_fetched_again :
  let out := extract (start cfg dead_end_site) in
  let t := trace (world (snd out)) in
  fst out = Ok [kopi] /\
  fetched_lists t = [(0, [first_card; second_card])] /\
  started t = [0; 1; 2] /\
  opened t = [(0, first_card); (1, second_card)] /\
  refetched [] t = false.
Proof. repeat split; vm_compute; reflexivity. Qed.

(** A new extractor in front of the same page: [extract] raises what the
    search raised. *)
Lemma extract_reraises_when_empty_run :
  let st := start cfg no_search_box_site in
  extract st = (Raise (Exception "Could not find search box with any selector"),
                snd (close (snd (extraction st)))) /\
  fst (extract st) <> Ok [].
Proof.
  cbv zeta.
  destruct (extract_reraises_when_empty
              (start cfg no_search_box_site)
              (snd (extraction (start cfg no_search_box_site)))
              (Exception "Could not find search box with any selector"))
    as [Hraise Hnot_empty].
  - vm_compute; reflexivity.
  - split; [apply Hraise; vm_compute; reflexivity | exact Hnot_empty].
Defined.

(** A new extractor in front of the page without a search box. *)
Lemma new_extractor_returns_no_partial_results_run :
  let st := start cfg no_search_box_site in
  results (self (snd (extraction st))) = [] /\
  extract st = (Raise (Exception "Could not find search box with any selector"),
                snd (close (snd (extraction st)))).
Proof.
  cbv zeta.
  apply (new_extractor_returns_no_partial_results
           (start cfg no_search_box_site)
           (snd (extraction (start cfg no_search_box_site)))
           (Exception "Could not find search box with any selector"));
    vm_compute; reflexivity.
Defined.

(** A run without trouble: two cards, two records with all their
    fields. *)
Lemma plain_run :
  fst (extract (start cfg plain_site)) = Ok [kopi; kopi].
Proof. vm_compute; reflexivity. Qed.

(** The whole process in front of that site: both files are written,
    and the process exits with status 1. *)
Lemma successful_run_exits_1 :
  let out := Process.main "2024-05-01 10:00:00" Process.config
               (Process.boot plain_site) in
  fst out = Ok 1%Z /\
  (exists df, DataLoader.files (Process.disk (snd out))
                !! "output/semarang_coffee_shops.csv" = Some (DataLoader.CsvOf df)
              /\ Pandas.df_index df = 2%nat) /\
  (exists df, DataLoader.files (Process.disk (snd out))
                !! "output/semarang_coffee_shops.json"
              = Some (DataLoader.JsonLinesOf df)
              /\ Pandas.df_index df = 2%nat) /\
  map level (Process.log (snd out))
  = [INFO; INFO; INFO; INFO; INFO; INFO; INFO; INFO; INFO].
Proof.
  cbv zeta. split; [vm_compute; reflexivity|].
  split; [eexists; split; vm_compute; reflexivity|].
  split; [eexists; split; vm_compute; reflexivity|].
  vm_compute; reflexivity.
Qed.

End Runs.

(* ================================================================== *)
(** * Facts about the saves of the loader *)
(* ================================================================== *)

Module SaveFacts.
Import PyStr Py Py.Notations Pandas DataLoader.

Lemma ancestors_self (n : nat) (d : string) : d ∈ ancestors n d.
Proof.
  destruct n as [|n]; simpl; [set_solver|].
  destruct (_ || _); set_solver.
Qed.

Ltac save_cases :=
  unfold try_except, bind at 1, makedirs, saved, writable;
  match goal with
  | |- context [decide (?d ∈ denied (fs ?st))] =>
      destruct (decide (d ∈ denied (fs st)))
  end;
  [|unfold bind at 1, write_file; cbn [fs denied];
    match goal with
    | |- context [decide (?p ∈ denied (fs ?st))] =>
        destruct (decide (p ∈ denied (fs st)))
    end];
  (eexists _, _; split; [reflexivity|]; cbn;
   repeat split; try done; try tauto; try set_solver;
   try (eexists; split; reflexivity);
   try (intros _; apply elem_of_union_r, elem_of_list_to_set, ancestors_self)).

Lemma save_to_csv_run (data : DataFrame) (path : string) (st : State) :
  exists b st', save_to_csv data path st = (Ok b, st') /\
                saved (CsvOf data) path st b st'.
Proof. unfold save_to_csv. save_cases. Qed.

Lemma save_to_json_run (data : DataFrame) (path : string) (st : State) :
  exists b st', save_to_json data path st = (Ok b, st') /\
                saved (JsonLinesOf data) path st b st'.
Proof. unfold save_to_json. save_cases. Qed.

(** [load] on a frame with rows and columns: the two saves, one after
    the other, whatever the first returns. *)
Lemma load_run (data : DataFrame) (output_csv output_json : string) (st : State) :
  df_empty data = false ->
  exists csv_success json_success st1 st2,
    load data output_csv output_json st = (Ok (csv_success && json_success), st2) /\
    saved (CsvOf data) output_csv st csv_success st1 /\
    saved (JsonLinesOf data) output_json st1 json_success st2.
Proof.
  intros Hdata. unfold load. rewrite Hdata.
  destruct (save_to_csv_run data output_csv st) as (b1 & st1 & E1 & H1).
  destruct (save_to_json_run data output_json st1) as (b2 & st2 & E2 & H2).
  exists b1, b2, st1, st2. unfold bind. rewrite E1, E2. auto.
Qed.

Lemma load_writes_both
    (data : DataFrame) (output_csv output_json : string) (st : State) :
  df_empty data = false ->
  writable output_csv (fs st) -> writable output_json (fs st) ->
  output_csv <> output_json ->
  exists st',
    load data output_csv output_json st = (Ok true, st') /\
    files (fs st') !! output_csv = Some (CsvOf data) /\
    files (fs st') !! output_json = Some (JsonLinesOf data).
Proof.
  intros Hdata Hc Hj Hne.
  destruct (load_run data output_csv output_json st Hdata)
    as (b1 & b2 & st1 & st2 & -> & H1 & H2).
  destruct H1 as (Hb1 & Hden1 & Hfiles1 & _).
  destruct H2 as (Hb2 & _ & Hfiles2 & _).
  unfold writable in *. rewrite Hden1 in Hb2.
  apply Hb1 in Hc. apply Hb2 in Hj. subst b1 b2.
  exists st2. split; [reflexivity|]. rewrite Hfiles2, Hfiles1. split.
  - rewrite lookup_insert_ne by congruence. apply lookup_insert_eq.
  - apply lookup_insert_eq.
Qed.


End SaveFacts.

(* ================================================================== *)
(** * Facts about the transformation as a whole *)
(* ================================================================== *)

Module StageFacts.
Import PyStr PyRe PyFloat Py Py.Notations Pandas DataTransformer Transformed.
Import Design StringFacts FrameFacts.
#[local] Open Scope list_scope.

Section Text.
Context `{unicode : Unicode}.

Lemma assoc_set_swap {V} (k k' : string) (v v0 v' : V) (l : list (string * V)) :
  k <> k' ->
  assoc_set k v (assoc_set k' v' (assoc_set k v0 l))
  = assoc_set k' v' (assoc_set k v l).
Proof.
  intros Hne. induction l as [|[k0 w] l IH]; simpl.
  - destruct (String.eqb_spec k k') as [|_]; [contradiction|]. simpl.
    now rewrite String.eqb_refl.
  - destruct (String.eqb_spec k0 k) as [->|Hk]; simpl.
    + destruct (String.eqb_spec k k') as [|_]; [contradiction|]. simpl.
      now rewrite String.eqb_refl.
    + destruct (String.eqb_spec k0 k') as [->|Hk']; simpl.
      * destruct (String.eqb_spec k' k) as [E|_]; [congruence|].
        now rewrite assoc_set_twice.
      * destruct (String.eqb_spec k0 k) as [|_]; [contradiction|].
        now rewrite IH.
Qed.

Lemma df_set_column_swap (k k' : string) (c c0 c' : list cell) (df : DataFrame) :
  k <> k' ->
  df_set_column k c (df_set_column k' c' (df_set_column k c0 df))
  = df_set_column k' c' (df_set_column k c df).
Proof.
  intros Hne. unfold df_set_column. simpl. now rewrite assoc_set_swap.
Qed.

Lemma df_at_set_under (idx : nat) (k k' : string) (v : cell) (c c' : list cell)
    (df : DataFrame) :
  k <> k' ->
  df_at_set idx k v (df_set_column k' c' (df_set_column k c df))
  = df_set_column k' c' (df_set_column k (<[idx := v]> c) df).
Proof.
  intros Hne. unfold df_at_set.
  change (assoc k (df_columns ?d)) with (assoc k (df_columns d)).
  assert (E : assoc k (df_columns (df_set_column k' c' (df_set_column k c df)))
              = Some c).
  { unfold df_set_column. simpl.
    rewrite assoc_set_other by congruence. apply assoc_set_same. }
  rewrite E. now apply df_set_column_swap.
Qed.

Lemma df_set_scalar_column (k : string) (v : cell) (df : DataFrame) :
  df_set_scalar k v df = df_set_column k (repeat v (df_index df)) df.
Proof. reflexivity. Qed.

Lemma pure_split_comma (coord : cell) (st : State) :
  split_comma coord st = (outcome (split_comma coord), st).
Proof. destruct coord; reflexivity. Qed.

Lemma pure_unpack2 (parts : list string) (st : State) :
  unpack2 parts st = (outcome (unpack2 parts), st).
Proof. destruct parts as [|a [|b [|c parts]]]; reflexivity. Qed.

Lemma pure_float (s : string) (st : State) :
  float_ s st = (outcome (float_ s), st).
Proof. unfold outcome, float_. destruct (float_of_string s); reflexivity. Qed.

Lemma latitude_of_two (lats lngs : list cell) (df : DataFrame) :
  df_col "latitude" (two_columns lats lngs df) = lats.
Proof. rewrite df_col_other by discriminate. apply df_col_set_column. Qed.

Lemma longitude_of_two (lats lngs : list cell) (df : DataFrame) :
  df_col "longitude" (two_columns lats lngs df) = lngs.
Proof. apply df_col_set_column. Qed.

Lemma latitude_in_two (lats lats' lngs : list cell) (df : DataFrame) :
  df_set_column "latitude" lats' (two_columns lats lngs df)
  = two_columns lats' lngs df.
Proof. now apply df_set_column_swap. Qed.

Lemma longitude_in_two (lats lngs lngs' : list cell) (df : DataFrame) :
  df_set_column "longitude" lngs' (two_columns lats lngs df)
  = two_columns lats lngs' df.
Proof. apply df_set_column_twice. Qed.

Lemma coordinates_step_columns (coord : cell)
    (lats lngs rest_lats rest_lngs : list cell) (df0 : DataFrame)
    (l : list LogRecord) :
  List.length lngs = List.length lats ->
  coordinates_step (List.length lats) coord
    {| frame := two_columns (lats ++ CNone :: rest_lats) (lngs ++ CNone :: rest_lngs) df0;
       log := l |}
  = (Ok tt,
     {| frame := two_columns (lats ++ fst (fst (coordinates_written coord)) :: rest_lats)
                             (lngs ++ snd (fst (coordinates_written coord)) :: rest_lngs)
                             df0;
        log := l ++ warning_of coord |}).
Proof.
  intros Hlen. unfold coordinates_step, warning_of, coordinates_written.
  destruct (cell_truthy coord && cell_ne_str coord "No coordinates");
    [|cbn; now rewrite app_nil_r].

  unfold try_except, bind at 1. rewrite pure_split_comma.
  destruct (outcome (split_comma coord)) as [parts|e];
    [|reflexivity].
  unfold bind at 1. rewrite pure_unpack2.
  destruct (outcome (unpack2 parts)) as [[lat lng]|e];
    [|reflexivity].
  unfold bind at 1. rewrite pure_float.
  destruct (outcome (float_ lat)) as [x|e];
    [|reflexivity].
  unfold bind at 1, update_frame at 1, modify at 1. cbn [frame log].
  rewrite df_at_set_under, insert_at_end by discriminate.
  unfold bind at 1. rewrite pure_float.
  destruct (outcome (float_ lng)) as [y|e]; cbn [fst snd].
  - unfold update_frame, modify. cbn [frame log].
    rewrite df_at_set_column, <- Hlen, insert_at_end, app_nil_r. reflexivity.
  - reflexivity.
Qed.

Lemma coordinates_loop (xs : list cell) :
  forall (lats lngs : list cell) (df0 : DataFrame) (l : list LogRecord),
    List.length lngs = List.length lats ->
    for_each (enumerate_from (List.length lats) xs)
             (fun '(idx, coord) => coordinates_step idx coord)
      {| frame := two_columns (lats ++ repeat CNone (List.length xs))
                              (lngs ++ repeat CNone (List.length xs)) df0;
         log := l |}
    = (Ok tt,
       {| frame := two_columns
                     (lats ++ map (fun c => fst (fst (coordinates_written c))) xs)
                     (lngs ++ map (fun c => snd (fst (coordinates_written c))) xs)
                     df0;
          log := l ++ flat_map warning_of xs |}).
Proof.
  induction xs as [|x xs IH]; intros lats lngs df0 l Hlen.
  - cbn. now rewrite !app_nil_r.
  - cbn [enumerate_from for_each List.length repeat map flat_map].
    unfold bind at 1. rewrite coordinates_step_columns by assumption.
    specialize (IH (lats ++ [fst (fst (coordinates_written x))])
                   (lngs ++ [snd (fst (coordinates_written x))]) df0
                   (l ++ warning_of x)).
    rewrite !length_app in IH. cbn [List.length] in IH.
    rewrite !Nat.add_1_r, <- !app_assoc in IH. cbn [app] in IH.
    apply IH. now rewrite Hlen.
Qed.

(** [_split_coordinates] on a frame whose [coordinates] column is as
    long as its index. *)
Lemma split_coordinates_run (df : DataFrame) (l : list LogRecord) :
  df_has "coordinates" df = true ->
  List.length (df_col "coordinates" df) = df_index df ->
  _split_coordinates {| frame := df; log := l |}
  = (Ok tt,
     {| frame := two_columns (map latitude_of (df_col "coordinates" df))
                             (map longitude_of (df_col "coordinates" df)) df;
        log := l ++ flat_map warning_of (df_col "coordinates" df) |}).
Proof.
  intros Hhas Hlen. unfold _split_coordinates, bind at 1, get_frame.
  cbn [frame]. rewrite Hhas.
  unfold bind at 1, update_frame at 1, modify at 1. cbn [frame log].
  unfold bind at 1, update_frame at 1, modify at 1. cbn [frame log].
  unfold bind at 1, get_frame. cbn [frame].
  rewrite !df_set_scalar_column. cbn [df_index df_set_column].
  change {| df_index := df_index df;
            df_columns :=
              assoc_set "longitude" (repeat CNone (df_index df))
                (assoc_set "latitude" (repeat CNone (df_index df)) (df_columns df)) |}
    with (two_columns (repeat CNone (df_index df)) (repeat CNone (df_index df)) df).
  rewrite !df_col_other by discriminate.
  unfold bind at 1, enumerate. rewrite <- Hlen.
  pose proof (coordinates_loop (df_col "coordinates" df) [] [] df l eq_refl) as Hloop.
  cbn [app List.length] in Hloop. rewrite Hloop.
  unfold bind, update_frame, modify. cbn [frame log].
  rewrite latitude_of_two. rewrite latitude_in_two.
  rewrite longitude_of_two. rewrite longitude_in_two.
  unfold latitude_of, longitude_of. now rewrite !map_map.
Qed.

(** ** The whole of [clean_and_transform] *)

Lemma full_column_length (k : string) (df : DataFrame) :
  full_column k df -> df_has k df = true ->
  List.length (df_col k df) = df_index df.
Proof.
  unfold full_column, df_has, df_col. intros Hfull Hhas.
  destruct (assoc k (df_columns df)) as [c|]; [auto | discriminate].
Qed.

Lemma extract_numeric_rating_frame (df : DataFrame) (l : list LogRecord) :
  full_column "rating" df ->
  _extract_numeric_rating {| frame := df; log := l |}
  = (Ok tt, {| frame := rating_numeric_added df; log := l |}).
Proof.
  intros Hfull. unfold rating_numeric_added.
  destruct (df_has "rating" df) eqn:Hhas.
  - apply TransformFacts.extract_numeric_rating_run;
      auto using full_column_length.
  - unfold _extract_numeric_rating, bind, get_frame. cbn [frame].
    now rewrite Hhas.
Qed.

Lemma split_coordinates_frame (df : DataFrame) (l : list LogRecord) :
  full_column "coordinates" df ->
  _split_coordinates {| frame := df; log := l |}
  = (Ok tt, {| frame := coordinates_split df; log := l ++ split_warnings df |}).
Proof.
  intros Hfull. unfold coordinates_split, split_warnings.
  destruct (df_has "coordinates" df) eqn:Hhas.
  - apply split_coordinates_run; auto using full_column_length.
  - unfold _split_coordinates, bind, get_frame. cbn [frame].
    rewrite Hhas, app_nil_r. reflexivity.
Qed.

Lemma assoc_map_some {V} (g : string -> V) (k : string) (ks : list string) (v : V) :
  assoc k (map (fun x => (x, g x)) ks) = Some v -> v = g k.
Proof.
  induction ks as [|k' ks IH]; simpl; [discriminate|].
  destruct (String.eqb_spec k' k) as [->|Hk]; [now intros [= <-] | exact IH].
Qed.

Lemma full_column_DataFrame_of (k : string) (records : list RawRecord) :
  full_column k (DataFrame_of records).
Proof.
  intros c Hc. unfold DataFrame_of in Hc. cbn [df_columns] in Hc.
  apply (assoc_map_some (fun k => map _ records)) in Hc. subst c.
  cbn [df_index]. apply length_map.
Qed.

Lemma assoc_drop {V} (k name : string) (l : list (string * V)) :
  k <> name ->
  assoc k (List.filter (fun kv => negb (String.eqb (fst kv) name)) l) = assoc k l.
Proof.
  intros Hne. induction l as [|[k' v] l IH]; simpl; [reflexivity|].
  destruct (String.eqb_spec k' name) as [->|Hk]; simpl.
  - destruct (String.eqb_spec name k) as [E|_]; [congruence | exact IH].
  - now rewrite IH.
Qed.

Lemma full_column_drop (k name : string) (df : DataFrame) :
  k <> name -> full_column k df -> full_column k (df_drop name df).
Proof.
  intros Hne Hfull c. unfold df_drop. cbn [df_columns df_index].
  rewrite assoc_drop by assumption. apply Hfull.
Qed.

Lemma full_column_set_column (k name : string) (c : list cell) (df : DataFrame) :
  name <> k -> full_column k df -> full_column k (df_set_column name c df).
Proof.
  intros Hne Hfull c'. unfold df_set_column. cbn [df_columns df_index].
  rewrite assoc_set_other by assumption. apply Hfull.
Qed.

Lemma full_column_raw_html_dropped (k : string) (df : DataFrame) :
  k <> "raw_html" -> full_column k df -> full_column k (raw_html_dropped df).
Proof.
  intros Hne Hfull. unfold raw_html_dropped.
  destruct (df_has "raw_html" df); auto using full_column_drop.
Qed.

Lemma full_column_rating_numeric_added (k : string) (df : DataFrame) :
  k <> "rating_numeric" -> full_column k df -> full_column k (rating_numeric_added df).
Proof.
  intros Hne Hfull. unfold rating_numeric_added.
  destruct (df_has "rating" df); auto using full_column_set_column.
Qed.

Lemma assoc_drop_same {V} (name : string) (l : list (string * V)) :
  assoc name (List.filter (fun kv => negb (String.eqb (fst kv) name)) l) = None.
Proof.
  induction l as [|[k v] l IH]; simpl; [reflexivity|].
  destruct (String.eqb_spec k name) as [->|Hk]; simpl; [exact IH|].
  destruct (String.eqb_spec k name) as [|_]; [contradiction | exact IH].
Qed.

Lemma raw_html_dropped_has (df : DataFrame) :
  df_has "raw_html" (raw_html_dropped df) = false.
Proof.
  unfold raw_html_dropped. destruct (df_has "raw_html" df) eqn:E; [|exact E].
  unfold df_has, df_drop. cbn [df_columns]. now rewrite assoc_drop_same.
Qed.

Lemma raw_html_dropped_other (k : string) (df : DataFrame) :
  k <> "raw_html" ->
  assoc k (df_columns (raw_html_dropped df)) = assoc k (df_columns df).
Proof.
  intros Hne. unfold raw_html_dropped.
  destruct (df_has "raw_html" df); [|reflexivity].
  unfold df_drop. cbn [df_columns]. now apply assoc_drop.
Qed.

Lemma rating_numeric_added_other (k : string) (df : DataFrame) :
  k <> "rating_numeric" ->
  assoc k (df_columns (rating_numeric_added df)) = assoc k (df_columns df).
Proof.
  intros Hne. unfold rating_numeric_added.
  destruct (df_has "rating" df); [|reflexivity].
  unfold df_set_column. cbn [df_columns]. apply assoc_set_other. congruence.
Qed.

Lemma coordinates_split_other (k : string) (df : DataFrame) :
  k <> "latitude" -> k <> "longitude" ->
  assoc k (df_columns (coordinates_split df)) = assoc k (df_columns df).
Proof.
  intros Hlat Hlng. unfold coordinates_split.
  destruct (df_has "coordinates" df); [|reflexivity].
  unfold df_set_column. cbn [df_columns].
  rewrite !assoc_set_other by congruence. reflexivity.
Qed.

(** The first records of a list have the keys of the extractor: the
    keys of the frame are these four. *)
Lemma first_seen_four (more : list RawRecord) :
  Forall (fun r => keys r = ["name"; "address"; "rating"; "coordinates"]) more ->
  first_seen ["coordinates"; "rating"; "address"; "name"]
             (concat (map keys more)) = [].
Proof.
  induction 1 as [|r more Hr _ IH]; [reflexivity|].
  cbn [map concat]. rewrite Hr. exact IH.
Qed.

Lemma DataFrame_of_four (first : RawRecord) (more : list RawRecord) :
  Forall (fun r => keys r = ["name"; "address"; "rating"; "coordinates"])
         (first :: more) ->
  keys (df_columns (DataFrame_of (first :: more)))
  = ["name"; "address"; "rating"; "coordinates"].
Proof.
  intros Hall. inversion Hall as [|r rs Hfirst Hmore]; subst.
  unfold DataFrame_of, keys at 1. cbn [df_columns].
  rewrite map_map. cbn [fst]. rewrite map_id.
  cbn [map concat]. rewrite Hfirst.
  cbn. now rewrite first_seen_four.
Qed.

(** ** The rows of [_split_coordinates] *)

Lemma split_no_sentinel (c : string) :
  List.length (split "," c) = 2%nat -> truthy c && negb (String.eqb c "No coordinates") = true.
Proof.
  destruct c as [|x c]; [discriminate|]. simpl truthy.
  destruct (String.eqb_spec (String x c) "No coordinates") as [->|]; [|reflexivity].
  discriminate.
Qed.

Lemma written_pair (c lat lng : string) :
  split "," c = [lat; lng] ->
  fst (coordinates_written (CStr c))
  = match float_of_string lat with
    | Some x => (CFloat x, match float_of_string lng with
                           | Some y => CFloat y
                           | None => CNone
                           end)
    | None => (CNone, CNone)
    end.
Proof.
  intros Hsplit. unfold coordinates_written. cbn [cell_truthy cell_ne_str].
  rewrite split_no_sentinel by now rewrite Hsplit.
  unfold outcome at 1. cbn [split_comma ret fst]. rewrite Hsplit.
  unfold outcome at 1. cbn [unpack2 ret fst].
  unfold outcome, float_.
  destruct (float_of_string lat) as [x|]; [|reflexivity].
  cbn [ret fst]. destruct (float_of_string lng) as [y|]; reflexivity.
Qed.

Lemma written_other (c : string) :
  List.length (split "," c) <> 2%nat ->
  fst (coordinates_written (CStr c)) = (CNone, CNone).
Proof.
  intros Hsplit. unfold coordinates_written. cbn [cell_truthy cell_ne_str].
  destruct (truthy c && negb (String.eqb c "No coordinates")); [|reflexivity].
  unfold outcome at 1. cbn [split_comma ret fst].
  destruct (split "," c) as [|a [|b [|x parts]]]; try reflexivity.
  now contradiction Hsplit.
Qed.

Lemma split_coordinates_records (records : list RawRecord)
    (n : nat) (record : RawRecord) (c : string) :
  records !! n = Some record ->
  assoc "coordinates" record = Some c ->
  let out := run _split_coordinates (DataFrame_of records) in
  fst out = Ok tt /\
  df_col "latitude" (frame (snd out)) !! n = Some (latitude_of (CStr c)) /\
  df_col "longitude" (frame (snd out)) !! n = Some (longitude_of (CStr c)) /\
  log (snd out)
  = flat_map warning_of (df_col "coordinates" (DataFrame_of records)).
Proof.
  intros Hn Hc.
  pose proof (DataFrame_of_column records "coordinates") as Hcol.
  assert (Hin : exists r, In r records /\ In "coordinates" (keys r))
    by (exists record; eauto using TransformFacts.lookup_In, assoc_in_keys).
  specialize (Hcol Hin).
  assert (Hhas : df_has "coordinates" (DataFrame_of records) = true)
    by (unfold df_has; now rewrite Hcol).
  assert (Hlen : List.length (df_col "coordinates" (DataFrame_of records))
                 = df_index (DataFrame_of records))
    by (unfold df_col; rewrite Hcol; apply length_map).
  cbv zeta. unfold run. rewrite (split_coordinates_run _ _ Hhas Hlen).
  cbn [fst snd frame log app].
  rewrite latitude_of_two, longitude_of_two.
  assert (Hrow : df_col "coordinates" (DataFrame_of records) !! n = Some (CStr c)).
  { unfold df_col. rewrite Hcol.
    erewrite TransformFacts.lookup_map by exact Hn. now rewrite Hc. }
  split; [reflexivity|].
  split; [now apply (TransformFacts.lookup_map latitude_of)|].
  split; [now apply (TransformFacts.lookup_map longitude_of)|].
  reflexivity.
Qed.

(** X16. What [_split_coordinates] leaves in the row of a record, by the
    pieces of its [coordinates] string between commas: with two pieces,
    the latitude is the float of the first (absent when that is no float)
    and the longitude is the float of the second (absent when either is
    no float); with any other number of pieces both are absent. *)
Theorem split_coordinates_rows (records : list RawRecord)
    (n : nat) (record : RawRecord) (c : string) :
  records !! n = Some record ->
  assoc "coordinates" record = Some c ->
  let out := run _split_coordinates (DataFrame_of records) in
  fst out = Ok tt /\
  exists x y,
    df_col "latitude" (frame (snd out)) !! n = Some (CFloat x) /\
    df_col "longitude" (frame (snd out)) !! n = Some (CFloat y) /\
    (forall lat lng, split "," c = [lat; lng] ->
       match float_of_string lat with
       | Some a => x = a /\ y = match float_of_string lng with
                                | Some b => b
                                | None => NaN
                                end
       | None => x = NaN /\ y = NaN
       end) /\
    (List.length (split "," c) <> 2%nat -> x = NaN /\ y = NaN).
Proof.
  intros Hn Hc.
  destruct (split_coordinates_records records n record c Hn Hc)
    as (Hok & Hlat & Hlng & _).
  cbv zeta. split; [exact Hok|].
  unfold latitude_of, longitude_of in *.
  destruct (Nat.eq_dec (List.length (split "," c)) 2) as [Htwo|Hnot].
  - destruct (split "," c) as [|lat [|lng [|x parts]]] eqn:Hsplit;
      try discriminate Htwo.
    rewrite (written_pair c lat lng Hsplit) in Hlat, Hlng.
    destruct (float_of_string lat) as [a|] eqn:Ea.
    + destruct (float_of_string lng) as [b|] eqn:Eb;
        (eexists _, _; split; [exact Hlat|]; split; [exact Hlng|]; split;
         [intros lat' lng' [= <- <-]; rewrite Ea, ?Eb; auto
         |intros Hne; now contradiction Hne]).
    + eexists _, _. split; [exact Hlat|]. split; [exact Hlng|]. split.
      * intros lat' lng' [= <- <-]. rewrite Ea. auto.
      * intros Hne. now contradiction Hne.
  - rewrite (written_other c Hnot) in Hlat, Hlng.
    eexists _, _. split; [exact Hlat|]. split; [exact Hlng|]. split.
    + intros lat lng Hsplit. rewrite Hsplit in Hnot. now contradiction Hnot.
    + auto.
Qed.

(** ** Coordinates as the patterns of the extractor give them *)

Lemma float_of_signed_decimal (neg : bool) (i f : string) :
  digits_only i = true -> i <> "" -> digits_only f = true -> f <> "" ->
  exists ai af,
    all_digits ai = true /\ all_digits af = true /\
    float_of_string ((if neg then "-" else "") ++ i ++ "." ++ f)%string
    = Some (of_decimal neg (ai ++ af) (Z.of_nat (String.length ai))).
Proof.
  intros Hi Hne Hf Hfne.
  destruct (to_ascii_decimal i f Hi Hne Hf Hfne)
    as (ai & af & Hai & Hane & Haf & Hafne & Hto).
  exists ai, af. split; [exact Hai|]. split; [exact Haf|].
  unfold float_of_string.
  destruct neg.
  - change ("-" ++ i ++ "." ++ f)%string with (String "-" (i ++ "." ++ f)%string).
    rewrite to_ascii_ascii by reflexivity. rewrite Hto. cbn [option_map].
    exact (float_of_ascii_signed true ai af Hai Hane Haf Hafne).
  - change ("" ++ i ++ "." ++ f)%string with (i ++ "." ++ f)%string.
    rewrite Hto. exact (float_of_ascii_signed false ai af Hai Hane Haf Hafne).
Qed.

Lemma is_decimal_shape (m : string) :
  is_decimal m = true ->
  exists (neg : bool) i f,
    m = ((if neg then "-" else "") ++ i ++ "." ++ f)%string /\
    digits_only i = true /\ i <> ""%string /\ digits_only f = true /\ f <> ""%string.
Proof.
  unfold is_decimal, signed_decimal, optional_minus.
  destruct (lit "-" m) as [s'|] eqn:Es;
    (destruct (digits1 _) as [[i s2]|] eqn:Ei; [|discriminate];
     destruct (lit "." s2) as [s3|] eqn:Ep; [|discriminate];
     destruct (digits1 s3) as [[f r]|] eqn:Ef; [|discriminate];
     destruct r; [|discriminate]; intros _;
     apply digits1_some in Ei as (E1 & Hi & Hne & _);
     apply digits1_some in Ef as (E2 & Hf & Hfne & _);
     apply PatternFacts.lit_some in Ep).
  - apply PatternFacts.lit_some in Es.
    exists true, i, f. subst. rewrite append_empty_r. auto.
  - exists false, i, f. subst. rewrite append_empty_r. auto.
Qed.

(** A decimal of the patterns reads as a finite float. *)
Lemma float_of_is_decimal (m : string) :
  is_decimal m = true ->
  exists neg digits decpt, float_of_string m = Some (Finite neg digits decpt).
Proof.
  intros (neg & i & f & -> & Hi & Hne & Hf & Hfne)%is_decimal_shape.
  destruct (float_of_signed_decimal neg i f Hi Hne Hf Hfne) as (ai & af & _ & _ & ->).
  unfold of_decimal. destruct (drop_trailing_zeros _); eauto.
Qed.

Lemma well_formed_cases (c : string) :
  well_formed_coordinates c = true ->
  c = "No coordinates"%string \/
  exists lat lng, split "," c = [lat; lng] /\
                  is_decimal lat = true /\ is_decimal lng = true.
Proof.
  unfold well_formed_coordinates, is_decimal_pair.
  destruct (String.eqb_spec c "No coordinates") as [->|_]; [now left|].
  cbn [orb]. destruct (split "," c) as [|lat [|lng [|x parts]]]; try discriminate.
  intros [Hlat Hlng]%andb_true_iff. right. eauto.
Qed.

Lemma well_formed_no_warning (c : string) :
  well_formed_coordinates c = true -> warning_of (CStr c) = [].
Proof.
  intros [->|(lat & lng & Hsplit & Hlat & Hlng)]%well_formed_cases;
    [reflexivity|].
  destruct (float_of_is_decimal lat Hlat) as (? & ? & ? & Ex).
  destruct (float_of_is_decimal lng Hlng) as (? & ? & ? & Ey).
  unfold warning_of, coordinates_written. cbn [cell_truthy cell_ne_str].
  rewrite split_no_sentinel by now rewrite Hsplit.
  unfold outcome at 1. cbn [split_comma ret fst]. rewrite Hsplit.
  unfold outcome at 1. cbn [unpack2 ret fst].
  unfold outcome, float_. rewrite Ex. cbn [ret fst]. rewrite Ey. reflexivity.
Qed.

Lemma well_formed_no_warnings (records : list RawRecord) :
  Forall (fun record => exists c, assoc "coordinates" record = Some c /\
                                  well_formed_coordinates c = true) records ->
  flat_map warning_of
    (map (fun r => match assoc "coordinates" r with
                   | Some v => CStr v
                   | None => CFloat NaN
                   end) records) = [].
Proof.
  induction 1 as [|record rest (c & Hc & Hwf) _ IH]; [reflexivity|].
  cbn [map flat_map]. rewrite Hc, (well_formed_no_warning c Hwf). exact IH.
Qed.

(** X17. Coordinates as the patterns of the extractor give them (the
    sentinel, or two decimals with a comma between) are split without
    a warning: the sentinel leaves both numbers absent, and two decimals
    give the two numbers that [float] reads of them. *)
Theorem well_formed_coordinates_split (records : list RawRecord) :
  Forall (fun record => exists c, assoc "coordinates" record = Some c /\
                                  well_formed_coordinates c = true) records ->
  let out := run _split_coordinates (DataFrame_of records) in
  fst out = Ok tt /\
  log (snd out) = [] /\
  forall n record c,
    records !! n = Some record ->
    assoc "coordinates" record = Some c ->
    (c = "No coordinates"%string /\
     df_col "latitude" (frame (snd out)) !! n = Some (CFloat NaN) /\
     df_col "longitude" (frame (snd out)) !! n = Some (CFloat NaN)) \/
    (exists lat lng x y,
       split "," c = [lat; lng] /\
       float_of_string lat = Some x /\ float_of_string lng = Some y /\
       x <> NaN /\ y <> NaN /\
       df_col "latitude" (frame (snd out)) !! n = Some (CFloat x) /\
       df_col "longitude" (frame (snd out)) !! n = Some (CFloat y)).
Proof.
  intros Hall. cbv zeta.
  destruct records as [|first more].
  { split; [reflexivity|]. split; [reflexivity|]. intros n record c Hn. discriminate Hn. }
  set (records := first :: more) in *.
  assert (Hfirst : exists c, assoc "coordinates" first = Some c)
    by (inversion Hall as [|? ? (c & Hc & _) _]; eauto).
  destruct Hfirst as (c0 & Hc0).
  destruct (split_coordinates_records records 0 first c0 eq_refl Hc0)
    as (Hok & _ & _ & Hlog).
  split; [exact Hok|]. split.
  - rewrite Hlog. unfold df_col.
    rewrite (DataFrame_of_column records "coordinates")
      by (exists first; split; [now left | eauto using assoc_in_keys]).
    now apply well_formed_no_warnings.
  - intros n record c Hn Hc.
    destruct (split_coordinates_records records n record c Hn Hc)
      as (_ & Hlat & Hlng & _).
    assert (Hwf : well_formed_coordinates c = true).
    { destruct (Forall_lookup_1 _ _ _ _ Hall Hn) as (c' & Hc' & Hwf).
      congruence. }
    unfold latitude_of, longitude_of in *.
    destruct (well_formed_cases c Hwf) as [->|(lat & lng & Hsplit & Hx & Hy)].
    + left. auto.
    + right. destruct (float_of_is_decimal lat Hx) as (nx & dx & px & Ex).
      destruct (float_of_is_decimal lng Hy) as (ny & dy & py & Ey).
      rewrite (written_pair c lat lng Hsplit), Ex, Ey in Hlat, Hlng.
      exists lat, lng, (Finite nx dx px), (Finite ny dy py).
      repeat split; auto; discriminate.
Qed.

Lemma lookup_repeat {X} (x : X) (n i : nat) :
  (i < n)%nat -> repeat x n !! i = Some x.
Proof.
  revert i. induction n as [|n IH]; intros [|i] Hi; simpl; try lia; [reflexivity|].
  apply IH. lia.
Qed.

Lemma coordinates_columns_one (c : string) :
  coordinates_columns [c] = ([latitude_of (CStr c)], [longitude_of (CStr c)]).
Proof.
  unfold coordinates_columns, run. cbn [map].
  rewrite split_coordinates_run by reflexivity.
  cbn [snd frame]. rewrite latitude_of_two, longitude_of_two. reflexivity.
Qed.

Section CleanAndTransform.
Variable replace_with_None : string -> list cell -> list cell.
Variable now : string.

Lemma clean_names_frame (df : DataFrame) (l : list LogRecord) :
  _clean_names replace_with_None {| frame := df; log := l |}
  = (Ok tt, {| frame := names_cleaned replace_with_None df; log := l |}).
Proof using Type.
  unfold _clean_names, names_cleaned, bind at 1, get_frame. cbn [frame].
  destruct (df_has "name" df); [|reflexivity].
  unfold bind, update_frame, modify. cbn [frame log].
  now rewrite df_col_set_column, df_set_column_twice.
Qed.

Lemma full_column_names_cleaned (k : string) (df : DataFrame) :
  k <> "name" -> full_column k df -> full_column k (names_cleaned replace_with_None df).
Proof using Type.
  intros Hne Hfull. unfold names_cleaned.
  destruct (df_has "name" df); auto using full_column_set_column.
Qed.

Lemma clean_and_transform_frame (first : RawRecord) (more : list RawRecord)
    (st : State) :
  let raw_data := first :: more in
  let df := names_cleaned replace_with_None (raw_html_dropped (DataFrame_of raw_data)) in
  clean_and_transform replace_with_None now raw_data st
  = (Ok (transformed replace_with_None now raw_data),
     {| frame := transformed replace_with_None now raw_data;
        log := log st
               ++ [{| level := INFO;
                      message := ("Transforming "
                                  ++ string_of_nat (List.length raw_data)
                                  ++ " records")%string |}]
               ++ split_warnings (rating_numeric_added df)
               ++ [{| level := INFO;
                      message := ("Transformation complete, resulting in "
                                  ++ string_of_nat (df_index (transformed replace_with_None now raw_data))
                                  ++ " records")%string |}] |}).
Proof using Type.
  cbv zeta. unfold clean_and_transform.
  set (raw_data := first :: more).
  set (df := names_cleaned replace_with_None (raw_html_dropped (DataFrame_of raw_data))).
  unfold bind at 1, logger at 1, modify at 1.
  unfold bind at 1, update_frame at 1, modify at 1. cbn [frame log].
  unfold bind at 1, get_frame at 1. cbn [frame].
  assert (Hdrop : forall l,
            (if df_has "raw_html" (DataFrame_of raw_data)
             then update_frame (df_drop "raw_html") else ret tt)
              {| frame := DataFrame_of raw_data; log := l |}
            = (Ok tt, {| frame := raw_html_dropped (DataFrame_of raw_data);
                         log := l |})).
  { intros l. unfold raw_html_dropped.
    destruct (df_has "raw_html" (DataFrame_of raw_data)); reflexivity. }
  unfold bind at 1. rewrite Hdrop.
  unfold bind at 1. rewrite clean_names_frame. fold df.
  unfold bind at 1. rewrite extract_numeric_rating_frame.
  2:{ apply full_column_names_cleaned; [discriminate|].
      apply full_column_raw_html_dropped; [discriminate|].
      apply full_column_DataFrame_of. }
  unfold bind at 1. rewrite split_coordinates_frame.
  2:{ apply full_column_rating_numeric_added; [discriminate|].
      apply full_column_names_cleaned; [discriminate|].
      apply full_column_raw_html_dropped; [discriminate|].
      apply full_column_DataFrame_of. }
  unfold bind, update_frame, get_frame, logger, modify, ret. cbn [frame log].
  unfold transformed. fold df.
  rewrite <- !app_assoc. reflexivity.
Qed.

Lemma clean_and_transform_result (raw_data : list RawRecord) (st : State) :
  raw_data <> [] ->
  exists st',
    clean_and_transform replace_with_None now raw_data st
    = (Ok (transformed replace_with_None now raw_data), st').
Proof using Type.
  destruct raw_data as [|first more]; [congruence|]. intros _.
  eexists. apply clean_and_transform_frame.
Qed.

Lemma df_index_transformed (raw_data : list RawRecord) :
  df_index (transformed replace_with_None now raw_data) = List.length raw_data.
Proof using Type.
  unfold transformed, coordinates_split, rating_numeric_added, names_cleaned,
    raw_html_dropped.
  repeat match goal with |- context [if ?b then _ else _] => destruct b end;
    reflexivity.
Qed.

Lemma transformed_not_empty (raw_data : list RawRecord) :
  raw_data <> [] -> df_empty (transformed replace_with_None now raw_data) = false.
Proof using Type.
  intros Hne. unfold df_empty. rewrite df_index_transformed.
  destruct raw_data as [|first more]; [congruence|].
  unfold transformed, df_set_scalar. cbn [df_columns List.length Nat.eqb orb].
  generalize (df_columns (coordinates_split
    (rating_numeric_added (names_cleaned replace_with_None
       (raw_html_dropped (DataFrame_of (first :: more))))))).
  intros [|[k v] l]; simpl; [reflexivity|].
  destruct (String.eqb k "extraction_timestamp"); reflexivity.
Qed.

(** X13. [clean_and_transform] never raises, and the frame it returns has one
    row for each record; it is empty only when there is no record. *)
Theorem clean_and_transform_never_raises (raw_data : list RawRecord) (st : State) :
  exists df st',
    clean_and_transform replace_with_None now raw_data st = (Ok df, st') /\
    df_index df = List.length raw_data /\
    (df_empty df = true <-> raw_data = []).
Proof using Type.
  destruct raw_data as [|first more].
  - eexists _, _. split; [reflexivity|]. split; [reflexivity|]. now split.
  - eexists _, _. split; [apply clean_and_transform_frame|].
    split; [apply df_index_transformed|].
    rewrite transformed_not_empty by discriminate. split; discriminate.
Qed.


Lemma names_cleaned_other (k : string) (df : DataFrame) :
  k <> "name" ->
  assoc k (df_columns (names_cleaned replace_with_None df)) = assoc k (df_columns df).
Proof using Type.
  intros Hne. unfold names_cleaned.
  destruct (df_has "name" df); [|reflexivity].
  unfold df_set_column. cbn [df_columns]. apply assoc_set_other. congruence.
Qed.

Lemma transformed_other (k : string) (raw_data : list RawRecord) :
  k <> "raw_html" -> k <> "name" -> k <> "rating_numeric" ->
  k <> "latitude" -> k <> "longitude" -> k <> "extraction_timestamp" ->
  assoc k (df_columns (transformed replace_with_None now raw_data))
  = assoc k (df_columns (DataFrame_of raw_data)).
Proof using Type.
  intros. unfold transformed, df_set_scalar. cbn [df_columns].
  rewrite assoc_set_other by congruence.
  rewrite coordinates_split_other, rating_numeric_added_other,
    names_cleaned_other, raw_html_dropped_other by assumption.
  reflexivity.
Qed.

Lemma transformed_raw_html (raw_data : list RawRecord) :
  df_has "raw_html" (transformed replace_with_None now raw_data) = false.
Proof using Type.
  unfold df_has, transformed, df_set_scalar. cbn [df_columns].
  rewrite assoc_set_other by discriminate.
  rewrite coordinates_split_other, rating_numeric_added_other,
    names_cleaned_other by discriminate.
  apply raw_html_dropped_has.
Qed.

(** X14. For records with the four keys of the extractor, the frame has
    these eight columns, in this order. *)
Theorem transformed_columns (first : RawRecord) (more : list RawRecord) (st : State) :
  Forall (fun r => keys r = ["name"; "address"; "rating"; "coordinates"])
         (first :: more) ->
  exists df st',
    clean_and_transform replace_with_None now (first :: more) st = (Ok df, st') /\
    keys (df_columns df)
    = ["name"; "address"; "rating"; "coordinates";
       "rating_numeric"; "latitude"; "longitude"; "extraction_timestamp"].
Proof using Type.
  intros Hall. eexists _, _. split; [apply clean_and_transform_frame|].
  apply DataFrame_of_four in Hall.
  unfold transformed.
  destruct (DataFrame_of (first :: more)) as [n cols]. cbn [df_columns] in Hall.
  destruct cols as [|[k1 c1] [|[k2 c2] [|[k3 c3] [|[k4 c4] [|]]]]];
    try discriminate Hall.
  injection Hall as -> -> -> ->. reflexivity.
Qed.

(** X15. [clean_and_transform] hands the raw fields through: a value of a
    record stands in its row of the column of its key, unless the key
    is [raw_html] (dropped), [name] (cleaned) or the name of a column
    that the transformation makes. *)
Theorem clean_and_transform_keeps_raw_fields
    (raw_data : list RawRecord) (st : State)
    (n : nat) (record : RawRecord) (k v : string) :
  raw_data !! n = Some record ->
  assoc k record = Some v ->
  k <> "raw_html" -> k <> "name" -> k <> "rating_numeric" ->
  k <> "latitude" -> k <> "longitude" -> k <> "extraction_timestamp" ->
  exists df st',
    clean_and_transform replace_with_None now raw_data st = (Ok df, st') /\
    df_col k df !! n = Some (CStr v) /\
    df_has "raw_html" df = false.
Proof using Type.
  intros Hn Hk ? ? ? ? ? ?.
  destruct raw_data as [|first more]; [discriminate Hn|].
  eexists _, _. split; [apply clean_and_transform_frame|].
  split; [|apply transformed_raw_html].
  unfold df_col. rewrite transformed_other by assumption.
  rewrite (DataFrame_of_column (first :: more) k)
    by (exists record; eauto using TransformFacts.lookup_In, assoc_in_keys).
  erewrite TransformFacts.lookup_map by exact Hn. now rewrite Hk.
Qed.

Lemma transformed_has (k : string) (raw_data : list RawRecord) :
  k <> "raw_html" -> k <> "name" ->
  df_has k (names_cleaned replace_with_None (raw_html_dropped (DataFrame_of raw_data)))
  = df_has k (DataFrame_of raw_data).
Proof using Type.
  intros. unfold df_has.
  now rewrite names_cleaned_other, raw_html_dropped_other.
Qed.

Lemma transformed_col (k : string) (raw_data : list RawRecord) :
  k <> "raw_html" -> k <> "name" ->
  df_col k (names_cleaned replace_with_None (raw_html_dropped (DataFrame_of raw_data)))
  = df_col k (DataFrame_of raw_data).
Proof using Type.
  intros. unfold df_col.
  now rewrite names_cleaned_other, raw_html_dropped_other.
Qed.

Lemma transformed_rating_numeric (raw_data : list RawRecord) :
  df_has "rating" (DataFrame_of raw_data) = true ->
  df_col "rating_numeric" (transformed replace_with_None now raw_data)
  = map (fun r => CFloat (numeric_rating r)) (df_col "rating" (DataFrame_of raw_data)).
Proof using Type.
  intros Hhas. unfold df_col at 1, transformed, df_set_scalar. cbn [df_columns].
  rewrite assoc_set_other by discriminate.
  rewrite coordinates_split_other by discriminate.
  unfold rating_numeric_added.
  rewrite transformed_has, Hhas by discriminate.
  unfold df_set_column. cbn [df_columns]. rewrite assoc_set_same.
  now rewrite transformed_col by discriminate.
Qed.

Lemma transformed_coordinates (raw_data : list RawRecord) :
  df_has "coordinates" (DataFrame_of raw_data) = true ->
  df_col "latitude" (transformed replace_with_None now raw_data)
  = map latitude_of (df_col "coordinates" (DataFrame_of raw_data)) /\
  df_col "longitude" (transformed replace_with_None now raw_data)
  = map longitude_of (df_col "coordinates" (DataFrame_of raw_data)).
Proof using Type.
  intros Hhas.
  assert (Hhas' : df_has "coordinates"
                    (rating_numeric_added
                       (names_cleaned replace_with_None (raw_html_dropped (DataFrame_of raw_data))))
                  = true).
  { unfold df_has. rewrite rating_numeric_added_other by discriminate.
    fold (df_has "coordinates"
            (names_cleaned replace_with_None (raw_html_dropped (DataFrame_of raw_data)))).
    now rewrite transformed_has by discriminate. }
  assert (Hcol : df_col "coordinates"
                   (rating_numeric_added
                      (names_cleaned replace_with_None (raw_html_dropped (DataFrame_of raw_data))))
                 = df_col "coordinates" (DataFrame_of raw_data)).
  { unfold df_col at 1. rewrite rating_numeric_added_other by discriminate.
    fold (df_col "coordinates"
            (names_cleaned replace_with_None (raw_html_dropped (DataFrame_of raw_data)))).
    now rewrite transformed_col by discriminate. }
  unfold df_col at 1 3, transformed, df_set_scalar. cbn [df_columns].
  rewrite !assoc_set_other by discriminate.
  unfold coordinates_split. rewrite Hhas', Hcol.
  fold (df_col "latitude"
          (two_columns (map latitude_of (df_col "coordinates" (DataFrame_of raw_data)))
             (map longitude_of (df_col "coordinates" (DataFrame_of raw_data)))
             (rating_numeric_added
                (names_cleaned replace_with_None (raw_html_dropped (DataFrame_of raw_data)))))).
  fold (df_col "longitude"
          (two_columns (map latitude_of (df_col "coordinates" (DataFrame_of raw_data)))
             (map longitude_of (df_col "coordinates" (DataFrame_of raw_data)))
             (rating_numeric_added
                (names_cleaned replace_with_None (raw_html_dropped (DataFrame_of raw_data)))))).
  now rewrite latitude_of_two, longitude_of_two.
Qed.

Lemma transformed_timestamp (raw_data : list RawRecord) :
  df_col "extraction_timestamp" (transformed replace_with_None now raw_data)
  = repeat (CTimestamp now) (List.length raw_data).
Proof using Type.
  unfold df_col, transformed, df_set_scalar. cbn [df_columns].
  rewrite assoc_set_same. f_equal.
  change (df_index (coordinates_split ?d)) with (df_index (coordinates_split d)).
  pose proof (df_index_transformed raw_data) as E.
  unfold transformed, df_set_scalar in E. exact E.
Qed.

(** X18. [clean_and_transform] works row by row: the numbers in the row of
    a record are those that [_extract_numeric_rating] and
    [_split_coordinates] make of that record alone, whatever the other
    records hold; every row carries the time of the call. *)
Theorem clean_and_transform_row_wise
    (raw_data : list RawRecord) (st : State)
    (n : nat) (record : RawRecord) (rating coordinates : string) :
  raw_data !! n = Some record ->
  assoc "rating" record = Some rating ->
  assoc "coordinates" record = Some coordinates ->
  exists df st' rating_numeric latitude longitude,
    clean_and_transform replace_with_None now raw_data st = (Ok df, st') /\
    rating_numeric_column [rating] = [rating_numeric] /\
    coordinates_columns [coordinates] = ([latitude], [longitude]) /\
    df_col "rating_numeric" df !! n = Some rating_numeric /\
    df_col "latitude" df !! n = Some latitude /\
    df_col "longitude" df !! n = Some longitude /\
    df_col "extraction_timestamp" df !! n = Some (CTimestamp now).
Proof using Type.
  intros Hn Hrating Hcoordinates.
  assert (Hne : raw_data <> []) by (intros ->; discriminate Hn).
  destruct (clean_and_transform_result raw_data st Hne) as [st' Hrun].
  pose proof (DataFrame_of_column raw_data "rating") as Hr.
  pose proof (DataFrame_of_column raw_data "coordinates") as Hc.
  specialize (Hr ltac:(exists record; eauto using TransformFacts.lookup_In, assoc_in_keys)).
  specialize (Hc ltac:(exists record; eauto using TransformFacts.lookup_In, assoc_in_keys)).
  eexists _, _, _, _, _. split; [exact Hrun|].
  split; [rewrite TransformFacts.rating_numeric_column_map; reflexivity|].
  split; [apply coordinates_columns_one|].
  destruct (transformed_coordinates raw_data) as [Hlat Hlng];
    [unfold df_has; now rewrite Hc|].
  rewrite Hlat, Hlng, transformed_rating_numeric, transformed_timestamp
    by (unfold df_has; now rewrite Hr).
  unfold df_col. rewrite Hr, Hc.
  split; [|split; [|split]].
  - apply (TransformFacts.lookup_map (fun r => CFloat (numeric_rating r))).
    erewrite TransformFacts.lookup_map by exact Hn. now rewrite Hrating.
  - apply (TransformFacts.lookup_map latitude_of).
    erewrite TransformFacts.lookup_map by exact Hn. now rewrite Hcoordinates.
  - apply (TransformFacts.lookup_map longitude_of).
    erewrite TransformFacts.lookup_map by exact Hn. now rewrite Hcoordinates.
  - apply lookup_lt_Some in Hn. now apply lookup_repeat.
Qed.

End CleanAndTransform.

End Text.

End StageFacts.

(* ================================================================== *)
(** * Facts about the configuration and the process *)
(* ================================================================== *)

Module ConfigFacts.
Import PyStr Py Py.Notations Pandas Config Main.

Section Pipeline.
Context {S : Type}.
Variable extract : GoogleMapsConfig -> M S (list RawRecord).
Variable clean_and_transform : list RawRecord -> M S DataFrame.
Variable load : DataFrame -> string -> string -> M S bool.
Variable logger : Level -> string -> S -> S.

(** The option [--output-file] has no effect: the pipeline reads the
    configuration of the extractor only, and hands fixed paths to the
    loader. *)
Theorem output_file_is_ignored (args : Args) (output_file : string) (s : S) :
  main extract clean_and_transform load logger (create_config args) s
  = main extract clean_and_transform load logger
      (create_config
         {| arg_search_query := arg_search_query args;
            arg_location := arg_location args;
            arg_output_file := output_file;
            arg_log_level := arg_log_level args;
            arg_headless := arg_headless args;
            arg_scroll_iterations := arg_scroll_iterations args;
            arg_scroll_delay := arg_scroll_delay args |}) s.
Proof using Type. reflexivity. Qed.

End Pipeline.
End ConfigFacts.

Module PipelineFacts.
Import PyStr Py Py.Notations Pandas Config.
Import Process.

Section Text.
Context `{unicode : Unicode}.

(** X20. When the extractor returns no record, the transformer and the
    loader each give a warning and [run_pipeline] logs no error; the
    status is 1.  The records are those that [run_pipeline], the
    transformer and the loader hand to their loggers, in this order
    (the lines of the extractor are not modelled, and [setup_logging]
    decides which records are printed). *)
Theorem empty_extraction_is_reported
    (now : string) (config : Config.Config) (p : State) :
  fst (GoogleMapsExtractor.extract (H := Scripted.scripted_browser)
         {| GoogleMapsExtractor.self :=
              GoogleMapsExtractor.__init__ (google_maps config);
            GoogleMapsExtractor.world := web p |}) = Ok [] ->
  let out := main now config p in
  fst out = Ok 1%Z /\
  log (snd out)
  = (log p ++
     [ {| level := INFO; message := "Starting Google Maps ETL pipeline" |};
       {| level := INFO; message := "Starting extraction phase" |};
       {| level := INFO; message := "Extraction complete: 0 records extracted" |};
       {| level := INFO; message := "Starting transformation phase" |};
       {| level := WARNING; message := "No data to transform" |};
       {| level := INFO; message := "Transformation complete: 0 records transformed" |};
       {| level := WARNING; message := "No data to load" |} ])%list.
Proof.
  intros Hempty. cbv zeta.
  assert (E : exists w,
            main now config p
            = (Ok 1%Z,
               {| web := w; disk := disk p;
                  log := (log p ++
     [ {| level := INFO; message := "Starting Google Maps ETL pipeline" |};
       {| level := INFO; message := "Starting extraction phase" |};
       {| level := INFO; message := "Extraction complete: 0 records extracted" |};
       {| level := INFO; message := "Starting transformation phase" |};
       {| level := WARNING; message := "No data to transform" |};
       {| level := INFO; message := "Transformation complete: 0 records transformed" |};
       {| level := WARNING; message := "No data to load" |} ])%list |})).
  { unfold main, Main.main, Main.run_pipeline, Main.stages.
    unfold bind at 1, bind at 1, modify at 1, try_except.
    unfold bind at 1, bind at 1, modify at 1.
    unfold bind at 1, extract at 1. cbn [web logger].
    destruct (GoogleMapsExtractor.extract _) as [r st]. cbn [fst] in Hempty. subst r.
    eexists. cbn. rewrite <- !app_assoc. reflexivity. }
  destruct E as [w ->]. auto.
Qed.

(** X21. When the extractor raises, neither the transformer nor the
    loader logs anything: [run_pipeline] hands the failure to its
    logger, with the message of the exception, as the last record, and
    the status is 1. *)
Theorem failed_extraction_is_logged
    (now : string) (config : Config.Config) (p : State) (e : exn) :
  fst (GoogleMapsExtractor.extract (H := Scripted.scripted_browser)
         {| GoogleMapsExtractor.self :=
              GoogleMapsExtractor.__init__ (google_maps config);
            GoogleMapsExtractor.world := web p |}) = Raise e ->
  let out := main now config p in
  fst out = Ok 1%Z /\
  log (snd out)
  = (log p ++
     [ {| level := INFO; message := "Starting Google Maps ETL pipeline" |};
       {| level := INFO; message := "Starting extraction phase" |};
       {| level := ERROR; message := "ETL pipeline failed: " ++ exn_str e |} ])%list.
Proof.
  intros Hraise. cbv zeta.
  assert (E : exists w,
            main now config p
            = (Ok 1%Z,
               {| web := w; disk := disk p;
                  log := (log p ++
     [ {| level := INFO; message := "Starting Google Maps ETL pipeline" |};
       {| level := INFO; message := "Starting extraction phase" |};
       {| level := ERROR; message := "ETL pipeline failed: " ++ exn_str e |} ])%list |})).
  { unfold main, Main.main, Main.run_pipeline, Main.stages.
    unfold bind at 1, bind at 1, modify at 1, try_except.
    unfold bind at 1, bind at 1, modify at 1.
    unfold bind at 1, extract at 1. cbn [web logger].
    destruct (GoogleMapsExtractor.extract _) as [r st]. cbn [fst] in Hraise. subst r.
    eexists. cbn. unfold logger. cbn. rewrite <- !app_assoc. reflexivity. }
  destruct E as [w ->]. auto.
Qed.

(** X22. When the extractor returns records and the two files may be
    written, what the process saves in both is the frame that
    [clean_and_transform] makes of these records, one row for each. *)
Theorem pipeline_saves_the_transformed_records
    (now : string) (config : Config.Config) (p : State)
    (raw_data : list RawRecord) :
  fst (GoogleMapsExtractor.extract (H := Scripted.scripted_browser)
         {| GoogleMapsExtractor.self :=
              GoogleMapsExtractor.__init__ (google_maps config);
            GoogleMapsExtractor.world := web p |}) = Ok raw_data ->
  raw_data <> [] ->
  DataLoader.writable "output/semarang_coffee_shops.csv" (disk p) ->
  DataLoader.writable "output/semarang_coffee_shops.json" (disk p) ->
  let out := main now config p in
  exists df,
    (forall st,
       fst (DataTransformer.clean_and_transform replace_with_None now raw_data st)
       = Ok df) /\
    df_index df = List.length raw_data /\
    DataLoader.files (disk (snd out)) !! "output/semarang_coffee_shops.csv"
    = Some (DataLoader.CsvOf df) /\
    DataLoader.files (disk (snd out)) !! "output/semarang_coffee_shops.json"
    = Some (DataLoader.JsonLinesOf df).
Proof.
  intros Hextract Hne Hcsv Hjson. cbv zeta.
  exists (Transformed.transformed replace_with_None now raw_data).
  split.
  { intros st.
    destruct (StageFacts.clean_and_transform_result replace_with_None now raw_data st Hne)
      as [st' ->]. reflexivity. }
  split; [apply StageFacts.df_index_transformed|].
  assert (E : exists fs,
            disk (snd (main now config p)) = fs /\
            DataLoader.files fs !! "output/semarang_coffee_shops.csv"
            = Some (DataLoader.CsvOf (Transformed.transformed replace_with_None now raw_data)) /\
            DataLoader.files fs !! "output/semarang_coffee_shops.json"
            = Some (DataLoader.JsonLinesOf
                      (Transformed.transformed replace_with_None now raw_data)));
    [|destruct E as (fs & -> & Hc & Hj); auto].
  unfold main, Main.main, Main.run_pipeline, Main.stages.
  unfold bind at 1, bind at 1, modify at 1, try_except.
  unfold bind at 1, bind at 1, modify at 1.
  unfold bind at 1, extract at 1. cbn [web logger].
  destruct (GoogleMapsExtractor.extract _) as [r st]. cbn [fst] in Hextract. subst r.
  unfold bind at 1, modify at 1. unfold bind at 1, modify at 1.
  unfold bind at 1, clean_and_transform at 1. cbn [log disk web logger].
  match goal with
  | |- context [DataTransformer.clean_and_transform _ _ _ ?q] =>
      destruct (StageFacts.clean_and_transform_result replace_with_None now raw_data q Hne)
        as [st' ->]
  end.
  unfold bind at 1, modify at 1. unfold bind at 1, load at 1.
  cbn [log disk web logger].
  match goal with
  | |- context [DataLoader.load ?d ?a ?b ?q] =>
      destruct (SaveFacts.load_writes_both d a b q) as (st2 & -> & Hc & Hj);
        [now apply StageFacts.transformed_not_empty | exact Hcsv | exact Hjson
        | discriminate |]
  end.
  cbn. eauto.
Qed.

End Text.

End PipelineFacts.

(* ================================================================== *)
(** * Facts about single methods of the extractor *)
(* ================================================================== *)

Module MethodFacts.
Import PyStr PyRe Py Py.Notations Config Selenium GoogleMapsExtractor.
Import Design StringFacts Hoare PatternFacts ExtractFacts.

Section Rules.
Context {S : Type}.

Lemma never_raises_ret {A} (a : A) : never_raises (S := S) (ret a).
Proof. intros s. eexists _, _. reflexivity. Qed.

Lemma never_raises_bind {A B} (m : M S A) (k : A -> M S B) :
  never_raises m -> (forall a, never_raises (k a)) -> never_raises (bind m k).
Proof.
  intros Hm Hk s. unfold bind.
  destruct (Hm s) as (a & s1 & ->). apply Hk.
Qed.

Lemma never_raises_try_except {A} (body : M S A) (handler : exn -> M S A) :
  (forall e, never_raises (handler e)) -> never_raises (try_except body handler).
Proof.
  intros Hh s. unfold try_except.
  destruct (body s) as [[a|e] s1]; [eexists _, _; reflexivity | apply Hh].
Qed.

Lemma never_raises_for_return {X A} (xs : list X) (body : X -> M S (option A)) :
  (forall x, never_raises (body x)) -> never_raises (for_return xs body).
Proof.
  intros Hb. induction xs as [|x xs IH]; simpl; [apply never_raises_ret|].
  apply never_raises_bind; [apply Hb|].
  intros [v|]; [apply never_raises_ret | exact IH].
Qed.

Lemma never_raises_for_each {X} (xs : list X) (body : X -> M S unit) :
  (forall x, never_raises (body x)) -> never_raises (for_each xs body).
Proof.
  intros Hb. induction xs as [|x xs IH]; simpl; [apply never_raises_ret|].
  apply never_raises_bind; [apply Hb | intros _; exact IH].
Qed.
End Rules.

Ltac total_step :=
  lazymatch goal with
  | |- never_raises (ret _) => apply never_raises_ret
  | |- never_raises self_config => intros ?; eexists _, _; reflexivity
  | |- never_raises (try_except _ _) => apply never_raises_try_except; intros ?
  | |- never_raises (for_return _ _) => apply never_raises_for_return; intros ?
  | |- never_raises (bind _ _) => apply never_raises_bind; [|intros ?]
  | |- never_raises (match ?x with _ => _ end) => destruct x
  end.

(** ** What a pattern finds is in the text *)

Section Text.
Context `{unicode : Unicode}.

Lemma search_leftmost {A} (m : string -> option A) (s : string) (r : A) :
  search m s = Some r ->
  exists before t,
    s = before ++ t /\ m t = Some r /\
    forall k, (k < String.length before)%nat -> m (drop k s) = None.
Proof.
  induction s as [|c s IH]; cbn [search].
  - destruct (m "") eqn:E; [|discriminate]. intros [= <-].
    exists "", "". repeat split; auto. cbn. lia.
  - destruct (m (String c s)) eqn:E.
    + intros [= <-]. exists "", (String c s). repeat split; auto. cbn. lia.
    + intros (before & t & -> & Ht & Hnone)%IH.
      exists (String c before), t. repeat split; auto.
      intros [|k] Hk; [exact E|]. cbn in Hk. apply Hnone. lia.
Qed.

Lemma signed_decimal_rest (s m r : string) :
  signed_decimal s = Some (m, r) -> s = m ++ r /\ starts_with_digit r = false.
Proof.
  unfold signed_decimal, optional_minus.
  destruct (lit "-" s) as [s'|] eqn:Es;
    (destruct (digits1 _) as [[i s2]|] eqn:Ei; [|discriminate];
     destruct (lit "." s2) as [s3|] eqn:Ep; [|discriminate];
     destruct (digits1 s3) as [[f r']|] eqn:Ef; [|discriminate];
     intros [= <- <-];
     apply digits1_some in Ei as (E1 & _);
     apply digits1_some in Ef as (E2 & _ & _ & Hr);
     apply lit_some in Ep; split; [|exact Hr]).
  - apply lit_some in Es. subst.
    cbn. now rewrite !append_assoc.
  - subst. cbn. now rewrite !append_assoc.
Qed.

Lemma decimal_pair_text (pre sep t lat lng : string) :
  decimal_pair pre sep t = Some (lat, lng) ->
  exists after,
    t = pre ++ lat ++ sep ++ lng ++ after /\ starts_with_digit after = false /\
    is_decimal lat = true /\ is_decimal lng = true.
Proof.
  unfold decimal_pair.
  destruct (lit pre t) as [s1|] eqn:E1; [|discriminate].
  destruct (signed_decimal s1) as [[lat' s2]|] eqn:Elat; [|discriminate].
  destruct (lit sep s2) as [s3|] eqn:E3; [|discriminate].
  destruct (signed_decimal s3) as [[lng' after]|] eqn:Elng; [|discriminate].
  intros [= <- <-].
  apply lit_some in E1, E3.
  pose proof (signed_decimal_text _ _ _ Elat) as [Hlat _].
  pose proof (signed_decimal_text _ _ _ Elng) as [Hlng _].
  apply signed_decimal_rest in Elat as [-> _].
  apply signed_decimal_rest in Elng as [-> Hafter].
  exists after. subst. auto.
Qed.

End Text.

Section Browser.
Context {W : Type} `{Browser W} `{unicode : Unicode}.
Local Abbreviation St := (State W).




Lemma share_link_never_raises : never_raises (coordinates_from_share_link (W := W)).
Proof. unfold coordinates_from_share_link. repeat total_step. Qed.

Lemma scripts_never_raises : never_raises (coordinates_from_scripts (W := W)).
Proof. unfold coordinates_from_scripts. repeat total_step. Qed.

Lemma meta_never_raises : never_raises (coordinates_from_meta (W := W)).
Proof. unfold coordinates_from_meta. repeat total_step. Qed.

(** X5. [_extract_coordinates] raises exactly when reading the address of
    the page raises (and then the same exception): the share dialog, the
    script tags and the meta tags are tried under a [try]. Likewise
    [navigate_to_google_maps] raises exactly when loading the page does. *)
Theorem only_the_unguarded_call_raises (st : St) (e : exn) :
  (fst (_extract_coordinates st) = Raise e <->
   fst (with_driver driver_current_url st) = Raise e) /\
  (fst (navigate_to_google_maps st) = Raise e <->
   fst (with_driver (fun d => driver_get d "https://www.google.com/maps") st)
   = Raise e).
Proof using Type.
  split.
  - unfold _extract_coordinates, bind at 1.
    destruct (with_driver driver_current_url st) as [[current_url|e'] s1];
      [|reflexivity].
    cbn [fst]. split; [|discriminate].
    destruct (search at_pattern current_url) as [[lat lng]|]; [discriminate|].
    unfold bind at 1.
    destruct (share_link_never_raises s1) as ([c|] & s2 & ->); [discriminate|].
    unfold bind at 1.
    destruct (scripts_never_raises s2) as ([c|] & s3 & ->); [discriminate|].
    unfold bind at 1.
    destruct (meta_never_raises s3) as ([c|] & s4 & ->); discriminate.
  - unfold navigate_to_google_maps, bind at 1.
    destruct (with_driver _ st) as [[[]|e'] s1]; [|reflexivity].
    cbn [fst]. split; [|discriminate].
    unfold try_except.
    destruct (bind _ _ s1) as [[[]|e''] s2]; discriminate.
Qed.


Ltac kept_step :=
  lazymatch goal with
  | |- keeps_results (ret _) => apply keeps_ret
  | |- keeps_results (raise _) => apply keeps_raise
  | |- keeps_results (sleep _) => apply keeps_sleep
  | |- keeps_results self_config => apply keeps_self_config
  | |- keeps_results (lift _) => apply keeps_lift
  | |- keeps_results (with_driver _) => apply keeps_with_driver
  | |- keeps_results (try_except _ _) => apply keeps_try_except; [|intros ?]
  | |- keeps_results (for_return _ _) => apply keeps_for_return; intros ?
  | |- keeps_results (for_each _ _) => apply keeps_for_each; intros ?
  | |- keeps_results (bind _ _) => apply keeps_bind; [|intros ?]
  | |- keeps_results (match ?x with _ => _ end) => destruct x
  end.

Lemma keeps_for_break {X} (xs : list X) (body : X -> M St bool) :
  (forall x, keeps_results (body x)) -> keeps_results (for_break xs body).
Proof.
  intros Hb. induction xs as [|x xs IH]; simpl; [apply keeps_ret|].
  apply keeps_bind; [apply Hb|]. intros [|]; [apply keeps_ret | exact IH].
Qed.

Lemma keeps_re_search {A} (pattern : string -> option A) (text : option string) :
  keeps_results (W := W) (re_search pattern text).
Proof. destruct text; [apply keeps_ret | apply keeps_raise]. Qed.

Lemma keeps_go_back : keeps_results (_go_back_to_list (W := W)).
Proof. unfold _go_back_to_list. repeat kept_step. Qed.

Lemma keeps_restart : keeps_results (_restart_browser_and_search (W := W)).
Proof.
  unfold _restart_browser_and_search.
  kept_step; [repeat kept_step|].
  kept_step; [apply keeps_setup_driver|].
  kept_step; [apply keeps_navigate|].
  kept_step; [apply keeps_search | apply keeps_scroll].
Qed.

Lemma keeps_first_text (find : Locator -> M St WebElement)
    (selectors : list Locator) (sentinel : string) :
  (forall loc, keeps_results (find loc)) ->
  keeps_results (first_text find selectors sentinel).
Proof. intros Hfind. unfold first_text. repeat kept_step. apply Hfind. Qed.

Lemma keeps_extract_coordinates : keeps_results (_extract_coordinates (W := W)).
Proof.
  unfold _extract_coordinates, coordinates_from_share_link,
    coordinates_from_scripts, coordinates_from_meta.
  repeat first [apply keeps_for_break; intros ? | apply keeps_re_search | kept_step].
Qed.

Lemma keeps_place_details (card : WebElement) :
  keeps_results (place_details (W := W) card).
Proof.
  unfold place_details, _extract_name, _extract_address, _extract_rating.
  repeat first [apply keeps_first_text; intros ?
               | apply keeps_extract_coordinates | kept_step].
Qed.

Lemma keeps_single_place (idx : nat) (card : WebElement) :
  keeps_results (_extract_single_place (W := W) idx card).
Proof.
  unfold _extract_single_place.
  repeat first [apply keeps_place_details | apply keeps_go_back
               | apply keeps_restart | kept_step].
Qed.

(** The loop over the cards appends the same records to its list and
    to [self.results], at most one for each card. *)
Lemma card_loop_appends (cards : list WebElement) :
  forall (idx : nat) (acc : list RawRecord) (st : St)
         (rs : list RawRecord) (st' : St),
    card_loop idx cards acc st = (Ok rs, st') ->
    exists new,
      rs = (acc ++ new)%list /\
      results (self st') = (results (self st) ++ new)%list /\
      (List.length new <= List.length cards)%nat.
Proof.
  induction cards as [|card cards IH]; intros idx acc st rs st'.
  - intros [= <- <-]. exists []. now rewrite !app_nil_r.
  - cbn [card_loop]. unfold bind at 1, try_except, bind at 1.
    destruct (_extract_single_place idx card st) as [[place_data|e] s1] eqn:E.
    + pose proof (keeps_single_place idx card st _ s1 E) as Hkept.
      destruct (record_truthy place_data) as [r|].
      * unfold bind, results_append, modify, ret.
        intros Hloop. apply IH in Hloop as (new & -> & Hres & Hlen).
        exists (r :: new). cbn [self results] in Hres.
        rewrite Hres, Hkept, <- !app_assoc. cbn. repeat split; auto. lia.
      * unfold ret. intros Hloop. apply IH in Hloop as (new & -> & Hres & Hlen).
        exists new. rewrite Hres, Hkept. repeat split; auto. cbn. lia.
    + pose proof (keeps_single_place idx card st _ s1 E) as Hkept.
      unfold ret. intros Hloop. apply IH in Hloop as (new & -> & Hres & Hlen).
      exists new. rewrite Hres, Hkept. repeat split; auto. cbn. lia.
Qed.

(** [close] returns, and leaves [self.results] alone. *)
Lemma close_returns (s : St) : close s = (Ok tt, snd (close s)).
Proof. unfold close. destruct (driver (self s)); reflexivity. Qed.

Lemma close_keeps_results (s : St) :
  results (self (snd (close s))) = results (self s).
Proof. unfold close. destruct (driver (self s)); reflexivity. Qed.

Lemma extract_place_cards_appends (st st' : St) (rs : list RawRecord) :
  extract_place_cards st = (Ok rs, st') ->
  results (self st') = (results (self st) ++ rs)%list.
Proof using Type.
  unfold extract_place_cards, bind at 1.
  destruct (with_driver _ st) as [[cards|e] s1] eqn:E1; [|discriminate].
  pose proof (keeps_with_driver _ st _ s1 E1) as K1.
  assert (Hloop : forall cards s rs st',
            match cards with
            | [] => ret []
            | _ :: _ => card_loop 0 cards []
            end s = (Ok rs, st') ->
            results (self st') = (results (self s) ++ rs)%list).
  { intros [|c cards'] s rs0 st0.
    - intros [= <- <-]. now rewrite app_nil_r.
    - intros Hloop. apply card_loop_appends in Hloop as (new & -> & Hres & _).
      exact Hres. }
  destruct cards as [|c0 cards0].
  - unfold bind at 1.
    destruct (find_cards alternative_selectors s1) as [[cards'|e] s2] eqn:E2;
      [|discriminate].
    intros Hl%Hloop. rewrite Hl, (keeps_find_cards _ s1 _ s2 E2), K1.
    reflexivity.
  - unfold bind at 1, ret. intros Hl.
    apply (Hloop (c0 :: cards0)) in Hl. now rewrite Hl, K1.
Qed.

Lemma extraction_appends (st st' : St) (rs : list RawRecord) :
  extraction st = (Ok rs, st') ->
  results (self st') = (results (self st) ++ rs)%list.
Proof using Type.
  unfold extraction. unfold bind at 1.
  destruct (setup_driver st) as [[[]|e] a1] eqn:A1; [|discriminate].
  unfold bind at 1.
  destruct (navigate_to_google_maps a1) as [[[]|e] a2] eqn:A2; [|discriminate].
  unfold bind at 1.
  destruct (search_for_places a2) as [[[]|e] a3] eqn:A3; [|discriminate].
  unfold bind at 1.
  destruct (scroll_results a3) as [[[]|e] a4] eqn:A4; [|discriminate].
  intros Hc%extract_place_cards_appends. rewrite Hc.
  now rewrite (keeps_scroll _ _ _ A4), (keeps_search _ _ _ A3),
    (keeps_navigate _ _ _ A2), (keeps_setup_driver _ _ _ A1).
Qed.

(** What [extract] returns and leaves in [self.results], by the way its
    body ends: a body that returns has appended what it returns; a body
    that raises has appended nothing, and [extract] returns the records
    held, or raises again when there is none. *)
Lemma extract_cases (st : St) :
  (exists rs s1,
     extraction st = (Ok rs, s1) /\
     extract st = (Ok rs, snd (close s1)) /\
     results (self s1) = (results (self st) ++ rs)%list) \/
  (exists e s1,
     extraction st = (Raise e, s1) /\
     results (self s1) = results (self st) /\
     extract st = (match results (self st) with
                   | [] => Raise e
                   | _ :: _ => Ok (results (self st))
                   end, snd (close s1))).
Proof using Type.
  unfold extract, try_finally, try_except.
  destruct (extraction st) as [[rs|e] s1] eqn:E.
  - left. exists rs, s1. rewrite (close_returns s1).
    split; [reflexivity|]. split; [reflexivity|].
    now apply extraction_appends.
  - right. exists e, s1.
    pose proof (extraction_raising_keeps_results _ _ _ E) as Hkept.
    split; [reflexivity|]. split; [exact Hkept|].
    unfold bind, self_results. rewrite Hkept.
    destruct (results (self st)); unfold ret, raise;
      now rewrite (close_returns s1).
Qed.

(** X8. [extract_place_cards] appends to [self.results] exactly the records
    it returns, in their order; so after [extract] has returned on a new
    extractor, [self.results] is the list returned. *)
Theorem results_mirror_returned (st st' : St) (rs : list RawRecord) :
  (extract_place_cards st = (Ok rs, st') ->
   results (self st') = (results (self st) ++ rs)%list) /\
  (results (self st) = [] -> extract st = (Ok rs, st') ->
   results (self st') = rs).
Proof using Type.
  split; [apply extract_place_cards_appends|].
  intros Hnew Hout.
  destruct (extract_cases st) as [(rs' & s1 & _ & Hex & Hres)
                                 | (e & s1 & _ & _ & Hex)].
  - rewrite Hex in Hout. injection Hout as <- <-.
    now rewrite close_keeps_results, Hres, Hnew.
  - rewrite Hnew in Hex. rewrite Hex in Hout. discriminate Hout.
Qed.


(** A card that was read, with no way back and a restart that raises:
    the handler of [_extract_single_place] gives [None] or raises in
    its turn, and [self.results] is as before. *)
Lemma single_place_when_restart_raises
    (idx : nat) (card : WebElement) (place_data : RawRecord)
    (st st1 st2 st3 : St) (e : exn) :
  place_details card st = (Ok place_data, st1) ->
  _go_back_to_list st1 = (Ok false, st2) ->
  _restart_browser_and_search st2 = (Raise e, st3) ->
  exists r st4,
    _extract_single_place idx card st = (r, st4) /\
    (r = Ok None \/ exists e', r = Raise e') /\
    results (self st4) = results (self st).
Proof using Type.
  intros Hdetails Hback Hrestart.
  destruct (_extract_single_place idx card st) as [r s4] eqn:E.
  exists r, s4. split; [reflexivity|].
  split; [|exact (keeps_single_place idx card st r s4 E)].
  revert E.
  unfold _extract_single_place, try_except at 1, bind at 1.
  rewrite Hdetails. unfold bind at 1. rewrite Hback. cbn [negb].
  unfold bind at 1. rewrite Hrestart.
  unfold bind at 1.
  destruct (try_except _ _ st3) as [[[]|e'] s5]; intros [= <- <-];
    [left | right; exists e']; reflexivity.
Qed.

(** C3, on the code.  What the loop over the cards does after a card
    was read into [place_data] and the return to the list failed.  When the restart
    of the browser completes, [place_data] is appended (to the list of
    the loop and to [self.results]) and the loop goes on, in the
    session that the restart opened, with [rest]: the cards that remain
    of the list fetched before the restart, handles of the session that
    was quit.  No list of cards is fetched again.  When the restart
    raises, [place_data] is lost: [_extract_single_place] gives [None]
    or raises, and the loop goes on with [rest] and the records it had
    before the card. *)
Theorem card_loop_after_failed_return
    (idx : nat) (card : WebElement) (rest : list WebElement)
    (results : list RawRecord) (place_data : RawRecord) (st st1 st2 : St) :
  place_details card st = (Ok place_data, st1) ->
  _go_back_to_list st1 = (Ok false, st2) ->
  (forall st3,
     _restart_browser_and_search st2 = (Ok tt, st3) ->
     card_loop idx (card :: rest) results st
     = card_loop (S idx) rest (results ++ [place_data])%list
         {| self := {| config := config (self st3); driver := driver (self st3);
                       results := (GoogleMapsExtractor.results (self st3)
                                   ++ [place_data])%list |};
            world := world st3 |}) /\
  (forall e st3,
     _restart_browser_and_search st2 = (Raise e, st3) ->
     exists st4,
       card_loop idx (card :: rest) results st
       = card_loop (S idx) rest results st4 /\
       GoogleMapsExtractor.results (self st4)
       = GoogleMapsExtractor.results (self st)).
Proof using Type.
  intros Hdetails Hback. split.
  - intros st3 Hrestart.
    pose proof (place_details_returns card _ _ _ Hdetails) as Hfields.
    apply record_truthy_fields in Hfields.
    cbn [card_loop]. unfold bind at 1, try_except at 1, bind at 1.
    unfold _extract_single_place, try_except at 1, bind at 1.
    rewrite Hdetails. unfold bind at 1. rewrite Hback.
    cbn [negb]. unfold bind at 1. rewrite Hrestart.
    unfold ret at 1. rewrite Hfields.
    unfold bind at 1, results_append, modify, ret. reflexivity.
  - intros e st3 Hrestart.
    destruct (single_place_when_restart_raises idx card place_data
                st st1 st2 st3 e Hdetails Hback Hrestart)
      as (r & st4 & E & Hres & Hkept).
    exists st4. split; [|exact Hkept].
    cbn [card_loop]. unfold bind at 1, try_except at 1, bind at 1.
    rewrite E. destruct Hres as [-> | [e' ->]]; reflexivity.
Qed.

(** ** An extractor without a driver *)

Lemma with_driver_none {A} (f : nat -> M W A) (st : St) :
  driver (self st) = None ->
  with_driver f st
  = (Raise (AttributeError "'NoneType' object has no attribute"), st).
Proof. intros Hnone. unfold with_driver. now rewrite Hnone. Qed.

Ltac run_without_driver Hnone :=
  repeat (cbn [for_return for_break for_each];
          unfold bind at 1 || unfold try_except at 1 || unfold self_config at 1
          || rewrite (with_driver_none _ _ Hnone) || unfold ret at 1).

(** X7. Before [setup_driver] has run ([self.driver] is [None]) the
    attribute error of the missing driver is caught wherever a method
    wraps the browser in a [try]: the readers give their sentinels,
    [_go_back_to_list] gives [False], and [search_for_places] reports a
    missing search box; [close] does nothing. The browser is not
    touched. *)
Theorem methods_without_driver (st : St) :
  driver (self st) = None ->
  _extract_name st = (Ok "No name", st) /\
  _extract_address st = (Ok "No address", st) /\
  _extract_rating st = (Ok "No rating", st) /\
  _go_back_to_list st = (Ok false, st) /\
  search_for_places st
  = (Raise (Exception "Could not find search box with any selector"), st) /\
  close st = (Ok tt, st) /\
  (exists msg, _extract_coordinates st = (Raise (AttributeError msg), st)) /\
  (exists msg, extract_place_cards st = (Raise (AttributeError msg), st)).
Proof using Type.
  intros Hnone.
  split; [|split; [|split; [|split; [|split; [|split; [|split]]]]]].
  - unfold _extract_name, first_text, name_selectors.
    run_without_driver Hnone. reflexivity.
  - unfold _extract_address, first_text, address_selectors.
    run_without_driver Hnone. reflexivity.
  - unfold _extract_rating, first_text, rating_selectors.
    run_without_driver Hnone. reflexivity.
  - unfold _go_back_to_list, back_button_selectors.
    run_without_driver Hnone. reflexivity.
  - unfold search_for_places, _find_search_box, search_box_selectors.
    run_without_driver Hnone. reflexivity.
  - unfold close. now rewrite Hnone.
  - eexists. unfold _extract_coordinates. run_without_driver Hnone. reflexivity.
  - eexists. unfold extract_place_cards. run_without_driver Hnone. reflexivity.
Qed.

(** X10. When the address of the page holds coordinates,
    [_extract_coordinates] returns them right after reading the address
    (the share dialog is not opened): the two decimals that follow the
    first ["@"] of the address after which two decimals with a comma
    between stand, the second one taken to its last digit. *)
Theorem coordinates_from_url (st st1 : St) (current_url lat lng : string) :
  with_driver driver_current_url st = (Ok current_url, st1) ->
  search at_pattern current_url = Some (lat, lng) ->
  _extract_coordinates st = (Ok (lat ++ "," ++ lng), st1) /\
  exists before after,
    current_url = before ++ "@" ++ lat ++ "," ++ lng ++ after /\
    is_decimal lat = true /\ is_decimal lng = true /\
    starts_with_digit after = false /\
    forall k, (k < String.length before)%nat ->
              at_pattern (drop k current_url) = None.
Proof using Type.
  intros Hurl Hsearch. split.
  - unfold _extract_coordinates, bind. now rewrite Hurl, Hsearch.
  - apply search_leftmost in Hsearch as (before & t & -> & Ht & Hfirst).
    apply decimal_pair_text in Ht as (after & -> & Hafter & Hlat & Hlng).
    exists before, after. auto.
Qed.

(** ** The text fields are stripped *)

Lemma first_text_stripped (find : Locator -> M St WebElement)
    (selectors : list Locator) (sentinel : string) :
  strip sentinel = sentinel -> sentinel <> "" ->
  returns (first_text find selectors sentinel)
          (fun v => strip v = v /\ v <> "").
Proof.
  intros Hsentinel Hne. unfold first_text.
  apply (returns_bind _ _ (when_some (fun v => strip v = v /\ v <> ""))).
  - returns_step. returns_step; [|now apply returns_ret].
    do 2 returns_step.
    destruct (truthy (strip a0)) eqn:Et; apply returns_ret; [|exact I].
    split; [apply strip_idem|]. intros E. now rewrite E in Et.
  - intros [v|] Hv; apply returns_ret; [exact Hv | auto].
Qed.

(** X11. The name, the address and the rating of a record are stripped
    texts, none empty: a text of the page without white space at either
    end, or the sentinel of the field. *)
Theorem text_fields_are_stripped (idx : nat) (card : WebElement) :
  returns (_extract_single_place (W := W) idx card)
    (when_some (fun record =>
       forall k, In k ["name"; "address"; "rating"] ->
         exists v, assoc k record = Some v /\ strip v = v /\ v <> "")).
Proof using Type.
  unfold _extract_single_place. returns_step; [|returns_step; now apply returns_ret].
  apply (returns_bind _ _ (fun record =>
           forall k, In k ["name"; "address"; "rating"] ->
             exists v, assoc k record = Some v /\ strip v = v /\ v <> "")).
  - unfold place_details. do 5 returns_step.
    eapply returns_bind;
      [unfold _extract_name; returns_step;
       apply first_text_stripped; [reflexivity | discriminate]|].
    intros name Hname.
    eapply returns_bind; [apply first_text_stripped; [reflexivity | discriminate]|].
    intros address Haddress.
    eapply returns_bind; [apply first_text_stripped; [reflexivity | discriminate]|].
    intros rating Hrating.
    returns_step. apply returns_ret.
    intros k [<-|[<-|[<-|[]]]]; eexists; (split; [reflexivity|]); assumption.
  - intros record Hrecord. do 2 returns_step. now apply returns_ret.
Qed.

(** ** The ends of the configuration of [scroll_results] *)

(** X12. Once the list of results is found: with no iteration to make
    (zero or a negative number) nothing is scrolled; with a negative
    delay the first [time.sleep] raises [ValueError] after the first
    scroll, and [scroll_results] raises it again. *)
Theorem scroll_results_edge_cases (st st1 : St) (results_list : WebElement) :
  with_driver (fun d => wait_presence d 15 (CSS_SELECTOR, "div[role='feed']")) st
  = (Ok results_list, st1) ->
  ((scroll_iterations (config (self st)) <= 0)%Z ->
   scroll_results st = (Ok tt, st1)) /\
  (forall st2,
     (0 < scroll_iterations (config (self st)))%Z ->
     (scroll_delay (config (self st)) < 0)%Z ->
     with_driver (fun d =>
       driver_execute_script d
         "arguments[0].scrollTop = arguments[0].scrollHeight" results_list) st1
     = (Ok tt, st2) ->
     scroll_results st
     = (Raise (ValueError "sleep length must be non-negative"), st2)).
Proof using Type.
  intros Hfeed. split.
  - intros Hn. unfold scroll_results, try_except, bind at 1, self_config.
    unfold bind at 1. rewrite Hfeed.
    replace (Z.to_nat _) with 0%nat by lia. reflexivity.
  - intros st2 Hn Hdelay Hscroll.
    unfold scroll_results, try_except, bind at 1, self_config.
    unfold bind at 1. rewrite Hfeed.
    destruct (Z.to_nat (scroll_iterations (config (self st)))) as [|k] eqn:Ek;
      [lia|].
    cbn [seq for_each]. unfold bind at 1, bind at 1. rewrite Hscroll.
    unfold sleep. apply Z.ltb_lt in Hdelay. rewrite Hdelay. reflexivity.
Qed.

(** ** The [load] of the extractor *)

(** [GoogleMapsExtractor.load] never returns [True] and writes nothing:
    on an empty frame it returns [False], on any other it raises
    [AttributeError], for the class has no [save_to_csv]. *)
Theorem extractor_load_cannot_save
    (data : Pandas.DataFrame) (output_csv output_json : string) (st : St) :
  snd (load data output_csv output_json st) = st /\
  fst (load data output_csv output_json st)
  = (if Pandas.df_empty data then Ok false
     else Raise (AttributeError
                   "'GoogleMapsExtractor' object has no attribute 'save_to_csv'")) /\
  fst (load data output_csv output_json st) <> Ok true.
Proof using Type.
  unfold load. destruct (Pandas.df_empty data); cbn; repeat split; discriminate.
Qed.

End Browser.
End MethodFacts.

(* ================================================================== *)
(** * Facts about the sessions of the browser *)
(* ================================================================== *)

Module SessionFacts.
Import PyStr Py Py.Notations Config Selenium GoogleMapsExtractor Journal.

Section Facts.
Context {W : Type} `{Browser W} `{unicode : Unicode}.
Local Abbreviation St := (State (W * list SessionEvent)).

Lemma quiet_tidy {A} (m : M St A) : quiet m -> tidy m.
Proof.
  intros Hq st r st' Hinv E. destruct (Hq st r st' E) as [Hj Hd].
  unfold driver_holds_open. now rewrite Hj, Hd.
Qed.

Lemma quiet_ret {A} (a : A) : quiet (ret a : M St A).
Proof. now intros st r st' [= _ <-]. Qed.

Lemma quiet_raise {A} (e : exn) : quiet (raise e : M St A).
Proof. now intros st r st' [= _ <-]. Qed.

Lemma quiet_sleep (seconds : Z) : quiet (sleep seconds : M St unit).
Proof. unfold sleep. destruct (_ <? _)%Z; [apply quiet_raise | apply quiet_ret]. Qed.

Lemma quiet_self_config : quiet (self_config (W := W * list SessionEvent)).
Proof. now intros st r st' [= _ <-]. Qed.

Lemma quiet_bind {A B} (m : M St A) (k : A -> M St B) :
  quiet m -> (forall a, quiet (k a)) -> quiet (bind m k).
Proof.
  intros Hm Hk st r st'. unfold bind.
  destruct (m st) as [[a|e] s1] eqn:E.
  - intros Hka. destruct (Hk a s1 r st' Hka) as [-> ->]. apply (Hm st _ s1 E).
  - intros [= _ <-]. apply (Hm st _ s1 E).
Qed.

Lemma quiet_try_except {A} (body : M St A) (handler : exn -> M St A) :
  quiet body -> (forall e, quiet (handler e)) -> quiet (try_except body handler).
Proof.
  intros Hb Hh st r st'. unfold try_except.
  destruct (body st) as [[a|e] s1] eqn:E.
  - intros [= _ <-]. apply (Hb st _ s1 E).
  - intros Hhe. destruct (Hh e s1 r st' Hhe) as [-> ->]. apply (Hb st _ s1 E).
Qed.

Lemma quiet_for_return {X A} (xs : list X) (body : X -> M St (option A)) :
  (forall x, quiet (body x)) -> quiet (for_return xs body).
Proof.
  intros Hb. induction xs as [|x xs IH]; simpl; [apply quiet_ret|].
  apply quiet_bind; [apply Hb|]. intros [v|]; [apply quiet_ret | exact IH].
Qed.

Lemma quiet_for_each {X} (xs : list X) (body : X -> M St unit) :
  (forall x, quiet (body x)) -> quiet (for_each xs body).
Proof.
  intros Hb. induction xs as [|x xs IH]; simpl; [apply quiet_ret|].
  apply quiet_bind; [apply Hb | intros _; exact IH].
Qed.

Lemma quiet_for_break {X} (xs : list X) (body : X -> M St bool) :
  (forall x, quiet (body x)) -> quiet (for_break xs body).
Proof.
  intros Hb. induction xs as [|x xs IH]; simpl; [apply quiet_ret|].
  apply quiet_bind; [apply Hb|]. intros [|]; [apply quiet_ret | exact IH].
Qed.

Lemma quiet_lift {A} (m : M W A) : quiet (lift (unrecorded m)).
Proof.
  intros st r st'. unfold lift, unrecorded.
  destruct (m (fst (world st))) as [r' w']. now intros [= _ <-].
Qed.

Lemma quiet_with_driver {A} (f : nat -> M W A) :
  quiet (with_driver (fun d => unrecorded (f d))).
Proof.
  intros st r st'. unfold with_driver.
  destruct (driver (self st)) as [d|] eqn:Ed;
    [rewrite <- Ed; exact (quiet_lift (f d) st r st') | now intros [= _ <-]].
Qed.

Lemma quiet_re_search {A} (pattern : string -> option A) (text : option string) :
  quiet (re_search pattern text : M St (option A)).
Proof. destruct text; [apply quiet_ret | apply quiet_raise]. Qed.

Ltac quiet_step :=
  lazymatch goal with
  | |- quiet (ret _) => apply quiet_ret
  | |- quiet (raise _) => apply quiet_raise
  | |- quiet (sleep _) => apply quiet_sleep
  | |- quiet self_config => apply quiet_self_config
  | |- quiet (re_search _ _) => apply quiet_re_search
  | |- quiet (lift _) => apply quiet_lift
  | |- quiet (with_driver _) => apply quiet_with_driver
  | |- quiet (try_except _ _) => apply quiet_try_except; [|intros ?]
  | |- quiet (for_return _ _) => apply quiet_for_return; intros ?
  | |- quiet (for_each _ _) => apply quiet_for_each; intros ?
  | |- quiet (for_break _ _) => apply quiet_for_break; intros ?
  | |- quiet (bind _ _) => apply quiet_bind; [|intros ?]
  | |- quiet (match ?x with _ => _ end) => destruct x
  end.

Lemma quiet_navigate : quiet (navigate_to_google_maps (W := W * list SessionEvent)).
Proof. unfold navigate_to_google_maps. repeat quiet_step. Qed.

Lemma quiet_search : quiet (search_for_places (W := W * list SessionEvent)).
Proof. unfold search_for_places, _find_search_box. repeat quiet_step. Qed.

Lemma quiet_scroll : quiet (scroll_results (W := W * list SessionEvent)).
Proof. unfold scroll_results. repeat quiet_step. Qed.

Lemma quiet_go_back : quiet (_go_back_to_list (W := W * list SessionEvent)).
Proof. unfold _go_back_to_list. repeat quiet_step. Qed.

Lemma quiet_place_details (card : WebElement) :
  quiet (place_details (W := W * list SessionEvent) card).
Proof.
  unfold place_details, _extract_name, _extract_address, _extract_rating,
    first_text, _extract_coordinates, coordinates_from_share_link,
    coordinates_from_scripts, coordinates_from_meta.
  repeat quiet_step.
Qed.

Lemma quiet_find_cards (selectors : list string) :
  quiet (find_cards (W := W * list SessionEvent) selectors).
Proof.
  induction selectors as [|selector selectors IH]; simpl; [apply quiet_ret|].
  quiet_step; [quiet_step|]. destruct a; [exact IH | apply quiet_ret].
Qed.

Lemma quiet_results_append (place_data : RawRecord) :
  quiet (results_append (W := W * list SessionEvent) place_data).
Proof. now intros st r st' [= _ <-]. Qed.

Lemma tidy_bind {A B} (m : M St A) (k : A -> M St B) :
  tidy m -> (forall a, tidy (k a)) -> tidy (bind m k).
Proof.
  intros Hm Hk st r st' Hinv. unfold bind.
  destruct (m st) as [[a|e] s1] eqn:E.
  - apply Hk. apply (Hm st _ s1 Hinv E).
  - intros [= _ <-]. apply (Hm st _ s1 Hinv E).
Qed.

Lemma tidy_try_except {A} (body : M St A) (handler : exn -> M St A) :
  tidy body -> (forall e, tidy (handler e)) -> tidy (try_except body handler).
Proof.
  intros Hb Hh st r st' Hinv. unfold try_except.
  destruct (body st) as [[a|e] s1] eqn:E.
  - intros [= _ <-]. apply (Hb st _ s1 Hinv E).
  - apply Hh. apply (Hb st _ s1 Hinv E).
Qed.

Lemma all_quit_holds (st : St) : all_quit st -> driver_holds_open st.
Proof. unfold all_quit, driver_holds_open. intros ->. contradiction. Qed.

Lemma open_sessions_snoc (events : list SessionEvent) (e : SessionEvent) :
  open_sessions (events ++ [e]) = after_event (open_sessions events) e.
Proof. unfold open_sessions. now rewrite fold_left_app. Qed.

Lemma filter_out_only (d : nat) (l : list nat) :
  (forall x, In x l -> x = d) ->
  List.filter (fun x => negb (Nat.eqb x d)) l = [].
Proof.
  induction l as [|x l IH]; intros Hall; [reflexivity|].
  cbn [List.filter]. rewrite (Hall x) by now left.
  rewrite Nat.eqb_refl. cbn [negb]. apply IH. intros y Hy. apply Hall. now right.
Qed.

(** Quitting the driver that [self.driver] holds leaves no session
    open. *)
Lemma quit_leaves_none (st : St) (d : nat) :
  driver_holds_open st -> driver (self st) = Some d ->
  List.filter (fun x => negb (Nat.eqb x d)) (open_sessions (journal st)) = [].
Proof.
  intros Hinv Hd. apply filter_out_only. intros x Hx.
  apply Hinv in Hx. congruence.
Qed.

Lemma no_driver_none_open (st : St) :
  driver_holds_open st -> driver (self st) = None -> all_quit st.
Proof.
  unfold all_quit. intros Hinv Hd.
  destruct (open_sessions (journal st)) as [|x l] eqn:E; [reflexivity|].
  specialize (Hinv x). rewrite E in Hinv. specialize (Hinv (or_introl eq_refl)).
  congruence.
Qed.

Lemma setup_driver_holds (st : St) (r : Result unit) (st' : St) :
  all_quit st -> setup_driver st = (r, st') -> driver_holds_open st'.
Proof.
  unfold all_quit. intros Hnone.
  unfold setup_driver, bind, self_config, lift.
  cbn [Chrome journaling].
  destruct (Chrome (headless (config (self st))) (fst (world st))) as [[d|e] w'].
  - unfold set_driver, modify. intros [= _ <-].
    unfold driver_holds_open, journal. cbn [self world driver snd].
    rewrite open_sessions_snoc. fold (journal st). rewrite Hnone.
    cbn [after_event]. intros x [->|[]]. reflexivity.
  - intros [= _ <-]. apply all_quit_holds.
    unfold all_quit, journal. cbn [world snd]. exact Hnone.
Qed.

Lemma quit_driver_run (st : St) :
  driver_holds_open st ->
  exists st1,
    try_except (with_driver (fun d => modify (driver_quit d))) (fun _ => ret tt) st
    = (Ok tt, st1) /\
    all_quit st1 /\ self st1 = self st.
Proof.
  intros Hinv. unfold try_except, with_driver.
  destruct (driver (self st)) as [d|] eqn:Hd.
  - unfold lift, modify. cbn [driver_quit journaling].
    eexists. split; [reflexivity|]. split; [|reflexivity].
    unfold all_quit, journal. cbn [world snd].
    rewrite open_sessions_snoc. cbn [after_event].
    now apply quit_leaves_none.
  - exists st. split; [reflexivity|]. split; [|reflexivity].
    now apply no_driver_none_open.
Qed.

Lemma tidy_restart : tidy (_restart_browser_and_search (W := W * list SessionEvent)).
Proof.
  intros st r st' Hinv. unfold _restart_browser_and_search, bind at 1.
  destruct (quit_driver_run st Hinv) as (st1 & -> & Hnone & _).
  unfold bind at 1.
  destruct (setup_driver st1) as [[[]|e] st2] eqn:E.
  - pose proof (setup_driver_holds st1 _ st2 Hnone E) as Hinv2.
    assert (T : tidy (navigate_to_google_maps (W := W * list SessionEvent);;
                      search_for_places;; scroll_results)).
    { apply tidy_bind; [apply quiet_tidy, quiet_navigate | intros _].
      apply tidy_bind; [apply quiet_tidy, quiet_search | intros _].
      apply quiet_tidy, quiet_scroll. }
    apply (T st2 r st' Hinv2).
  - intros [= _ <-]. apply (setup_driver_holds st1 _ st2 Hnone E).
Qed.

Lemma tidy_single_place (idx : nat) (card : WebElement) :
  tidy (_extract_single_place (W := W * list SessionEvent) idx card).
Proof.
  unfold _extract_single_place.
  apply tidy_try_except.
  - apply tidy_bind; [apply quiet_tidy, quiet_place_details | intros place_data].
    apply tidy_bind; [apply quiet_tidy, quiet_go_back | intros success].
    apply tidy_bind; [|intros _; apply quiet_tidy, quiet_ret].
    destruct success; [apply quiet_tidy, quiet_ret | apply tidy_restart].
  - intros _. apply tidy_bind; [|intros _; apply quiet_tidy, quiet_ret].
    apply tidy_try_except; [|intros _; apply tidy_restart].
    apply tidy_bind; [apply quiet_tidy, quiet_go_back | intros success].
    destruct success; [apply quiet_tidy, quiet_ret | apply tidy_restart].
Qed.

Lemma tidy_card_loop (cards : list WebElement) :
  forall (idx : nat) (acc : list RawRecord),
    tidy (card_loop (W := W * list SessionEvent) idx cards acc).
Proof.
  induction cards as [|card cards IH]; intros idx acc; cbn [card_loop].
  - apply quiet_tidy, quiet_ret.
  - apply tidy_bind; [|intros acc'; apply IH].
    apply tidy_try_except; [|intros _; apply quiet_tidy, quiet_ret].
    apply tidy_bind; [apply tidy_single_place | intros place_data].
    destruct (record_truthy place_data); [|apply quiet_tidy, quiet_ret].
    apply quiet_tidy. quiet_step; [apply quiet_results_append | apply quiet_ret].
Qed.

Lemma tidy_extract_place_cards :
  tidy (extract_place_cards (W := W * list SessionEvent)).
Proof.
  unfold extract_place_cards.
  apply tidy_bind; [apply quiet_tidy; quiet_step | intros cards].
  apply tidy_bind.
  - apply quiet_tidy. destruct cards; [apply quiet_find_cards | apply quiet_ret].
  - intros [|card' cards']; [apply quiet_tidy, quiet_ret | apply tidy_card_loop].
Qed.

Lemma extraction_holds (st : St) (r : Result (list RawRecord)) (st' : St) :
  all_quit st -> extraction st = (r, st') -> driver_holds_open st'.
Proof.
  intros Hnone. unfold extraction, bind at 1.
  destruct (setup_driver st) as [[[]|e] st1] eqn:E.
  - pose proof (setup_driver_holds st _ st1 Hnone E) as Hinv.
    assert (T : tidy (navigate_to_google_maps (W := W * list SessionEvent);;
                      search_for_places;; scroll_results;; extract_place_cards)).
    { apply tidy_bind; [apply quiet_tidy, quiet_navigate | intros _].
      apply tidy_bind; [apply quiet_tidy, quiet_search | intros _].
      apply tidy_bind; [apply quiet_tidy, quiet_scroll | intros _].
      apply tidy_extract_place_cards. }
    apply (T st1 r st' Hinv).
  - intros [= _ <-]. apply (setup_driver_holds st _ st1 Hnone E).
Qed.

Lemma close_quits (st : St) :
  driver_holds_open st ->
  exists st', close st = (Ok tt, st') /\ all_quit st'.
Proof.
  intros Hinv. unfold close.
  destruct (driver (self st)) as [d|] eqn:Hd.
  - unfold lift, modify. cbn [driver_quit journaling].
    eexists. split; [reflexivity|].
    unfold all_quit, journal. cbn [world snd].
    rewrite open_sessions_snoc. cbn [after_event].
    now apply quit_leaves_none.
  - exists st. split; [reflexivity|]. now apply no_driver_none_open.
Qed.

(** X9. [extract] leaves no browser session open: when every session that
    was opened before the call has been quit, then so has, when [extract]
    returns or raises, every session opened since, the first one and
    those of the restarts. *)
Theorem extract_leaves_no_session_open (st : St) :
  open_sessions (journal st) = [] ->
  open_sessions (journal (snd (extract st))) = [].
Proof using Type.
  intros Hnone. unfold extract, try_finally.
  destruct (try_except extraction _ st) as [r st1] eqn:E.
  assert (Hinv : driver_holds_open st1).
  { revert E. unfold try_except.
    destruct (extraction st) as [[rs|e] s1] eqn:Eex.
    - intros [= _ <-]. apply (extraction_holds st _ s1 Hnone Eex).
    - intros Eh.
      assert (Hq : quiet (let* collected := self_results (W := W * list SessionEvent) in
                          match collected with
                          | _ :: _ => ret collected
                          | [] => raise e
                          end)).
      { quiet_step; [now intros s r0 s' [= _ <-]|].
        destruct a; [apply quiet_raise | apply quiet_ret]. }
      apply (quiet_tidy _ Hq s1 r st1); [|exact Eh].
      apply (extraction_holds st _ s1 Hnone Eex). }
  destruct (close_quits st1 Hinv) as (st2 & -> & Hquit). exact Hquit.
Qed.

End Facts.
End SessionFacts.

(* ================================================================== *)
(** * More runs in front of the scripted browser *)
(* ================================================================== *)

Module MoreRuns.
Import PyStr PyRe PyFloat Py Py.Notations Pandas Config Selenium GoogleMapsExtractor.
Import Design Scripted.

#[local] Existing Instance SampleUnicode.database.

(** ** The loader *)

(** ** The transformer *)

Lemma transformed_columns_run :
  exists df st',
    DataTransformer.clean_and_transform Process.replace_with_None
      "2024-05-01 10:00:00" [kopi; earlier] at_start = (Ok df, st') /\
    keys (df_columns df)
    = ["name"; "address"; "rating"; "coordinates";
       "rating_numeric"; "latitude"; "longitude"; "extraction_timestamp"].
Proof.
  apply (StageFacts.transformed_columns Process.replace_with_None "2024-05-01 10:00:00"
           kopi [earlier] at_start).
  repeat constructor.
Defined.

Lemma clean_and_transform_keeps_raw_fields_run :
  exists df st',
    DataTransformer.clean_and_transform Process.replace_with_None
      "2024-05-01 10:00:00" [kopi; earlier] at_start = (Ok df, st') /\
    df_col "address" df !! 1%nat = Some (CStr "No address") /\
    df_has "raw_html" df = false.
Proof.
  apply (StageFacts.clean_and_transform_keeps_raw_fields Process.replace_with_None
           "2024-05-01 10:00:00" [kopi; earlier] at_start 1 earlier
           "address" "No address");
    first [reflexivity | discriminate].
Defined.

Lemma split_coordinates_rows_run :
  let out := DataTransformer.run DataTransformer._split_coordinates
               (DataFrame_of [kopi; earlier]) in
  fst out = Ok tt /\
  exists x y,
    df_col "latitude" (DataTransformer.frame (snd out)) !! 0%nat = Some (CFloat x) /\
    df_col "longitude" (DataTransformer.frame (snd out)) !! 0%nat = Some (CFloat y) /\
    (forall lat lng, split "," "-6.9667,110.4167" = [lat; lng] ->
       match float_of_string lat with
       | Some a => x = a /\ y = match float_of_string lng with
                                | Some b => b
                                | None => NaN
                                end
       | None => x = NaN /\ y = NaN
       end) /\
    (List.length (split "," "-6.9667,110.4167") <> 2%nat -> x = NaN /\ y = NaN).
Proof.
  apply (StageFacts.split_coordinates_rows [kopi; earlier] 0 kopi "-6.9667,110.4167");
    reflexivity.
Defined.

Lemma well_formed_coordinates_split_run :
  let out := DataTransformer.run DataTransformer._split_coordinates
               (DataFrame_of [kopi; earlier]) in
  fst out = Ok tt /\ DataTransformer.log (snd out) = [].
Proof.
  cbv zeta.
  destruct (StageFacts.well_formed_coordinates_split [kopi; earlier]) as (Hok & Hlog & _).
  - repeat constructor; eexists; split; reflexivity.
  - split; [exact Hok | exact Hlog].
Defined.

Lemma clean_and_transform_row_wise_run :
  exists df st' rating_numeric latitude longitude,
    DataTransformer.clean_and_transform Process.replace_with_None
      "2024-05-01 10:00:00" [kopi; earlier] at_start = (Ok df, st') /\
    DataTransformer.rating_numeric_column ["4.5"] = [rating_numeric] /\
    DataTransformer.coordinates_columns ["No coordinates"] = ([latitude], [longitude]) /\
    df_col "rating_numeric" df !! 1%nat = Some rating_numeric /\
    df_col "latitude" df !! 1%nat = Some latitude /\
    df_col "longitude" df !! 1%nat = Some longitude /\
    df_col "extraction_timestamp" df !! 1%nat
    = Some (CTimestamp "2024-05-01 10:00:00").
Proof.
  apply (StageFacts.clean_and_transform_row_wise Process.replace_with_None
           "2024-05-01 10:00:00" [kopi; earlier] at_start 1 earlier
           "4.5" "No coordinates"); reflexivity.
Defined.

(** ** The extractor *)

(** The first card of the site without a way back: it is read, the
    return to the list fails, the restart completes, and the loop goes
    on with the second handle of the old list. *)
Lemma card_loop_after_failed_return_run :
  let st := searched dead_end_site in
  let st1 := snd (place_details first_card st) in
  let st2 := snd (_go_back_to_list st1) in
  let st3 := snd (_restart_browser_and_search st2) in
  card_loop 0 [first_card; second_card] [] st
  = card_loop 1 [second_card] [kopi]
      {| self := {| config := config (self st3); driver := driver (self st3);
                    results := (results (self st3) ++ [kopi])%list |};
         world := world st3 |}.
Proof.
  cbv zeta.
  apply (MethodFacts.card_loop_after_failed_return
           0 first_card [second_card] [] kopi
           (searched dead_end_site)
           (snd (place_details first_card (searched dead_end_site)))
           (snd (_go_back_to_list
                   (snd (place_details first_card (searched dead_end_site))))));
    vm_compute; reflexivity.
Defined.

(** A listing that cannot be scrolled, so that the restart raises: the
    card is read, and its record is in neither list. *)
Lemma record_lost_when_restart_raises :
  let st := searching cfg no_feed_site in
  let card := {| parent := 0; element_id := 1 |} in
  fst (place_details card st)
  = Ok [ ("name", "Kopi Satu"); ("address", "No address");
         ("rating", "No rating"); ("coordinates", "-6.9667,110.4167") ] /\
  fst (card_loop 0 [card] [] st) = Ok [] /\
  results (self (snd (card_loop 0 [card] [] st))) = [].
Proof. cbv zeta. repeat split; vm_compute; reflexivity. Qed.



Lemma methods_without_driver_run :
  let st := start cfg plain_site in
  _extract_name st = (Ok "No name", st) /\
  _extract_address st = (Ok "No address", st) /\
  _extract_rating st = (Ok "No rating", st) /\
  _go_back_to_list st = (Ok false, st) /\
  search_for_places st
  = (Raise (Exception "Could not find search box with any selector"), st) /\
  close st = (Ok tt, st) /\
  (exists msg, _extract_coordinates st = (Raise (AttributeError msg), st)) /\
  (exists msg, extract_place_cards st = (Raise (AttributeError msg), st)).
Proof.
  apply (MethodFacts.methods_without_driver (start cfg plain_site)). reflexivity.
Defined.

Lemma results_mirror_returned_run :
  fst (extract (start cfg plain_site)) = Ok [kopi; kopi] /\
  results (self (snd (extract (start cfg plain_site)))) = [kopi; kopi].
Proof.
  split; [vm_compute; reflexivity|].
  apply (proj2 (MethodFacts.results_mirror_returned (start cfg plain_site)
                  (snd (extract (start cfg plain_site))) [kopi; kopi]));
    vm_compute; reflexivity.
Defined.

Lemma coordinates_from_url_run :
  let st := searched plain_site in
  _extract_coordinates st = (Ok "-6.9667,110.4167", st) /\
  exists before after,
    url plain_site = before ++ "@" ++ "-6.9667" ++ "," ++ "110.4167" ++ after /\
    is_decimal "-6.9667" = true /\ is_decimal "110.4167" = true /\
    starts_with_digit after = false /\
    forall k, (k < String.length before)%nat ->
              at_pattern (drop k (url plain_site)) = None.
Proof.
  apply (MethodFacts.coordinates_from_url (searched plain_site) (searched plain_site)
           (url plain_site) "-6.9667" "110.4167"); vm_compute; reflexivity.
Defined.

Lemma text_fields_are_stripped_run :
  exists v, assoc "name" kopi = Some v /\ strip v = v /\ v <> "".
Proof.
  apply (MethodFacts.text_fields_are_stripped 0 first_card (searched plain_site)
           (Some kopi)
           (snd (_extract_single_place 0 first_card (searched plain_site)))).
  - vm_compute; reflexivity.
  - now left.
Defined.

Lemma scroll_results_edge_cases_run :
  let st := searching hasty_cfg plain_site in
  exists st2,
    scroll_results st
    = (Raise (ValueError "sleep length must be non-negative"), st2).
Proof.
  cbv zeta. eexists.
  apply (proj2 (MethodFacts.scroll_results_edge_cases (H := scripted_browser)
                  (searching hasty_cfg plain_site)
                  (searching hasty_cfg plain_site) results_list
                  ltac:(vm_compute; reflexivity)));
    vm_compute; reflexivity.
Defined.

Lemma extract_leaves_no_session_open_run :
  let st : State (World * list Journal.SessionEvent) :=
    {| self := __init__ cfg; world := (fresh dead_end_site, []) |} in
  Journal.open_sessions
    (Journal.journal (snd (extract (H := Journal.journaling) st))) = [].
Proof.
  cbv zeta.
  apply (SessionFacts.extract_leaves_no_session_open
           (H := scripted_browser)
           {| self := __init__ cfg; world := (fresh dead_end_site, []) |}).
  reflexivity.
Defined.

(** The journal of that run: three sessions, each quit before the next
    is opened, and the last one quit by [close]. *)
Lemma journal_of_the_dead_end :
  Journal.journal
    (snd (extract (H := Journal.journaling)
            {| self := __init__ cfg; world := (fresh dead_end_site, []) |}))
  = [Journal.SessionOpened 0; Journal.SessionQuit 0; Journal.SessionOpened 1; Journal.SessionQuit 1;
     Journal.SessionOpened 2; Journal.SessionQuit 2].
Proof. vm_compute; reflexivity. Qed.

(** ** The process *)

Lemma empty_extraction_is_reported_run :
  let out := Process.main "2024-05-01 10:00:00" Process.config
               (Process.boot no_cards_site) in
  fst out = Ok 1%Z /\
  map level (Process.log (snd out))
  = [INFO; INFO; INFO; INFO; WARNING; INFO; WARNING].
Proof.
  cbv zeta.
  destruct (PipelineFacts.empty_extraction_is_reported
              "2024-05-01 10:00:00" Process.config (Process.boot no_cards_site))
    as (Hexit & Hlog).
  - vm_compute; reflexivity.
  - split; [exact Hexit|]. rewrite Hlog. reflexivity.
Defined.

Lemma failed_extraction_is_logged_run :
  let out := Process.main "2024-05-01 10:00:00" Process.config
               (Process.boot no_search_box_site) in
  fst out = Ok 1%Z /\
  Process.log (snd out)
  = [ {| level := INFO; message := "Starting Google Maps ETL pipeline" |};
      {| level := INFO; message := "Starting extraction phase" |};
      {| level := ERROR;
         message := "ETL pipeline failed: Could not find search box with any selector" |} ].
Proof.
  apply (PipelineFacts.failed_extraction_is_logged
           "2024-05-01 10:00:00" Process.config (Process.boot no_search_box_site)
           (Exception "Could not find search box with any selector")).
  vm_compute; reflexivity.
Defined.

Lemma pipeline_saves_the_transformed_records_run :
  let out := Process.main "2024-05-01 10:00:00" Process.config
               (Process.boot plain_site) in
  exists df,
    (forall st,
       fst (DataTransformer.clean_and_transform Process.replace_with_None
              "2024-05-01 10:00:00" [kopi; kopi] st) = Ok df) /\
    df_index df = 2%nat /\
    DataLoader.files (Process.disk (snd out)) !! "output/semarang_coffee_shops.csv"
    = Some (DataLoader.CsvOf df) /\
    DataLoader.files (Process.disk (snd out)) !! "output/semarang_coffee_shops.json"
    = Some (DataLoader.JsonLinesOf df).
Proof.
  apply (PipelineFacts.pipeline_saves_the_transformed_records
           "2024-05-01 10:00:00" Process.config (Process.boot plain_site)
           [kopi; kopi]).
  - vm_compute; reflexivity.
  - discriminate.
  - split; apply (bool_decide_unpack _); vm_compute; exact I.
  - split; apply (bool_decide_unpack _); vm_compute; exact I.
Defined.

End MoreRuns.
